(** * Yellowbrick: classification report and part-of-speech visualizers

    A shallow embedding of [yellowbrick/text/postag.py] and
    [yellowbrick/classifier/classification_report.py].

    Python objects are mutable; every method is embedded as a function
    from the state of [self] to an [outcome]: either the value returned
    together with the new state of [self], or the exception raised
    together with the state [self] was left in.  External collaborators
    (numpy, scikit-learn, matplotlib) are interfaces whose calls are either
    recorded on the drawing surface or taken as parameters. *)

From Stdlib Require Import List String Ascii ZArith Lia Bool Arith.
From Stdlib Require Import Permutation Sorted DecimalString QArith_base.
From Stdlib Require Import OrderedTypeEx.
Import ListNotations.

Set Implicit Arguments.

Open Scope string_scope.
Open Scope Z_scope.

(* ===================================================================== *)
(** ** Python preliminaries *)
(* ===================================================================== *)

Module Py.

(** Exceptions that the embedded code raises or lets through. *)
Inductive exn : Type :=
| YellowbrickValueError (msg : string)
| KeyError (key : string)
| IndexError
| TypeError
| ValueError
| AttributeError (attr : string)
| External (name : string).

(** The outcome of running a method on a state [St] of [self]. *)
Inductive outcome (St A : Type) : Type :=
| Return (a : A) (s : St)
| Raise (e : exn) (s : St).

Arguments Return {St A} a s.
Arguments Raise {St A} e s.

(** The state an outcome leaves [self] in. *)
Definition final_state {St A} (o : outcome St A) : St :=
  match o with
  | Return _ s => s
  | Raise _ s => s
  end.

Definition M (St A : Type) : Type := St -> outcome St A.

Definition ret {St A} (a : A) : M St A := fun s => Return a s.
Definition raise {St A} (e : exn) : M St A := fun s => Raise e s.
Definition bind {St A B} (m : M St A) (k : A -> M St B) : M St B :=
  fun s => match m s with
           | Return a s' => k a s'
           | Raise e s' => Raise e s'
           end.
Definition get {St} : M St St := fun s => Return s s.
Definition modify {St} (f : St -> St) : M St unit := fun s => Return tt (f s).

(** Reading an attribute that may not have been assigned yet. *)
Definition attr {St A} (name : string) (proj : St -> option A) : M St A :=
  fun s => match proj s with
           | Some a => Return a s
           | None => Raise (AttributeError name) s
           end.

Declare Scope py_scope.
Delimit Scope py_scope with py.
Notation "x <- m ;; k" := (bind m (fun x => k))
  (at level 61, m at next level, right associativity) : py_scope.
Notation "m ;; k" := (bind m (fun _ => k))
  (at level 61, right associativity) : py_scope.

Open Scope py_scope.

(** [for x in xs: body x] *)
Fixpoint for_each {St A} (xs : list A) (body : A -> M St unit) : M St unit :=
  match xs with
  | [] => ret tt
  | x :: rest => body x ;; for_each rest body
  end.

(** [for idx, x in enumerate(xs): body idx x], counting from [i]. *)
Fixpoint for_enumerate_from {St A} (i : nat) (xs : list A)
         (body : nat -> A -> M St unit) : M St unit :=
  match xs with
  | [] => ret tt
  | x :: rest => body i x ;; for_enumerate_from (S i) rest body
  end.

Definition for_enumerate {St A} (xs : list A) (body : nat -> A -> M St unit)
  : M St unit := for_enumerate_from 0 xs body.

(** [[f(x) for x in xs]] *)
Fixpoint map_m {St A B} (f : A -> M St B) (xs : list A) : M St (list B) :=
  match xs with
  | [] => ret []
  | x :: rest => b <- f x ;; bs <- map_m f rest ;; ret (b :: bs)
  end.

(** *** Dictionaries

    A Python [dict] keeps its keys in insertion order and [draw] below
    depends on that order, so a dictionary is an association list with
    at most one entry per key. *)

Definition dict (V : Type) : Type := list (string * V).

Fixpoint dict_get {V} (k : string) (d : dict V) : option V :=
  match d with
  | [] => None
  | (k', v) :: rest => if (k' =? k)%string then Some v else dict_get k rest
  end.

(** [d[k] = v]: overwrite in place, or append a new entry. *)
Fixpoint dict_set {V} (k : string) (v : V) (d : dict V) : dict V :=
  match d with
  | [] => [(k, v)]
  | (k', v') :: rest =>
      if (k' =? k)%string then (k', v) :: rest
      else (k', v') :: dict_set k v rest
  end.

(** [d.pop(k)] on a key that is present; [None] stands for [KeyError]. *)
Fixpoint dict_pop {V} (k : string) (d : dict V) : option (dict V) :=
  match d with
  | [] => None
  | (k', v') :: rest =>
      if (k' =? k)%string then Some rest
      else match dict_pop k rest with
           | Some rest' => Some ((k', v') :: rest')
           | None => None
           end
  end.

Definition dict_keys {V} (d : dict V) : list string := map fst d.
Definition dict_values {V} (d : dict V) : list V := map snd d.

(** [dict(pairs)] *)
Definition dict_of {V} (pairs : list (string * V)) : dict V :=
  fold_left (fun d kv => dict_set (fst kv) (snd kv) d) pairs [].

(** [zip(xs, ys)] stops at the shorter argument. *)
Definition zip {A B} (xs : list A) (ys : list B) : list (A * B) := combine xs ys.

(** [{k: f(k) for k in keys}] *)
Definition dict_comprehension {V} (keys : list string) (f : string -> V) : dict V :=
  fold_left (fun d k => dict_set k (f k) d) keys [].

(** *** [np.unique] on a sequence of strings: sorted, without repetition. *)

Fixpoint unique_insert (x : string) (l : list string) : list string :=
  match l with
  | [] => [x]
  | y :: rest =>
      match String.compare x y with
      | Lt => x :: y :: rest
      | Eq => y :: rest
      | Gt => y :: unique_insert x rest
      end
  end.

Definition np_unique (y : list string) : list string :=
  fold_right unique_insert [] y.

End Py.

(* ===================================================================== *)
(** ** The numpy operations used by [PosTagVisualizer.draw] *)
(* ===================================================================== *)

Module Np.

(** [arr[idx]] with an index array: [None] is numpy's [IndexError]. *)
Fixpoint take {A} (arr : list A) (idx : list nat) : option (list A) :=
  match idx with
  | [] => Some []
  | i :: rest =>
      match nth_error arr i, take arr rest with
      | Some a, Some out => Some (a :: out)
      | _, _ => None
      end
  end.

(** [np.array(rows)] builds a two-dimensional array only from rows of one
    length. *)
Definition regular (rows : list (list Z)) : bool :=
  match rows with
  | [] => true
  | r :: rest => forallb (fun r' => Nat.eqb (List.length r') (List.length r)) rest
  end.

Fixpoint add_rows (r acc : list Z) : list Z :=
  match r, acc with
  | a :: r', b :: acc' => (a + b) :: add_rows r' acc'
  | _, _ => []
  end.

(** [np.sum(m, axis=0)] of a matrix with at least one row.  The matrix
    is built from the counters, whose entries count tokens; numpy holds
    them as 64-bit integers, and the sum is taken here in [Z], which is
    numpy's sum as long as every column total stays below [2^63], as the
    totals of counts taken from a corpus do. *)
Definition sum_axis0 (rows : list (list Z)) : list Z :=
  match rows with
  | [] => []
  | r :: rest => fold_left (fun acc r' => add_rows r' acc) rest r
  end.

(** [m[:, idx]] *)
Fixpoint take_columns (rows : list (list Z)) (idx : list nat)
  : option (list (list Z)) :=
  match rows with
  | [] => Some []
  | r :: rest =>
      match take r idx, take_columns rest idx with
      | Some r', Some out => Some (r' :: out)
      | _, _ => None
      end
  end.

(** [a.argsort()]: numpy's default sort makes no promise on how equal
    values are ordered, so an implementation is any function that returns
    the indices of [a] arranged so that the values ascend. *)
Class Argsort : Type := {
  argsort : list Z -> list nat;
  argsort_perm : forall a, Permutation (argsort a) (seq 0 (List.length a));
  argsort_ascending :
    forall a, Sorted Z.le (map (fun i => nth i a 0) (argsort a))
}.

End Np.

(* ===================================================================== *)
(** ** [yellowbrick/text/postag.py] *)
(* ===================================================================== *)

Module PosTag.
Import Py.

(** NOTE: Penn Treebank converts all sentence closers (!,?,;) to periods *)
Definition PUNCT_TAGS : list string :=
  ["."; ":"; ","; "``"; "''"; "("; ")"; "#"; "$"].

Definition TAGSET_NAMES : dict string :=
  [("penn_treebank", "Penn Treebank");
   ("universal", "Universal Dependencies")].

Definition PENN_TAGS : list string :=
  ["noun"; "verb"; "adjective"; "adverb"; "preposition"; "determiner";
   "pronoun"; "conjunction"; "infinitive"; "wh- word"; "modal";
   "possessive"; "existential"; "punctuation"; "digit"; "non-English";
   "interjection"; "list"; "symbol"; "other"].

Definition UNIVERSAL_TAGS : list string :=
  ["noun"; "verb"; "adjective"; "adverb"; "adposition"; "determiner";
   "pronoun"; "conjunction"; "infinitive"; "punctuation"; "number";
   "interjection"; "symbol"; "other"].

(** A tagged corpus: documents of sentences of [(token, tag)] pairs. *)
Definition sentence : Type := list (string * string).
Definition document : Type := list sentence.
Definition corpus : Type := list document.

(** The calls the visualizer makes on its drawing surface.  Colours are
    passed through to matplotlib untouched. *)
Inductive ax_call : Type :=
| bar_stack (data : list (list Z)) (labels ticks : list string)
            (colors colormap : option string)
| bar (xidx : list nat) (height : list Z)
      (n_colors : nat) (colormap colors : option string).

Record Axes : Type := { calls : list ax_call }.

(** The surface matplotlib hands out when none was given, in a process
    that has drawn nothing yet: a new one, without any call.  (In a
    process that has a current surface already, matplotlib hands out that
    one, with the calls it holds: to such a run corresponds a visualizer
    given that surface as [ax].) *)
Definition gca : Axes := {| calls := [] |}.

Record PosTagVisualizer : Type := {
  _ax : option Axes;
  tagset : string;
  frequency : bool;
  colormap : option string;
  colors : option string;
  stack : bool;
  (* attributes that exist only once [fit] has assigned them *)
  labels_ : option (list string);
  _pos_tags : option (list string);
  pos_tag_counts_ : option (dict (dict Z))
}.

Definition set_ax (a : Axes) (s : PosTagVisualizer) : PosTagVisualizer :=
  {| _ax := Some a; tagset := tagset s; frequency := frequency s;
     colormap := colormap s; colors := colors s; stack := stack s;
     labels_ := labels_ s; _pos_tags := _pos_tags s;
     pos_tag_counts_ := pos_tag_counts_ s |}.

Definition set_labels_ (l : list string) (s : PosTagVisualizer)
  : PosTagVisualizer :=
  {| _ax := _ax s; tagset := tagset s; frequency := frequency s;
     colormap := colormap s; colors := colors s; stack := stack s;
     labels_ := Some l; _pos_tags := _pos_tags s;
     pos_tag_counts_ := pos_tag_counts_ s |}.

Definition set_pos_tags (t : list string) (s : PosTagVisualizer)
  : PosTagVisualizer :=
  {| _ax := _ax s; tagset := tagset s; frequency := frequency s;
     colormap := colormap s; colors := colors s; stack := stack s;
     labels_ := labels_ s; _pos_tags := Some t;
     pos_tag_counts_ := pos_tag_counts_ s |}.

Definition set_pos_tag_counts_ (c : dict (dict Z)) (s : PosTagVisualizer)
  : PosTagVisualizer :=
  {| _ax := _ax s; tagset := tagset s; frequency := frequency s;
     colormap := colormap s; colors := colors s; stack := stack s;
     labels_ := labels_ s; _pos_tags := _pos_tags s;
     pos_tag_counts_ := Some c |}.

(** [PosTagVisualizer.__init__]: a new object, or the exception raised. *)
Definition __init__ (ax0 : option Axes) (tagset0 : string)
           (colormap0 colors0 : option string) (frequency0 stack0 : bool)
  : exn + PosTagVisualizer :=
  match dict_get tagset0 TAGSET_NAMES with
  | None =>
      inl (YellowbrickValueError
             ("'" ++ tagset0 ++ "' is an invalid tagset. Please choose one of "
                  ++ String.concat ", " (dict_keys TAGSET_NAMES) ++ "."))
  | Some _ =>
      inr {| _ax := ax0; tagset := tagset0; frequency := frequency0;
             colormap := colormap0; colors := colors0; stack := stack0;
             labels_ := None; _pos_tags := None; pos_tag_counts_ := None |}
  end.

(** Modelled from the spec: the [ax] property of the base [Visualizer]
    (yellowbrick/base.py is not among the sources): reading the drawing
    surface creates and caches a default one if absent. *)
Definition ax : M PosTagVisualizer Axes :=
  s <- get ;;
  match _ax s with
  | Some a => ret a
  | None => modify (set_ax gca) ;; ret gca
  end.

(** A call on the (shared, mutable) drawing surface [a]. *)
Definition ax_do (a : Axes) (c : ax_call) : M PosTagVisualizer unit :=
  modify (set_ax {| calls := calls a ++ [c] |}).

(** [_make_tag_map]: the dictionary comprehension is the only return that
    runs; every label gets a dictionary of its own. *)
Definition _make_tag_map (tags : list string) : M PosTagVisualizer (dict (dict Z)) :=
  let zeros := repeat 0 (List.length tags) in
  labels <- attr "labels_" labels_ ;;
  ret (dict_comprehension labels (fun _ => dict_of (zip tags zeros))).

Definition _penn_tag_map : M PosTagVisualizer (dict (dict Z)) :=
  modify (set_pos_tags PENN_TAGS) ;;
  _make_tag_map PENN_TAGS.

Definition _uni_tag_map : M PosTagVisualizer (dict (dict Z)) :=
  modify (set_pos_tags UNIVERSAL_TAGS) ;;
  _make_tag_map UNIVERSAL_TAGS.

(** [counter = self.pos_tag_counts_[...]] yields a reference to one of the
    inner dictionaries; the reference is the key it is stored under. *)
Definition select_counter (idx : nat) (y : option (list string))
  : M PosTagVisualizer string :=
  s <- get ;;
  counts <- attr "pos_tag_counts_" pos_tag_counts_ ;;
  if stack s then
    match y with
    | None => raise TypeError
    | Some ys =>
        match nth_error ys idx with
        | None => raise IndexError
        | Some label =>
            match dict_get label counts with
            | Some _ => ret label
            | None => raise (KeyError label)
            end
        end
    end
  else
    match dict_get "documents" counts with
    | Some _ => ret "documents"
    | None => raise (KeyError "documents")
    end.

(** [counter[key] += 1] through the reference [counter]. *)
Definition increment (counter key : string) : M PosTagVisualizer unit :=
  counts <- attr "pos_tag_counts_" pos_tag_counts_ ;;
  match dict_get counter counts with
  | None => raise (KeyError counter)
  | Some c =>
      match dict_get key c with
      | None => raise (KeyError key)
      | Some n =>
          modify (set_pos_tag_counts_
                    (dict_set counter (dict_set key (n + 1) c) counts))
      end
  end.

Definition jump : dict string :=
  [ (* combine proper and regular nouns *)
    ("NOUN", "noun"); ("PROPN", "noun");
    ("ADJ", "adjective");
    ("VERB", "verb");
    (* include particles with adverbs *)
    ("ADV", "adverb"); ("PART", "adverb");
    ("ADP", "adposition");
    ("PRON", "pronoun");
    ("CCONJ", "conjunction");
    ("PUNCT", "punctuation");
    ("DET", "determiner");
    ("NUM", "number");
    ("INTJ", "interjection");
    ("SYM", "symbol") ].

(** [jump.get(tag, "other")] *)
Definition jump_get (tag : string) : string :=
  match dict_get tag jump with
  | Some category => category
  | None => "other"
  end.

Definition _handle_universal (X : corpus) (y : option (list string))
  : M PosTagVisualizer unit :=
  for_enumerate X (fun idx tagged_doc =>
    for_each tagged_doc (fun tagged_sent =>
      for_each tagged_sent (fun '(_, tag) =>
        if (tag =? "SPACE")%string then ret tt   (* continue *)
        else
          counter <- select_counter idx y ;;
          increment counter (jump_get tag)))).

(** [a or b] on strings: the first operand unless it is empty. *)
Definition str_or (a b : string) : string :=
  match a with
  | EmptyString => b
  | _ => a
  end.

(** [x in xs] *)
Definition str_in (x : string) (xs : list string) : bool :=
  existsb (fun x' => (x' =? x)%string) xs.

Definition startswith (s p : string) : bool := String.prefix p s.

(** The branch [_handle_treebank] takes for a tag, named by the key it
    increments. *)
Definition treebank_key (tag : string) : string :=
  if startswith tag "N" then "noun"
  else if startswith tag "J" then "adjective"
  else if startswith tag "V" then "verb"
  (* include particles with adverbs *)
  else if startswith tag "RB" || (tag =? "RP")%string then "adverb"
  else if startswith tag "PR" then "pronoun"
  else if startswith tag "W" then "wh- word"
  else if (tag =? "CC")%string then "conjunction"
  else if (tag =? "CD")%string then "digit"
  (* combine predeterminer and determiner *)
  else if str_in tag [str_or "DT" "PDT"] then "determiner"
  else if (tag =? "EX")%string then "existential"
  else if (tag =? "FW")%string then "non-English"
  else if (tag =? "IN")%string then "preposition"
  else if (tag =? "POS")%string then "possessive"
  else if (tag =? "LS")%string then "list"
  else if (tag =? "MD")%string then "modal"
  else if str_in tag PUNCT_TAGS then "punctuation"
  else if (tag =? "TO")%string then "infinitive"
  else if (tag =? "UH")%string then "interjection"
  else if (tag =? "SYM")%string then "symbol"
  else "other".

Definition _handle_treebank (X : corpus) (y : option (list string))
  : M PosTagVisualizer unit :=
  for_enumerate X (fun idx tagged_doc =>
    for_each tagged_doc (fun tagged_sent =>
      for_each tagged_sent (fun '(_, tag) =>
        counter <- select_counter idx y ;;
        increment counter (treebank_key tag)))).

Section Drawing.
Context {numpy : Np.Argsort}.

(** [draw] when [pos_tag_counts_] has no group at all: [np.array([])] is
    one-dimensional, its sum along axis 0 is a scalar whose [argsort] is
    the single index 0, and column indexing is refused. *)
Definition draw_no_rows : M PosTagVisualizer Axes :=
  s <- get ;;
  (if frequency s then
     tags <- attr "_pos_tags" _pos_tags ;;
     match Np.take tags [0%nat] with
     | None => raise IndexError
     | Some tags' => modify (set_pos_tags tags') ;; raise IndexError
     end
   else ret tt) ;;
  (if stack s then
     a <- ax ;;
     labels <- attr "labels_" labels_ ;;
     ticks <- attr "_pos_tags" _pos_tags ;;
     ax_do a (bar_stack [] labels ticks (colors s) (colormap s))
   else
     _ <- attr "_pos_tags" _pos_tags ;;
     _ <- ax ;;
     raise IndexError) ;;
  ax.

Definition draw : M PosTagVisualizer Axes :=
  (* Converts nested dict to nested list *)
  counts <- attr "pos_tag_counts_" pos_tag_counts_ ;;
  let rows := map (@dict_values Z) (dict_values counts) in
  match rows with
  | [] => draw_no_rows
  | _ :: _ =>
      if negb (Np.regular rows) then raise ValueError
      else
        (* stores sum of nested list column wise *)
        let pos_tag_sum := Np.sum_axis0 rows in
        s <- get ;;
        pos_tag_counts <-
          (if frequency s then
             (* sorts the count and tags by sum for frequency true *)
             let idx := rev (Np.argsort pos_tag_sum) in
             tags <- attr "_pos_tags" _pos_tags ;;
             match Np.take tags idx with
             | None => raise IndexError
             | Some tags' =>
                 modify (set_pos_tags tags') ;;
                 match Np.take_columns rows idx with
                 | None => raise IndexError
                 | Some m => ret m
                 end
             end
           else ret rows) ;;
        (if stack s then
           a <- ax ;;
           labels <- attr "labels_" labels_ ;;
           ticks <- attr "_pos_tags" _pos_tags ;;
           ax_do a (bar_stack pos_tag_counts labels ticks (colors s) (colormap s))
         else
           tags <- attr "_pos_tags" _pos_tags ;;
           let xidx := seq 0 (List.length tags) in
           a <- ax ;;
           match pos_tag_counts with
           | [] => raise IndexError
           | row0 :: _ =>
               ax_do a (bar xidx row0 (List.length tags) (colormap s) (colors s))
           end) ;;
        ax
  end.

(** [fit]: the value returned is [self], that is the object in the state
    the call leaves it in. *)
Definition fit (X : corpus) (y : option (list string))
  : M PosTagVisualizer PosTagVisualizer :=
  modify (set_labels_ ["documents"]) ;;
  s <- get ;;
  (if stack s then
     match y with
     | None => raise (YellowbrickValueError "Specify y for stack=True")
     | Some ys => modify (set_labels_ (np_unique ys))
     end
   else ret tt) ;;
  (if (tagset s =? "penn_treebank")%string then
     m <- _penn_tag_map ;;
     modify (set_pos_tag_counts_ m) ;;
     _handle_treebank X y
   else if (tagset s =? "universal")%string then
     m <- _uni_tag_map ;;
     modify (set_pos_tag_counts_ m) ;;
     _handle_universal X y
   else ret tt) ;;
  _ <- draw ;;
  get.

(** [X] as the docstrings of [fit] and [postag] admit it: a list of
    documents, or a generator that yields them.  A list can be gone
    through any number of times; a generator hands out each document
    once, and [pending] are the documents it has yet to yield. *)
Inductive iterable : Type :=
| a_list (docs : corpus)
| a_generator (pending : corpus).

(** The documents [for idx, tagged_doc in enumerate(X)] goes through. *)
Definition yields (X : iterable) : corpus :=
  match X with
  | a_list docs => docs
  | a_generator pending => pending
  end.

(** [X] once such a loop has come to its end. *)
Definition exhausted (X : iterable) : iterable :=
  match X with
  | a_list docs => a_list docs
  | a_generator _ => a_generator []
  end.

(** [fit] on such an [X]: the value returned, with [X] as the call leaves
    it to a later one.  The only loop over [X] is the handler's; a call
    that returns has run it to its end when the tagset is one of the two,
    and has not run it otherwise.  (How far a call that raises has taken
    a generator is not recorded.) *)
Definition fit_iterable (X : iterable) (y : option (list string))
  : M PosTagVisualizer (PosTagVisualizer * iterable) :=
  s <- get ;;
  self <- fit (yields X) y ;;
  ret (self,
       if (tagset s =? "penn_treebank")%string
          || (tagset s =? "universal")%string
       then exhausted X
       else X).

(** The quick method [postag]. *)
Definition postag (X : corpus) (y : option (list string))
           (ax0 : option Axes) (tagset0 : string)
           (colormap0 colors0 : option string) (frequency0 stack0 : bool)
  : exn + Axes :=
  (* Instantiate the visualizer *)
  match __init__ ax0 tagset0 colormap0 colors0 frequency0 stack0 with
  | inl e => inl e
  | inr visualizer =>
      (* Fit and transform the visualizer (calls draw) *)
      match fit X y visualizer with
      | Raise e _ => inl e
      | Return _ visualizer' =>
          (* Return the axes object on the visualizer *)
          match ax visualizer' with
          | Return a _ => inr a
          | Raise e _ => inl e
          end
      end
  end.

End Drawing.

End PosTag.

(** *** [PosTagVisualizer.finalize] and [PosTagVisualizer.poof] *)

Module PosTagFinish.
Import Py PosTag.

(** The calls [finalize] makes to label the chart; [set_title] is the
    method of the base [Visualizer], given the title composed here. *)
Inductive label_call : Type :=
| set_ylabel (text : string)
| set_xlabel (text : string)
| set_xticks (ticks : list nat)
| set_xticklabels (labels : list string) (rotation : Z)
| set_title (text : string).

(** A visualizer together with the labelling its chart has received. *)
Record Chart : Type := {
  viz : PosTagVisualizer;
  labelling : list label_call
}.

(** A method of the visualizer, run on the visualizer of a chart. *)
Definition on_viz {A} (m : M PosTagVisualizer A) : M Chart A :=
  fun ch =>
    match m (viz ch) with
    | Return a v => Return a {| viz := v; labelling := labelling ch |}
    | Raise e v => Raise e {| viz := v; labelling := labelling ch |}
    end.

(** [self.ax.method(...)], for a labelling method: the surface is read
    (and created if absent) before the arguments are evaluated. *)
Definition label_with (argument : M Chart label_call) : M Chart unit :=
  _ <- on_viz ax ;;
  c <- argument ;;
  modify (fun ch => {| viz := viz ch; labelling := labelling ch ++ [c] |}).

(** [sum(xs)] *)
Definition py_sum (xs : list Z) : Z := fold_left Z.add xs 0.

(** ["{}".format(n)] for an integer. *)
Definition format_int (n : Z) : string :=
  DecimalString.NilZero.string_of_int (Z.to_int n).

(** [self.tagset_names[self.tagset]] *)
Definition tagset_name : M Chart string :=
  ch <- get ;;
  match dict_get (tagset (viz ch)) TAGSET_NAMES with
  | Some name => ret name
  | None => raise (KeyError (tagset (viz ch)))
  end.

(** [finalize]: finalize the plot with ticks, labels, and title. *)
Definition finalize : M Chart unit :=
  (* NOTE: not deduping here, so this is total, not unique *)
  label_with (ret (set_ylabel "Count")) ;;
  ch <- get ;;
  (if frequency (viz ch) then
     label_with (name <- tagset_name ;;
                 ret (set_xlabel
                        (name ++ " part-of-speech tags, sorted by frequency")))
   else
     label_with (name <- tagset_name ;;
                 ret (set_xlabel (name ++ " part-of-speech tags")))) ;;
  (* bar stack(helper) sets the ticks if stack is true *)
  (if negb (stack (viz ch)) then
     label_with (tags <- on_viz (attr "_pos_tags" _pos_tags) ;;
                 ret (set_xticks (seq 0 (List.length tags)))) ;;
     label_with (tags <- on_viz (attr "_pos_tags" _pos_tags) ;;
                 ret (set_xticklabels tags 90))
   else ret tt) ;;
  counts <- on_viz (attr "pos_tag_counts_" pos_tag_counts_) ;;
  let total := py_sum (map (fun i => py_sum (dict_values i))
                           (dict_values counts)) in
  modify (fun ch =>
            {| viz := viz ch;
               labelling :=
                 labelling ch
                 ++ [set_title ("PosTag plot for " ++ format_int total
                                                   ++ "-token corpus")] |}).

Section Poof.
(** Keyword values, among them Python strings; and [poof] of the base
    [Visualizer], which this method hands over to. *)
Context {V A : Type}.
Variable str : string -> V.
Variable base_poof : option string -> dict V -> M PosTagVisualizer A.

(** [kwargs.get(key, default)] *)
Definition dict_get_default (key : string) (default : V) (kwargs : dict V) : V :=
  match dict_get key kwargs with
  | Some v => v
  | None => default
  end.

Definition poof (outpath : option string) (kwargs : dict V)
  : M PosTagVisualizer A :=
  let kwargs :=
    match outpath with
    | Some _ =>
        dict_set "bbox_inches"
                 (dict_get_default "bbox_inches" (str "tight") kwargs) kwargs
    | None => kwargs
    end in
  base_poof outpath kwargs.

End Poof.

End PosTagFinish.

(* ===================================================================== *)
(** ** [yellowbrick/classifier/classification_report.py] *)
(* ===================================================================== *)

Module ClassificationReport.
Import Py.

Definition PERCENT : string := "percent".
Definition CMAP_UNDERCOLOR : string := "w".
Definition CMAP_OVERCOLOR : string := "#2a7d4f".
Definition SCORES_KEYS : list string := ["precision"; "recall"; "f1"; "support"].

(** The Python values an option such as [support] is given. *)
Inductive pyval : Type :=
| PyNone
| PyBool (b : bool)
| PyInt (n : Z)
| PyStr (s : string).

(** [a == b]; a boolean is the integer 0 or 1. *)
Definition py_eq (a b : pyval) : bool :=
  match a, b with
  | PyNone, PyNone => true
  | PyBool x, PyBool y => Bool.eqb x y
  | PyInt x, PyInt y => (x =? y)%Z
  | PyBool x, PyInt y | PyInt y, PyBool x => ((if x then 1 else 0) =? y)%Z
  | PyStr x, PyStr y => (x =? y)%string
  | _, _ => false
  end.

(** [x in {...}] *)
Definition py_in (x : pyval) (xs : list pyval) : bool :=
  existsb (py_eq x) xs.

(** [bool(x)] *)
Definition truthy (x : pyval) : bool :=
  match x with
  | PyNone => false
  | PyBool b => b
  | PyInt n => negb (n =? 0)%Z
  | PyStr s => negb (s =? "")%string
  end.

(** [str(x)] *)
Definition py_str (x : pyval) : string :=
  match x with
  | PyNone => "None"
  | PyBool true => "True"
  | PyBool false => "False"
  | PyInt n => DecimalString.NilZero.string_of_int (Z.to_int n)
  | PyStr s => s
  end.

(** [l.remove(x)]: drops the first occurrence; [None] is [ValueError]. *)
Fixpoint list_remove (x : string) (l : list string) : option (list string) :=
  match l with
  | [] => None
  | y :: rest =>
      if (y =? x)%string then Some rest
      else match list_remove x rest with
           | Some rest' => Some (y :: rest')
           | None => None
           end
  end.

(** The [is_fitted] option: [True], [False] or ["auto"]. *)
Inductive fitted_option : Type := Fitted | Unfitted | Auto.

(** What the visualizer needs from scikit-learn, numpy and the parts of
    yellowbrick it builds on, over the types of floats (numpy float64),
    feature matrices, target vectors, estimators and colormaps. *)
Class Collaborators (float Data Target Estimator Colormap : Type) : Type := {
  (* estimator.fit(X, y, **kwargs) *)
  est_fit : Estimator -> Data -> Target -> dict pyval -> exn + Estimator;
  est_predict : Estimator -> Data -> exn + Target;
  est_score : Estimator -> Data -> Target -> exn + float;
  est_classes : Estimator -> list string;
  check_fitted : Estimator -> Data -> exn + bool;
  unique_labels : Target -> list string;
  precision_recall_fscore_support :
    Target -> Target -> exn + (list float * list float * list float * list Z);
  true_divide : Z -> Z -> float;         (* count / total *)
  train_test_split :                      (* test_size, random_state *)
    Data -> Target -> Q -> option Z -> exn + (Data * Data * Target * Target);
  color_sequence : string -> exn + Colormap;
  set_over : string -> Colormap -> Colormap;
  set_under : string -> Colormap -> Colormap;
  (* ClassificationScoreVisualizer.__init__ checks the model *)
  check_classifier : Estimator -> option exn
}.

Section Visualizer.
Context {float Data Target Estimator Colormap : Type}.
Context {env : Collaborators float Data Target Estimator Colormap}.

(** The text put in a cell of the report. *)
Inductive cell_text : Type :=
| formatted (value : float)     (* "{:0.3f}".format(value) *)
| raw_count (n : Z).

(** The calls made on the drawing surface; cell centres are given by the
    cell's row and column, and colours derive from [value] and the
    colormap. *)
Inductive ax_call : Type :=
| set_ylim (bottom top : nat)
| set_xlim (left right : nat)
| text (column row : nat) (svalue : cell_text) (value : float)
| pcolormesh (n_columns n_rows : nat) (grid : list (list float)) (cmap : Colormap)
| colorbar.

Record Axes : Type := { calls : list ax_call }.

(** The surface of a process that has drawn nothing yet, as for the
    part-of-speech visualizer. *)
Definition gca : Axes := {| calls := [] |}.

Record ClassificationReport : Type := {
  estimator : Estimator;
  _ax : option Axes;
  classes : option (list string);
  is_fitted : fitted_option;
  support : pyval;
  cmap : Colormap;
  _displayed_scores : list string;
  (* attributes assigned by [fit] and [score] *)
  classes_ : option (list string);
  support_score_ : option (list Z);
  scores_ : option (dict (dict float));
  score_ : option float
}.

Definition set_ax (a : Axes) (s : ClassificationReport) :=
  {| estimator := estimator s; _ax := Some a; classes := classes s;
     is_fitted := is_fitted s; support := support s; cmap := cmap s;
     _displayed_scores := _displayed_scores s; classes_ := classes_ s;
     support_score_ := support_score_ s; scores_ := scores_ s;
     score_ := score_ s |}.

Definition set_estimator (e : Estimator) (s : ClassificationReport) :=
  {| estimator := e; _ax := _ax s; classes := classes s;
     is_fitted := is_fitted s; support := support s; cmap := cmap s;
     _displayed_scores := _displayed_scores s; classes_ := classes_ s;
     support_score_ := support_score_ s; scores_ := scores_ s;
     score_ := score_ s |}.

Definition set_classes_ (c : list string) (s : ClassificationReport) :=
  {| estimator := estimator s; _ax := _ax s; classes := classes s;
     is_fitted := is_fitted s; support := support s; cmap := cmap s;
     _displayed_scores := _displayed_scores s; classes_ := Some c;
     support_score_ := support_score_ s; scores_ := scores_ s;
     score_ := score_ s |}.

Definition set_support_score_ (c : list Z) (s : ClassificationReport) :=
  {| estimator := estimator s; _ax := _ax s; classes := classes s;
     is_fitted := is_fitted s; support := support s; cmap := cmap s;
     _displayed_scores := _displayed_scores s; classes_ := classes_ s;
     support_score_ := Some c; scores_ := scores_ s;
     score_ := score_ s |}.

Definition set_scores_ (d : dict (dict float)) (s : ClassificationReport) :=
  {| estimator := estimator s; _ax := _ax s; classes := classes s;
     is_fitted := is_fitted s; support := support s; cmap := cmap s;
     _displayed_scores := _displayed_scores s; classes_ := classes_ s;
     support_score_ := support_score_ s; scores_ := Some d;
     score_ := score_ s |}.

Definition set_score_ (x : float) (s : ClassificationReport) :=
  {| estimator := estimator s; _ax := _ax s; classes := classes s;
     is_fitted := is_fitted s; support := support s; cmap := cmap s;
     _displayed_scores := _displayed_scores s; classes_ := classes_ s;
     support_score_ := support_score_ s; scores_ := scores_ s;
     score_ := Some x |}.

(** A call into a collaborator: its exception propagates unchanged. *)
Definition call {A} (r : exn + A) : M ClassificationReport A :=
  match r with
  | inl e => raise e
  | inr a => ret a
  end.

Definition SUPPORT_OPTIONS : list pyval :=
  [PyNone; PyBool true; PyBool false; PyStr "percent"; PyStr "count"].

(** [ClassificationReport.__init__] *)
Definition __init__ (model : Estimator) (ax0 : option Axes)
           (classes0 : option (list string)) (cmap0 : string)
           (support0 : pyval) (is_fitted0 : fitted_option)
  : exn + ClassificationReport :=
  match check_classifier model with
  | Some e => inl e
  | None =>
      match color_sequence cmap0 with
      | inl e => inl e
      | inr cm =>
          let cm := set_under CMAP_UNDERCOLOR (set_over CMAP_OVERCOLOR cm) in
          let displayed := SCORES_KEYS in
          if negb (py_in support0 SUPPORT_OPTIONS) then
            inl (YellowbrickValueError
                   ("'" ++ py_str support0
                        ++ "' is an invalid argument for support, use None, True, "
                        ++ "False, 'percent', or 'count'"))
          else
            match (if negb (truthy support0)
                   then list_remove "support" displayed
                   else Some displayed) with
            | None => inl ValueError
            | Some displayed' =>
                inr {| estimator := model; _ax := ax0; classes := classes0;
                       is_fitted := is_fitted0; support := support0;
                       cmap := cm; _displayed_scores := displayed';
                       classes_ := None; support_score_ := None;
                       scores_ := None; score_ := None |}
            end
      end
  end.

(** Modelled from the spec: the [ax] property of the base [Visualizer]
    (yellowbrick/base.py is not among the sources): reading the drawing
    surface creates and caches a default one if absent. *)
Definition ax : M ClassificationReport Axes :=
  s <- get ;;
  match _ax s with
  | Some a => ret a
  | None => modify (set_ax gca) ;; ret gca
  end.

(** [self.ax.method(...)] *)
Definition ax_do (c : ax_call) : M ClassificationReport unit :=
  a <- ax ;;
  modify (set_ax {| calls := calls a ++ [c] |}).

(** Modelled from the spec: [ScoreVisualizer.fit(X, y=None, **kwargs)]
    (yellowbrick/classifier/base.py is not among the sources): the
    estimator is fitted unless it is, or is found to be, fitted already,
    and its own [fit] is handed the keyword arguments of the call, which
    are the estimator's to accept or to refuse; the class labels are the
    constructor's, else the unique values of [y], else the estimator's
    own. *)
Definition fit (X : Data) (y : option Target) (kwargs : dict pyval)
  : M ClassificationReport ClassificationReport :=
  s <- get ;;
  refit <- match is_fitted s with
           | Unfitted => ret true
           | Fitted => ret false
           | Auto => fitted <- call (check_fitted (estimator s) X) ;;
                     ret (negb fitted)
           end ;;
  (if refit : bool then
     match y with
     | Some y' => e <- call (est_fit (estimator s) X y' kwargs) ;;
                  modify (set_estimator e)
     | None => raise TypeError
     end
   else ret tt) ;;
  s <- get ;;
  modify (set_classes_
            match classes s, y with
            | Some c, _ => c
            | None, Some y' => unique_labels y'
            | None, None => est_classes (estimator s)
            end) ;;
  get.

(** [self.scores_[metric][cls]] *)
Definition lookup_score (metric cls : string) : M ClassificationReport float :=
  scores <- attr "scores_" scores_ ;;
  match dict_get metric scores with
  | None => raise (KeyError metric)
  | Some per_class =>
      match dict_get cls per_class with
      | None => raise (KeyError cls)
      | Some value => ret value
      end
  end.

(** [draw]: renders the classification report across each axis. *)
Definition draw : M ClassificationReport Axes :=
  (* Create display grid *)
  classes <- attr "classes_" classes_ ;;
  s <- get ;;
  (* For each class row, append columns for precision, recall, f1, and
     support *)
  cr_display <-
    map_m (fun cls => map_m (fun metric => lookup_score metric cls)
                            (_displayed_scores s))
          classes ;;
  (* Set up the dimensions of the pcolormesh *)
  let n_rows := List.length classes in
  let n_columns := List.length (_displayed_scores s) in
  ax_do (set_ylim 0 n_rows) ;;
  ax_do (set_xlim 0 n_columns) ;;
  (* Set data labels in the grid, enumerating over class, metric pairs *)
  for_enumerate cr_display (fun x row =>
    for_enumerate row (fun y value =>
      svalue <-
        (* change the svalue for support (when y == 3) because we want to
           label it as the actual support value, not the percentage *)
        (if Nat.eqb y 3 && negb (py_eq (support s) (PyStr PERCENT)) then
           counts <- attr "support_score_" support_score_ ;;
           match nth_error counts x with
           | None => raise IndexError
           | Some n => ret (raw_count n)
           end
         else ret (formatted value)) ;;
      (* Add the label to the middle of the grid *)
      ax_do (text y x svalue value))) ;;
  (* Draw the heatmap with colors bounded by the min and max of the grid *)
  ax_do (pcolormesh (n_columns + 1) (n_rows + 1) cr_display (cmap s)) ;;
  (* Add the color bar *)
  ax_do colorbar ;;
  (* Return the axes being drawn on *)
  ax.

Definition sum (counts : list Z) : Z := fold_left Z.add counts 0.

(** [score]: generates the Scikit-Learn classification report. *)
Definition score (X : Data) (y : Target) : M ClassificationReport float :=
  s <- get ;;
  y_pred <- call (est_predict (estimator s) X) ;;
  scores <- call (precision_recall_fscore_support y y_pred) ;;
  let '(precision, recall, f1, counts) := scores in
  (* Calculate the percentage for the support metric and store the
     percent in place of raw support counts *)
  modify (set_support_score_ counts) ;;
  let percent := map (fun n => true_divide n (sum counts)) counts in
  (* Create a mapping composed of precision, recall, F1, and support to
     their respective values *)
  classes <- attr "classes_" classes_ ;;
  let scores := map (fun values => dict_of (zip classes values))
                    [precision; recall; f1; percent] in
  modify (set_scores_ (dict_of (zip SCORES_KEYS scores))) ;;
  (* Remove support scores if not required *)
  (if negb (truthy (support s)) then
     d <- attr "scores_" scores_ ;;
     match dict_pop "support" d with
     | None => raise (KeyError "support")
     | Some d' => modify (set_scores_ d')
     end
   else ret tt) ;;
  _ <- draw ;;
  (* Retrieve and store the score attribute from the sklearn classifier *)
  s <- get ;;
  score_value <- call (est_score (estimator s) X y) ;;
  modify (set_score_ score_value) ;;
  ret score_value.

(** [**kwargs] of the quick method, as the dictionary Python collects:
    [cmap] and [support] when the caller names them, and [others], the
    further keywords, which the constructor passes to the base class. *)
Definition keywords (cmap0 : option string) (support0 : option pyval)
           (others : dict pyval) : dict pyval :=
  (match cmap0 with
   | Some c => [("cmap", PyStr c)]
   | None => []
   end
   ++ match support0 with
      | Some v => [("support", v)]
      | None => []
      end
   ++ others)%list.

(** The quick method [classification_report].  Its keyword arguments
    reach the constructor, where [cmap] and [support] have their
    defaults, and then [fit] as well. *)
Definition classification_report (model : Estimator) (X : Data) (y : Target)
           (ax0 : option Axes) (classes0 : option (list string))
           (random_state : option Z) (is_fitted0 : fitted_option)
           (cmap0 : option string) (support0 : option pyval)
           (others : dict pyval)
  : exn + ClassificationReport :=
  let kwargs := keywords cmap0 support0 others in
  (* Instantiate the visualizer *)
  match __init__ model ax0 classes0
                 match cmap0 with
                 | Some c => c
                 | None => "YlOrRd"
                 end
                 match support0 with
                 | Some v => v
                 | None => PyNone
                 end
                 is_fitted0 with
  | inl e => inl e
  | inr visualizer =>
      (* Create the train and test splits *)
      match train_test_split X y (Qmake 1 5) random_state with
      | inl e => inl e
      | inr (X_train, X_test, y_train, y_test) =>
          (* Fit and transform the visualizer (calls draw) *)
          match fit X_train (Some y_train) kwargs visualizer with
          | Raise e _ => inl e
          | Return _ visualizer1 =>
              match score X_test y_test visualizer1 with
              | Raise e _ => inl e
              | Return _ visualizer2 =>
                  (* Return the visualizer *)
                  inr visualizer2
              end
          end
      end
  end.

End Visualizer.

Arguments cell_text : clear implicits.
Arguments ax_call : clear implicits.
Arguments Axes : clear implicits.
Arguments ClassificationReport : clear implicits.

End ClassificationReport.

(** *** [ClassificationReport.finalize] *)

Module ClassificationReportFinish.
Import Py ClassificationReport.

(** The calls [finalize] makes to label the report; [set_title] is the
    method of the base [Visualizer], given the title composed here, and
    [tight_layout] is matplotlib's. *)
Inductive label_call : Type :=
| set_title (text : string)
| set_xticks (ticks : list Q)
| set_yticks (ticks : list Q)
| set_xticklabels (labels : list string) (rotation : Z)
| set_yticklabels (labels : list string)
| tight_layout.

Section Finish.
Context {float Estimator Colormap : Type}.

Local Abbreviation Report :=
  (ClassificationReport.ClassificationReport float Estimator Colormap).

(** A report together with the labelling its chart has received. *)
Record Chart : Type := {
  viz : Report;
  labelling : list label_call
}.

(** A method of the report, run on the report of a chart. *)
Definition on_viz {A} (m : M Report A) : M Chart A :=
  fun ch =>
    match m (viz ch) with
    | Return a v => Return a {| viz := v; labelling := labelling ch |}
    | Raise e v => Raise e {| viz := v; labelling := labelling ch |}
    end.

Definition add (c : label_call) (ch : Chart) : Chart :=
  {| viz := viz ch; labelling := labelling ch ++ [c] |}.

(** [self.ax.method(...)], for a labelling method: the surface is read
    (and created if absent) before the arguments are evaluated. *)
Definition label_with (argument : M Chart label_call) : M Chart unit :=
  _ <- on_viz ax ;;
  c <- argument ;;
  modify (add c).

(** [np.arange(n) + 0.5] *)
Definition centres (n : nat) : list Q :=
  map (fun i => Qmake (2 * Z.of_nat i + 1) 2) (seq 0 n).

(** [finalize]; [name] is the value of the [name] property of the base
    class, the name of the estimator. *)
Definition finalize (name : string) : M Chart unit :=
  (* Set the title of the classifiation report *)
  modify (add (set_title (name ++ " Classification Report"))) ;;
  (* Set the tick marks appropriately *)
  label_with (ch <- get ;;
              ret (set_xticks
                     (centres (List.length (_displayed_scores (viz ch)))))) ;;
  label_with (classes <- on_viz (attr "classes_" classes_) ;;
              ret (set_yticks (centres (List.length classes)))) ;;
  label_with (ch <- get ;;
              ret (set_xticklabels (_displayed_scores (viz ch)) 45)) ;;
  label_with (classes <- on_viz (attr "classes_" classes_) ;;
              ret (set_yticklabels classes)) ;;
  modify (add tight_layout).

End Finish.

Arguments Chart : clear implicits.

End ClassificationReportFinish.

(* ===================================================================== *)
(** * Properties *)
(* ===================================================================== *)

Open Scope list_scope.

(** ** Dictionaries and loops *)

Module PyFacts.
Import Py.

Lemma dict_get_set_eq {V} (k : string) (v : V) (d : dict V) :
  dict_get k (dict_set k v d) = Some v.
Proof.
  induction d as [|[k' v'] d IH]; simpl.
  - now rewrite String.eqb_refl.
  - destruct (String.eqb_spec k' k) as [->|Hne]; simpl.
    + now rewrite String.eqb_refl.
    + destruct (String.eqb_spec k' k); [contradiction | exact IH].
Qed.

Lemma dict_get_set_ne {V} (k k' : string) (v : V) (d : dict V) :
  k <> k' -> dict_get k' (dict_set k v d) = dict_get k' d.
Proof.
  intros Hne. induction d as [|[k0 v0] d IH]; simpl.
  - destruct (String.eqb_spec k k'); [contradiction | reflexivity].
  - destruct (String.eqb_spec k0 k) as [->|Hk]; simpl.
    + destruct (String.eqb_spec k k'); [contradiction | reflexivity].
    + destruct (String.eqb_spec k0 k'); [reflexivity | exact IH].
Qed.

Lemma dict_get_In_keys {V} (k : string) (d : dict V) :
  In k (dict_keys d) <-> exists v, dict_get k d = Some v.
Proof.
  induction d as [|[k' v'] d IH]; simpl.
  - split; [tauto | intros [v Hv]; discriminate].
  - destruct (String.eqb_spec k' k) as [->|Hne].
    + split; eauto.
    + rewrite <- IH. split; [intros [H|H]; [contradiction | exact H] | auto].
Qed.

Lemma dict_get_None_keys {V} (k : string) (d : dict V) :
  dict_get k d = None <-> ~ In k (dict_keys d).
Proof.
  rewrite dict_get_In_keys. destruct (dict_get k d) as [v|].
  - split; [discriminate | intros H; exfalso; apply H; eauto].
  - split; [intros _ [v Hv]; discriminate | reflexivity].
Qed.

(** Overwriting a present key keeps the keys and their order. *)
Lemma dict_keys_set_present {V} (k : string) (v : V) (d : dict V) :
  In k (dict_keys d) -> dict_keys (dict_set k v d) = dict_keys d.
Proof.
  induction d as [|[k' v'] d IH]; simpl; [tauto |].
  intros H. destruct (String.eqb_spec k' k) as [->|Hne]; simpl.
  - reflexivity.
  - f_equal. apply IH. destruct H; [contradiction | assumption].
Qed.

(** A new key goes last. *)
Lemma dict_keys_set_absent {V} (k : string) (v : V) (d : dict V) :
  ~ In k (dict_keys d) -> dict_keys (dict_set k v d) = dict_keys d ++ [k].
Proof.
  induction d as [|[k' v'] d IH]; simpl; [reflexivity |].
  intros H. destruct (String.eqb_spec k' k) as [->|Hne]; simpl.
  - exfalso; apply H; now left.
  - f_equal. apply IH. intros Hin; apply H; now right.
Qed.

Lemma dict_keys_set_In {V} (k k' : string) (v : V) (d : dict V) :
  In k' (dict_keys (dict_set k v d)) <-> k' = k \/ In k' (dict_keys d).
Proof.
  destruct (in_dec string_dec k (dict_keys d)) as [Hin|Hout].
  - rewrite dict_keys_set_present by assumption.
    split; [auto | intros [->|H]; assumption].
  - rewrite dict_keys_set_absent by assumption.
    rewrite in_app_iff. simpl. intuition.
Qed.

(** The comprehension [{k: f(k) for k in keys}], started from [d]. *)
Lemma comprehension_get_other {V} (f : string -> V) (keys : list string) :
  forall (d : dict V) (k : string),
    ~ In k keys ->
    dict_get k (fold_left (fun d k => dict_set k (f k) d) keys d) = dict_get k d.
Proof.
  induction keys as [|k0 keys IH]; simpl; intros d k Hout; [reflexivity |].
  rewrite IH by tauto. apply dict_get_set_ne. intros ->. tauto.
Qed.

Lemma comprehension_get {V} (f : string -> V) (keys : list string) :
  forall (d : dict V) (k : string),
    In k keys ->
    dict_get k (fold_left (fun d k => dict_set k (f k) d) keys d) = Some (f k).
Proof.
  induction keys as [|k0 keys IH]; simpl; intros d k Hin; [contradiction |].
  destruct (in_dec string_dec k keys) as [Hk|Hk].
  - now apply IH.
  - rewrite comprehension_get_other by assumption.
    destruct Hin as [->|Hin]; [apply dict_get_set_eq | contradiction].
Qed.

Lemma comprehension_keys {V} (f : string -> V) (keys : list string) :
  forall (d : dict V),
    NoDup keys -> (forall k, In k keys -> ~ In k (dict_keys d)) ->
    dict_keys (fold_left (fun d k => dict_set k (f k) d) keys d)
    = dict_keys d ++ keys.
Proof.
  induction keys as [|k0 keys IH]; simpl; intros d Hnd Hfresh.
  - now rewrite app_nil_r.
  - inversion Hnd as [|? ? Hk0 Hnd']; subst.
    rewrite IH; trivial.
    + rewrite dict_keys_set_absent by (apply Hfresh; now left).
      now rewrite <- app_assoc.
    + intros k Hk. rewrite dict_keys_set_In. intros [->|H]; [contradiction |].
      apply (Hfresh k); auto.
Qed.

Lemma comprehension_keys_In {V} (f : string -> V) (keys : list string) :
  forall (d : dict V) (k : string),
    In k (dict_keys (fold_left (fun d k => dict_set k (f k) d) keys d))
    <-> In k keys \/ In k (dict_keys d).
Proof.
  induction keys as [|k0 keys IH]; simpl; intros d k; [tauto |].
  rewrite IH, dict_keys_set_In. intuition.
Qed.

(** [dict(zip(keys, values))] *)
Lemma dict_of_get_other {V} (pairs : list (string * V)) :
  forall (d : dict V) (k : string),
    ~ In k (map fst pairs) ->
    dict_get k (fold_left (fun d kv => dict_set (fst kv) (snd kv) d) pairs d)
    = dict_get k d.
Proof.
  induction pairs as [|p pairs IH]; simpl; intros d k Hout; [reflexivity |].
  rewrite IH by tauto. apply dict_get_set_ne. intros Heq. apply Hout; now left.
Qed.

Lemma dict_of_keys {V} (pairs : list (string * V)) :
  forall (d : dict V),
    NoDup (map fst pairs) ->
    (forall k, In k (map fst pairs) -> ~ In k (dict_keys d)) ->
    dict_keys (fold_left (fun d kv => dict_set (fst kv) (snd kv) d) pairs d)
    = dict_keys d ++ map fst pairs.
Proof.
  induction pairs as [|p pairs IH]; simpl; intros d Hnd Hfresh.
  - now rewrite app_nil_r.
  - inversion Hnd as [|? ? Hp Hnd']; subst.
    rewrite IH; trivial.
    + rewrite dict_keys_set_absent by (apply Hfresh; now left).
      now rewrite <- app_assoc.
    + intros k Hk. rewrite dict_keys_set_In. intros [->|H]; [contradiction |].
      apply (Hfresh k); auto.
Qed.

Lemma dict_of_values {V} (pairs : list (string * V)) :
  forall (d : dict V),
    NoDup (map fst pairs) ->
    (forall k, In k (map fst pairs) -> ~ In k (dict_keys d)) ->
    dict_values (fold_left (fun d kv => dict_set (fst kv) (snd kv) d) pairs d)
    = dict_values d ++ map snd pairs.
Proof.
  assert (Hset : forall (k : string) (v : V) (d : dict V),
             ~ In k (dict_keys d) ->
             dict_values (dict_set k v d) = dict_values d ++ [v]).
  { intros k v d. induction d as [|[k' v'] d IHd]; simpl; [reflexivity |].
    intros H. destruct (String.eqb_spec k' k) as [->|Hne]; simpl.
    - exfalso; apply H; now left.
    - f_equal. apply IHd. intros Hin; apply H; now right. }
  induction pairs as [|p pairs IH]; simpl; intros d Hnd Hfresh.
  - now rewrite app_nil_r.
  - inversion Hnd as [|? ? Hp Hnd']; subst.
    rewrite IH; trivial.
    + rewrite Hset by (apply Hfresh; now left).
      now rewrite <- app_assoc.
    + intros k Hk. rewrite dict_keys_set_In. intros [->|H]; [contradiction |].
      apply (Hfresh k); auto.
Qed.

Lemma map_fst_zip {A B} (xs : list A) (ys : list B) :
  List.length xs = List.length ys -> map fst (zip xs ys) = xs.
Proof.
  revert ys. induction xs as [|x xs IH]; intros [|y ys]; simpl;
    try discriminate; trivial.
  intros H. f_equal. apply IH. now injection H.
Qed.

Lemma map_snd_zip {A B} (xs : list A) (ys : list B) :
  List.length xs = List.length ys -> map snd (zip xs ys) = ys.
Proof.
  revert ys. induction xs as [|x xs IH]; intros [|y ys]; simpl;
    try discriminate; trivial.
  intros H. f_equal. apply IH. now injection H.
Qed.

(** A dictionary built from pairs that all carry the value [v]. *)
Lemma dict_of_get_const {V} (v : V) (pairs : list (string * V)) :
  forall (d : dict V) (k : string),
    (forall p, In p pairs -> snd p = v) ->
    In k (map fst pairs) ->
    dict_get k (fold_left (fun d kv => dict_set (fst kv) (snd kv) d) pairs d)
    = Some v.
Proof.
  induction pairs as [|p pairs IH]; simpl; intros d k Hv Hin; [contradiction |].
  destruct (in_dec string_dec k (map fst pairs)) as [Hk|Hk].
  - apply IH; auto.
  - rewrite dict_of_get_other by assumption.
    destruct Hin as [<-|Hin]; [| contradiction].
    rewrite (Hv p) by now left. apply dict_get_set_eq.
Qed.

End PyFacts.

(* ===================================================================== *)
(** ** Part-of-speech visualizer: the tag map *)
(* ===================================================================== *)

Module PosTagFacts.
Import Py PyFacts PosTag.

(** The counter every label starts with: [dict(zip(tagset, zeros))]. *)
Definition zero_counter (tags : list string) : dict Z :=
  dict_of (zip tags (repeat 0 (List.length tags))).

Lemma dict_of_keys_In {V} (pairs : list (string * V)) :
  forall (d : dict V) (k : string),
    In k (dict_keys (fold_left (fun d kv => dict_set (fst kv) (snd kv) d) pairs d))
    <-> In k (map fst pairs) \/ In k (dict_keys d).
Proof.
  induction pairs as [|p pairs IH]; simpl; intros d k; [tauto |].
  rewrite IH, dict_keys_set_In. intuition.
Qed.

Lemma zip_zeros_fst (tags : list string) :
  map fst (zip tags (repeat 0 (List.length tags))) = tags.
Proof. apply map_fst_zip. now rewrite repeat_length. Qed.

Lemma zero_counter_keys_In (tags : list string) (k : string) :
  In k (dict_keys (zero_counter tags)) <-> In k tags.
Proof.
  unfold zero_counter, dict_of. rewrite dict_of_keys_In, zip_zeros_fst.
  simpl. tauto.
Qed.

Lemma zero_counter_keys (tags : list string) :
  NoDup tags -> dict_keys (zero_counter tags) = tags.
Proof.
  intros Hnd. unfold zero_counter, dict_of.
  rewrite dict_of_keys; rewrite zip_zeros_fst; auto.
Qed.

Lemma zero_counter_values (tags : list string) :
  NoDup tags ->
  dict_values (zero_counter tags) = repeat 0 (List.length tags).
Proof.
  intros Hnd. unfold zero_counter, dict_of.
  rewrite dict_of_values; try rewrite zip_zeros_fst; auto.
  simpl. apply map_snd_zip. now rewrite repeat_length.
Qed.

Lemma zero_counter_get (tags : list string) (tag : string) :
  In tag tags -> dict_get tag (zero_counter tags) = Some 0.
Proof.
  intros Hin. unfold zero_counter, dict_of.
  apply dict_of_get_const.
  - intros [k v] Hp. apply in_combine_r in Hp. simpl.
    now apply repeat_spec in Hp.
  - now rewrite zip_zeros_fst.
Qed.

(** What [_make_tag_map] computes, whatever else the object holds. *)
Lemma make_tag_map_eq (s : PosTagVisualizer) (tags labels : list string) :
  labels_ s = Some labels ->
  _make_tag_map tags s
  = Return (dict_comprehension labels (fun _ => zero_counter tags)) s.
Proof.
  intros H. unfold _make_tag_map, bind, attr, ret. now rewrite H.
Qed.

(** C2. For every visualizer (whatever its [stack] flag) and every
    tagset, [_make_tag_map] returns, without touching the object, a
    dictionary whose keys are the labels in [labels_] and which maps each
    label to a dictionary whose keys are the tags of the tagset, every one
    of them at count zero.  The embedding has the single return the code
    executes. *)
Theorem make_tag_map_zero_counters :
  forall (s : PosTagVisualizer) (tags labels : list string),
    labels_ s = Some labels ->
    exists m : dict (dict Z),
      _make_tag_map tags s = Return m s /\
      (forall label, In label (dict_keys m) <-> In label labels) /\
      (forall label, In label labels ->
         exists counter : dict Z,
           dict_get label m = Some counter /\
           (forall tag, In tag (dict_keys counter) <-> In tag tags) /\
           (forall tag, In tag tags -> dict_get tag counter = Some 0)).
Proof.
  intros s tags labels Hl.
  exists (dict_comprehension labels (fun _ => zero_counter tags)).
  split; [now apply make_tag_map_eq |]. split.
  - intros label. unfold dict_comprehension.
    rewrite comprehension_keys_In. simpl. tauto.
  - intros label Hin. exists (zero_counter tags). split; [| split].
    + unfold dict_comprehension.
      now rewrite (comprehension_get (fun _ => zero_counter tags)).
    + intros tag. apply zero_counter_keys_In.
    + intros tag. apply zero_counter_get.
Qed.

(** A visualizer in stacking mode whose labels are two classes. *)
Definition stacked_example : PosTagVisualizer :=
  {| _ax := None; tagset := "universal"; frequency := false;
     colormap := None; colors := None; stack := true;
     labels_ := Some ["neg"; "pos"]; _pos_tags := None;
     pos_tag_counts_ := None |}.

Lemma make_tag_map_zero_counters_witness :
  exists m : dict (dict Z),
    _make_tag_map UNIVERSAL_TAGS stacked_example = Return m stacked_example /\
    (forall label, In label (dict_keys m) <-> In label ["neg"; "pos"]) /\
    (forall label, In label ["neg"; "pos"] ->
       exists counter : dict Z,
         dict_get label m = Some counter /\
         (forall tag, In tag (dict_keys counter) <-> In tag UNIVERSAL_TAGS) /\
         (forall tag, In tag UNIVERSAL_TAGS -> dict_get tag counter = Some 0)).
Proof.
  apply (make_tag_map_zero_counters stacked_example UNIVERSAL_TAGS).
  reflexivity.
Defined.

(* ===================================================================== *)
(** ** Part-of-speech visualizer: the counting loops *)
(* ===================================================================== *)

(** Two computations that agree on every state. *)
Definition meq {St A} (m1 m2 : M St A) : Prop := forall s, m1 s = m2 s.

Lemma bind_meq {St A B} (m1 m2 : M St A) (k1 k2 : A -> M St B) :
  meq m1 m2 -> (forall a, meq (k1 a) (k2 a)) -> meq (bind m1 k1) (bind m2 k2).
Proof.
  intros Hm Hk s. unfold bind. rewrite Hm.
  destruct (m2 s); [apply Hk | reflexivity].
Qed.

Lemma for_each_meq {St A} (f g : A -> M St unit) (xs : list A) :
  (forall x, meq (f x) (g x)) -> meq (for_each xs f) (for_each xs g).
Proof.
  intros H. induction xs as [|x xs IH]; simpl; [intros s; reflexivity |].
  apply bind_meq; [apply H | intros _; exact IH].
Qed.

Lemma for_each_app {St A} (f : A -> M St unit) (xs ys : list A) :
  meq (for_each (xs ++ ys) f) (for_each xs f ;; for_each ys f).
Proof.
  induction xs as [|x xs IH]; simpl; intros s.
  - reflexivity.
  - unfold meq, bind in *. destruct (f x s) as [[] s'|e s']; [| reflexivity].
    apply IH.
Qed.

Lemma for_each_map {St A B} (h : A -> B) (f : B -> M St unit) (xs : list A) :
  meq (for_each (map h xs) f) (for_each xs (fun x => f (h x))).
Proof.
  induction xs as [|x xs IH]; simpl; intros s; [reflexivity |].
  unfold bind. destruct (f (h x) s); [apply IH | reflexivity].
Qed.

Lemma for_each_concat {St A} (f : A -> M St unit) (xss : list (list A)) :
  meq (for_each xss (fun xs => for_each xs f)) (for_each (List.concat xss) f).
Proof.
  induction xss as [|xs xss IH]; simpl; intros s; [reflexivity |].
  rewrite for_each_app. unfold bind.
  destruct (for_each xs f s); [apply IH | reflexivity].
Qed.

(** The tags of a document, in reading order. *)
Definition doc_tags (d : document) : list string := map snd (List.concat d).

(** The tags of a corpus, each with the index of its document. *)
Fixpoint corpus_tokens_from (i : nat) (X : corpus) : list (nat * string) :=
  match X with
  | [] => []
  | d :: rest => map (pair i) (doc_tags d) ++ corpus_tokens_from (S i) rest
  end.

Definition corpus_tokens (X : corpus) : list (nat * string) :=
  corpus_tokens_from 0 X.

(** The three nested loops of a handler visit the tokens of the corpus
    from first to last. *)
Lemma nested_loops_tokens {St} (body : nat -> string -> M St unit) (X : corpus) :
  forall i,
    meq (for_enumerate_from i X (fun idx tagged_doc =>
           for_each tagged_doc (fun tagged_sent =>
             for_each tagged_sent (fun '(_, tag) => body idx tag))))
        (for_each (corpus_tokens_from i X) (fun tok => body (fst tok) (snd tok))).
Proof.
  induction X as [|d X IH]; simpl; intros i s; [reflexivity |].
  rewrite for_each_app. unfold bind at 1 2.
  assert (Hd : meq (for_each d (fun tagged_sent =>
                      for_each tagged_sent (fun '(_, tag) => body i tag)))
                   (for_each (map (pair i) (doc_tags d))
                             (fun tok => body (fst tok) (snd tok)))).
  { intros s0. rewrite for_each_map. simpl. unfold doc_tags.
    rewrite for_each_map. rewrite <- for_each_concat.
    apply for_each_meq. intros sent s1.
    apply for_each_meq. now intros [token tag]. }
  rewrite Hd. destruct (for_each (map (pair i) (doc_tags d)) _ s);
    [apply IH | reflexivity].
Qed.

(** *** The handlers, read as functions of the counters *)

Definition select_pure (stack0 : bool) (y : option (list string)) (idx : nat)
           (c : dict (dict Z)) : exn + string :=
  if stack0 then
    match y with
    | None => inl TypeError
    | Some ys =>
        match nth_error ys idx with
        | None => inl IndexError
        | Some label =>
            match dict_get label c with
            | Some _ => inr label
            | None => inl (KeyError label)
            end
        end
    end
  else
    match dict_get "documents" c with
    | Some _ => inr "documents"
    | None => inl (KeyError "documents")
    end.

Definition increment_pure (counter key : string) (c : dict (dict Z))
  : exn + dict (dict Z) :=
  match dict_get counter c with
  | None => inl (KeyError counter)
  | Some cn =>
      match dict_get key cn with
      | None => inl (KeyError key)
      | Some n => inr (dict_set counter (dict_set key (n + 1) cn) c)
      end
  end.

(** One token: [keyfn] gives the key to increment, or [None] for a token
    that is passed over. *)
Definition token_pure (keyfn : string -> option string) (stack0 : bool)
           (y : option (list string)) (tok : nat * string) (c : dict (dict Z))
  : exn + dict (dict Z) :=
  match keyfn (snd tok) with
  | None => inr c
  | Some key =>
      match select_pure stack0 y (fst tok) c with
      | inl e => inl e
      | inr counter => increment_pure counter key c
      end
  end.

(** A loop that stops at the first exception, keeping the counters as
    they were at that point. *)
Fixpoint run_pure {A} (step : A -> dict (dict Z) -> exn + dict (dict Z))
         (xs : list A) (c : dict (dict Z)) : exn * dict (dict Z) + dict (dict Z) :=
  match xs with
  | [] => inr c
  | x :: rest =>
      match step x c with
      | inl e => inl (e, c)
      | inr c' => run_pure step rest c'
      end
  end.

Definition with_counts (r : exn * dict (dict Z) + dict (dict Z))
           (s : PosTagVisualizer) : outcome PosTagVisualizer unit :=
  match r with
  | inr c => Return tt (set_pos_tag_counts_ c s)
  | inl (e, c) => Raise e (set_pos_tag_counts_ c s)
  end.

Definition treebank_keyfn (tag : string) : option string :=
  Some (treebank_key tag).

Definition universal_keyfn (tag : string) : option string :=
  if (tag =? "SPACE")%string then None else Some (jump_get tag).

Lemma set_counts_same (s : PosTagVisualizer) (c : dict (dict Z)) :
  pos_tag_counts_ s = Some c -> set_pos_tag_counts_ c s = s.
Proof. destruct s; simpl; intros ->; reflexivity. Qed.

Lemma set_counts_twice (s : PosTagVisualizer) (c c' : dict (dict Z)) :
  set_pos_tag_counts_ c' (set_pos_tag_counts_ c s) = set_pos_tag_counts_ c' s.
Proof. reflexivity. Qed.

(** What a handler does with one token. *)
Definition token_step (keyfn : string -> option string)
           (y : option (list string)) (tok : nat * string)
  : M PosTagVisualizer unit :=
  match keyfn (snd tok) with
  | None => ret tt
  | Some key => counter <- select_counter (fst tok) y ;; increment counter key
  end.

Lemma token_step_pure (keyfn : string -> option string)
      (y : option (list string)) (tok : nat * string)
      (s : PosTagVisualizer) (c : dict (dict Z)) :
  pos_tag_counts_ s = Some c ->
  token_step keyfn y tok s
  = match token_pure keyfn (stack s) y tok c with
    | inr c' => Return tt (set_pos_tag_counts_ c' s)
    | inl e => Raise e s
    end.
Proof.
  intros Hc. unfold token_step, token_pure.
  destruct (keyfn (snd tok)) as [key|].
  - unfold select_counter, select_pure, increment, increment_pure,
      bind, get, attr, ret, raise, modify.
    rewrite Hc. destruct (stack s).
    + destruct y as [ys|]; [| reflexivity].
      destruct (nth_error ys (fst tok)) as [label|]; [| reflexivity].
      destruct (dict_get label c) as [cn|] eqn:Hl; [| reflexivity].
      rewrite Hc, Hl. destruct (dict_get key cn); reflexivity.
    + destruct (dict_get "documents" c) as [cn|] eqn:Hl; [| reflexivity].
      rewrite Hc, Hl. destruct (dict_get key cn); reflexivity.
  - unfold ret. now rewrite set_counts_same.
Qed.

Lemma loop_pure (keyfn : string -> option string) (y : option (list string))
      (toks : list (nat * string)) :
  forall (s : PosTagVisualizer) (c : dict (dict Z)),
    pos_tag_counts_ s = Some c ->
    for_each toks (token_step keyfn y) s
    = with_counts (run_pure (token_pure keyfn (stack s) y) toks c) s.
Proof.
  induction toks as [|tok toks IH]; simpl; intros s c Hc.
  - unfold ret. now rewrite set_counts_same.
  - unfold bind. rewrite (token_step_pure keyfn y tok s Hc).
    destruct (token_pure keyfn (stack s) y tok c) as [e|c']; simpl.
    + now rewrite set_counts_same.
    + rewrite (IH (set_pos_tag_counts_ c' s) c') by reflexivity.
      simpl. destruct (run_pure _ toks c') as [[e c'']|c'']; reflexivity.
Qed.

(** [_handle_treebank] and [_handle_universal] change nothing but the
    counters, and change them as [run_pure] says. *)
Lemma handle_treebank_pure (X : corpus) (y : option (list string))
      (s : PosTagVisualizer) (c : dict (dict Z)) :
  pos_tag_counts_ s = Some c ->
  _handle_treebank X y s
  = with_counts (run_pure (token_pure treebank_keyfn (stack s) y)
                          (corpus_tokens X) c) s.
Proof.
  intros Hc. unfold _handle_treebank, for_enumerate.
  rewrite (nested_loops_tokens
             (fun idx tag => counter <- select_counter idx y ;;
                             increment counter (treebank_key tag))).
  rewrite <- (loop_pure treebank_keyfn y (corpus_tokens X) s Hc).
  apply for_each_meq. intros tok s0. reflexivity.
Qed.

Lemma handle_universal_pure (X : corpus) (y : option (list string))
      (s : PosTagVisualizer) (c : dict (dict Z)) :
  pos_tag_counts_ s = Some c ->
  _handle_universal X y s
  = with_counts (run_pure (token_pure universal_keyfn (stack s) y)
                          (corpus_tokens X) c) s.
Proof.
  intros Hc. unfold _handle_universal, for_enumerate.
  rewrite (nested_loops_tokens
             (fun idx tag =>
                if (tag =? "SPACE")%string then ret tt
                else counter <- select_counter idx y ;;
                     increment counter (jump_get tag))).
  rewrite <- (loop_pure universal_keyfn y (corpus_tokens X) s Hc).
  apply for_each_meq. intros tok s0. unfold token_step, universal_keyfn.
  now destruct (snd tok =? "SPACE")%string.
Qed.

(** *** What the counters hold after a run *)

(** The count stored for [key] in the counter of [label]. *)
Definition count_at (c : dict (dict Z)) (label key : string) : option Z :=
  match dict_get label c with
  | Some cn => dict_get key cn
  | None => None
  end.

(** The group a document is counted in: [y[idx]] when stacking, else
    ["documents"]. *)
Definition doc_label (stack0 : bool) (y : option (list string)) (idx : nat)
  : option string :=
  if stack0 then
    match y with
    | Some ys => nth_error ys idx
    | None => None
    end
  else Some "documents".

(** Whether a token is one of group [label] that increments [key]. *)
Definition hit (keyfn : string -> option string) (stack0 : bool)
           (y : option (list string)) (label key : string)
           (tok : nat * string) : bool :=
  match keyfn (snd tok), doc_label stack0 y (fst tok) with
  | Some k, Some l => (k =? key)%string && (l =? label)%string
  | _, _ => false
  end.

Definition hits (keyfn : string -> option string) (stack0 : bool)
           (y : option (list string)) (label key : string)
           (toks : list (nat * string)) : nat :=
  List.length (filter (hit keyfn stack0 y label key) toks).

(** The keys of the outer and of every inner dictionary, in order. *)
Definition keyed (labels tags : list string) (c : dict (dict Z)) : Prop :=
  dict_keys c = labels /\
  forall cn, In cn (dict_values c) -> dict_keys cn = tags.

Lemma dict_get_In_values {V} (k : string) (v : V) (d : dict V) :
  dict_get k d = Some v -> In v (dict_values d).
Proof.
  induction d as [|[k' v'] d IH]; simpl; [discriminate |].
  destruct (k' =? k)%string; [intros [= ->]; now left | auto].
Qed.

Lemma dict_values_set_In {V} (k : string) (v v' : V) (d : dict V) :
  In v' (dict_values (dict_set k v d)) -> v' = v \/ In v' (dict_values d).
Proof.
  induction d as [|[k0 v0] d IH]; simpl.
  - intros [<-|[]]. now left.
  - destruct (k0 =? k)%string; simpl.
    + intros [<-|H]; auto.
    + intros [<-|H]; auto. destruct (IH H); auto.
Qed.

Lemma select_pure_label (st : bool) (y : option (list string)) (idx : nat)
      (c : dict (dict Z)) (l : string) :
  select_pure st y idx c = inr l ->
  doc_label st y idx = Some l /\ In l (dict_keys c).
Proof.
  unfold select_pure, doc_label. destruct st.
  - destruct y as [ys|]; [| discriminate].
    destruct (nth_error ys idx) as [l'|]; [| discriminate].
    destruct (dict_get l' c) eqn:Hl; [| discriminate].
    intros [= <-]. split; [reflexivity |]. apply dict_get_In_keys; eauto.
  - destruct (dict_get "documents" c) eqn:Hl; [| discriminate].
    intros [= <-]. split; [reflexivity |]. apply dict_get_In_keys; eauto.
Qed.

Lemma select_pure_ok (st : bool) (y : option (list string)) (idx : nat)
      (c : dict (dict Z)) (l : string) :
  doc_label st y idx = Some l -> In l (dict_keys c) ->
  select_pure st y idx c = inr l.
Proof.
  unfold select_pure, doc_label. intros Hl Hin.
  apply dict_get_In_keys in Hin. destruct Hin as [cn Hcn].
  destruct st.
  - destruct y as [ys|]; [| discriminate]. rewrite Hl. now rewrite Hcn.
  - injection Hl as <-. now rewrite Hcn.
Qed.

Lemma increment_pure_count (l k : string) (c c' : dict (dict Z)) :
  increment_pure l k c = inr c' ->
  forall l' k',
    count_at c' l' k'
    = option_map (fun n => n + (if (k =? k')%string && (l =? l')%string
                                then 1 else 0))
                 (count_at c l' k').
Proof.
  unfold increment_pure. destruct (dict_get l c) as [cn|] eqn:Hl; [| discriminate].
  destruct (dict_get k cn) as [n|] eqn:Hk; [| discriminate].
  intros [= <-] l' k'. unfold count_at.
  destruct (String.eqb_spec l l') as [<-|Hne].
  - rewrite dict_get_set_eq, Hl.
    destruct (String.eqb_spec k k') as [<-|Hk'].
    + rewrite dict_get_set_eq, Hk. reflexivity.
    + rewrite dict_get_set_ne by assumption. simpl.
      destruct (dict_get k' cn); simpl; [f_equal; lia | reflexivity].
  - rewrite dict_get_set_ne by assumption. rewrite andb_false_r.
    destruct (dict_get l' c) as [cn'|]; [| reflexivity].
    destruct (dict_get k' cn'); simpl; [f_equal; lia | reflexivity].
Qed.

Lemma increment_pure_keyed (labels tags : list string) (l k : string)
      (c c' : dict (dict Z)) :
  increment_pure l k c = inr c' -> keyed labels tags c -> keyed labels tags c'.
Proof.
  unfold increment_pure. destruct (dict_get l c) as [cn|] eqn:Hl; [| discriminate].
  destruct (dict_get k cn) as [n|] eqn:Hk; [| discriminate].
  intros [= <-] [Hkeys Hin]. split.
  - rewrite dict_keys_set_present; [assumption |].
    apply dict_get_In_keys; eauto.
  - intros cn' Hcn'. apply dict_values_set_In in Hcn'.
    destruct Hcn' as [->|Hcn']; [| now apply Hin].
    rewrite dict_keys_set_present.
    + apply Hin. eapply dict_get_In_values; eauto.
    + apply dict_get_In_keys; eauto.
Qed.

Lemma increment_pure_ok (labels tags : list string) (l k : string)
      (c : dict (dict Z)) :
  keyed labels tags c -> In l labels -> In k tags ->
  exists c', increment_pure l k c = inr c'.
Proof.
  intros [Hkeys Hin] Hl Hk. unfold increment_pure.
  rewrite <- Hkeys in Hl. apply dict_get_In_keys in Hl. destruct Hl as [cn Hcn].
  rewrite Hcn. rewrite <- (Hin cn (dict_get_In_values _ _ Hcn)) in Hk.
  apply dict_get_In_keys in Hk. destruct Hk as [n Hn]. rewrite Hn. eauto.
Qed.

Lemma token_pure_count (keyfn : string -> option string) (st : bool)
      (y : option (list string)) (tok : nat * string) (c c' : dict (dict Z)) :
  token_pure keyfn st y tok c = inr c' ->
  forall l k,
    count_at c' l k
    = option_map (fun n => n + (if hit keyfn st y l k tok then 1 else 0))
                 (count_at c l k).
Proof.
  unfold token_pure, hit. destruct (keyfn (snd tok)) as [key|].
  - destruct (select_pure st y (fst tok) c) as [e|l0] eqn:Hs; [discriminate |].
    apply select_pure_label in Hs. destruct Hs as [-> _].
    intros Hi l k. apply (increment_pure_count _ _ _ Hi).
  - intros [= <-] l k. destruct (count_at c l k); simpl; [f_equal; lia | reflexivity].
Qed.

Lemma token_pure_keyed (keyfn : string -> option string) (st : bool)
      (y : option (list string)) (tok : nat * string) (c c' : dict (dict Z))
      (labels tags : list string) :
  token_pure keyfn st y tok c = inr c' ->
  keyed labels tags c -> keyed labels tags c'.
Proof.
  unfold token_pure. destruct (keyfn (snd tok)) as [key|].
  - destruct (select_pure st y (fst tok) c) as [e|l0]; [discriminate |].
    apply increment_pure_keyed.
  - now intros [= <-].
Qed.

(** A run keeps the keys, whether it ends or stops on an exception. *)
Lemma run_pure_keyed (keyfn : string -> option string) (st : bool)
      (y : option (list string)) (labels tags : list string)
      (toks : list (nat * string)) :
  forall c, keyed labels tags c ->
    match run_pure (token_pure keyfn st y) toks c with
    | inr c' => keyed labels tags c'
    | inl (_, c') => keyed labels tags c'
    end.
Proof.
  induction toks as [|tok toks IH]; simpl; intros c Hk; [assumption |].
  destruct (token_pure keyfn st y tok c) as [e|c'] eqn:Ht; [assumption |].
  apply IH. eapply token_pure_keyed; eauto.
Qed.

(** After a run that ends, each count has grown by the number of tokens
    of its group that map to its key. *)
Lemma run_pure_count (keyfn : string -> option string) (st : bool)
      (y : option (list string)) (toks : list (nat * string)) :
  forall c c', run_pure (token_pure keyfn st y) toks c = inr c' ->
    forall l k,
      count_at c' l k
      = option_map (fun n => n + Z.of_nat (hits keyfn st y l k toks))
                   (count_at c l k).
Proof.
  induction toks as [|tok toks IH]; simpl; intros c c' Hr l k.
  - injection Hr as <-. unfold hits. simpl.
    destruct (count_at c l k); simpl; [f_equal; lia | reflexivity].
  - destruct (token_pure keyfn st y tok c) as [e|c1] eqn:Ht; [discriminate |].
    rewrite (IH _ _ Hr), (token_pure_count _ _ _ _ _ Ht).
    unfold hits. simpl.
    destruct (count_at c l k); simpl; [| reflexivity].
    f_equal. destruct (hit keyfn st y l k tok); simpl List.length; lia.
Qed.

(** A run ends when every counted token has a group among the labels and
    a key among the tags. *)
Lemma run_pure_ok (keyfn : string -> option string) (st : bool)
      (y : option (list string)) (labels tags : list string)
      (toks : list (nat * string)) :
  forall c, keyed labels tags c ->
    (forall tok k, In tok toks -> keyfn (snd tok) = Some k ->
       In k tags /\
       exists l, doc_label st y (fst tok) = Some l /\ In l labels) ->
    exists c', run_pure (token_pure keyfn st y) toks c = inr c'.
Proof.
  induction toks as [|tok toks IH]; simpl; intros c Hk Hok; [eauto |].
  assert (Ht : exists c1, token_pure keyfn st y tok c = inr c1).
  { unfold token_pure. destruct (keyfn (snd tok)) as [key|] eqn:Hkey; [| eauto].
    destruct (Hok tok key (or_introl eq_refl) Hkey) as [Htag [l [Hl Hin]]].
    rewrite (select_pure_ok st y (fst tok) c Hl)
      by (destruct Hk as [-> _]; assumption).
    eapply increment_pure_ok; eauto. }
  destruct Ht as [c1 Ht]. rewrite Ht. apply IH.
  - eapply token_pure_keyed; eauto.
  - intros tok' k' Hin. apply Hok. now right.
Qed.

(** *** The keys the two handlers increment *)

Ltac branches :=
  repeat match goal with
         | |- context [if ?b then _ else _] => destruct b eqn:?
         end.

Lemma treebank_key_in_tags (tag : string) : In (treebank_key tag) PENN_TAGS.
Proof. unfold treebank_key. branches; simpl; tauto. Qed.

Lemma treebank_key_determiner (tag : string) :
  treebank_key tag = "determiner" <-> tag = "DT".
Proof.
  split.
  - unfold treebank_key. branches; try discriminate. intros _.
    match goal with
    | H : str_in tag _ = true |- _ =>
        unfold str_in, existsb, str_or in H;
        rewrite orb_false_r in H; apply String.eqb_eq in H
    end.
    congruence.
  - intros ->. reflexivity.
Qed.

Lemma jump_get_in_tags (tag : string) : In (jump_get tag) UNIVERSAL_TAGS.
Proof. unfold jump_get, jump. simpl. branches; simpl; tauto. Qed.

Lemma jump_get_other (tag : string) :
  jump_get tag = "other" <-> dict_get tag jump = None.
Proof.
  unfold jump_get, jump. simpl. branches; split; congruence.
Qed.

(** The number of tokens of group [label] whose tag satisfies [p]. *)
Definition group_count (p : string -> bool) (stack0 : bool)
           (y : option (list string)) (label : string) (X : corpus) : nat :=
  List.length
    (filter (fun tok =>
               p (snd tok) &&
               match doc_label stack0 y (fst tok) with
               | Some l => (l =? label)%string
               | None => false
               end)
            (corpus_tokens X)).

Lemma hits_group_count (keyfn : string -> option string) (p : string -> bool)
      (st : bool) (y : option (list string)) (label key : string) (X : corpus) :
  (forall tag, p tag = match keyfn tag with
                       | Some k => (k =? key)%string
                       | None => false
                       end) ->
  hits keyfn st y label key (corpus_tokens X) = group_count p st y label X.
Proof.
  intros Hp. unfold hits, group_count. f_equal. apply filter_ext.
  intros tok. unfold hit. rewrite Hp.
  destruct (keyfn (snd tok)); [| reflexivity].
  destruct (doc_label st y (fst tok)); [reflexivity | now rewrite andb_false_r].
Qed.

Lemma with_counts_return (r : exn * dict (dict Z) + dict (dict Z))
      (s s' : PosTagVisualizer) :
  with_counts r s = Return tt s' ->
  exists c', r = inr c' /\ s' = set_pos_tag_counts_ c' s.
Proof.
  destruct r as [[e c']|c']; simpl; [discriminate |].
  intros [= <-]. eauto.
Qed.

(** C3. [_handle_treebank] sends a tag to the "determiner" counter exactly
    when the tag is "DT"; the tag "PDT" takes the last branch, "other".
    Hence, for every corpus the handler gets through, the "determiner"
    count of a group grows by the number of the group's tokens tagged
    "DT", and its "other" count by the number of its tokens that reach
    the last branch, those tagged "PDT" among them. *)
Theorem treebank_PDT_counts_as_other :
  forall (s s' : PosTagVisualizer) (X : corpus) (y : option (list string))
         (c : dict (dict Z)),
    pos_tag_counts_ s = Some c ->
    _handle_treebank X y s = Return tt s' ->
    (forall tag, treebank_key tag = "determiner" <-> tag = "DT") /\
    treebank_key "PDT" = "other" /\
    exists c', pos_tag_counts_ s' = Some c' /\
      forall label,
        count_at c' label "determiner"
        = option_map
            (fun n => n + Z.of_nat (group_count (String.eqb "DT")
                                                (stack s) y label X))
            (count_at c label "determiner") /\
        count_at c' label "other"
        = option_map
            (fun n => n + Z.of_nat
                            (group_count
                               (fun tag => (treebank_key tag =? "other")%string)
                               (stack s) y label X))
            (count_at c label "other").
Proof.
  intros s s' X y c Hc Hrun.
  split; [exact treebank_key_determiner |]. split; [reflexivity |].
  rewrite (handle_treebank_pure X y s Hc) in Hrun.
  apply with_counts_return in Hrun. destruct Hrun as [c' [Hr ->]].
  exists c'. split; [reflexivity |]. intros label. split.
  - rewrite (run_pure_count _ _ _ _ _ Hr).
    rewrite (hits_group_count treebank_keyfn (String.eqb "DT")); [reflexivity |].
    intros tag. unfold treebank_keyfn.
    destruct (String.eqb_spec "DT" tag) as [<-|Hne]; [reflexivity |].
    symmetry. apply String.eqb_neq. rewrite treebank_key_determiner. congruence.
  - rewrite (run_pure_count _ _ _ _ _ Hr).
    now rewrite (hits_group_count treebank_keyfn
                   (fun tag => (treebank_key tag =? "other")%string)).
Qed.

(** A visualizer about to count a Penn Treebank corpus without stacking. *)
Definition treebank_example : PosTagVisualizer :=
  {| _ax := None; tagset := "penn_treebank"; frequency := false;
     colormap := None; colors := None; stack := false;
     labels_ := Some ["documents"]; _pos_tags := Some PENN_TAGS;
     pos_tag_counts_ := Some [("documents", zero_counter PENN_TAGS)] |}.

Definition treebank_corpus : corpus :=
  [[[("all", "PDT"); ("the", "DT"); ("dogs", "NNS"); ("bark", "VBP")]]].

Lemma treebank_PDT_counts_as_other_witness :
  let s := treebank_example in
  let s' := final_state (_handle_treebank treebank_corpus None s) in
  let c := [("documents", zero_counter PENN_TAGS)] in
  (forall tag, treebank_key tag = "determiner" <-> tag = "DT") /\
  treebank_key "PDT" = "other" /\
  exists c', pos_tag_counts_ s' = Some c' /\
    forall label,
      count_at c' label "determiner"
      = option_map
          (fun n => n + Z.of_nat (group_count (String.eqb "DT")
                                              (stack s) None label
                                              treebank_corpus))
          (count_at c label "determiner") /\
      count_at c' label "other"
      = option_map
          (fun n => n + Z.of_nat
                          (group_count
                             (fun tag => (treebank_key tag =? "other")%string)
                             (stack s) None label treebank_corpus))
          (count_at c label "other").
Proof.
  intros s s' c.
  apply (@treebank_PDT_counts_as_other s s' treebank_corpus None c).
  - reflexivity.
  - vm_compute. reflexivity.
Defined.

Example treebank_corpus_counts :
  match pos_tag_counts_ (final_state (_handle_treebank treebank_corpus None
                                                       treebank_example)) with
  | Some c => (count_at c "documents" "determiner",
               count_at c "documents" "other",
               count_at c "documents" "noun")
  | None => (None, None, None)
  end = (Some 1, Some 1, Some 1).
Proof. vm_compute. reflexivity. Qed.

(** A visualizer about to count a Universal Dependencies corpus without
    stacking. *)
Definition universal_example : PosTagVisualizer :=
  {| _ax := None; tagset := "universal"; frequency := false;
     colormap := None; colors := None; stack := false;
     labels_ := Some ["documents"]; _pos_tags := Some UNIVERSAL_TAGS;
     pos_tag_counts_ := Some [("documents", zero_counter UNIVERSAL_TAGS)] |}.

(** C4, as stated, fails: the tag "SPACE" is not in the lookup table, yet
    a token carrying it is passed over, and "other" stays at zero. *)
Lemma universal_SPACE_is_dropped :
  dict_get "SPACE" jump = None /\
  _handle_universal [[[(" ", "SPACE")]]] None universal_example
  = Return tt universal_example /\
  option_map (fun c => count_at c "documents" "other")
             (pos_tag_counts_ universal_example) = Some (Some 0).
Proof. vm_compute. repeat split. Qed.

(** The tags the universal handler counts under [key]. *)
Definition universal_counts_as (key tag : string) : bool :=
  negb (tag =? "SPACE")%string && (jump_get tag =? key)%string.

(** The tags that are neither in the lookup table nor "SPACE". *)
Definition unlisted (tag : string) : bool :=
  negb (tag =? "SPACE")%string &&
  match dict_get tag jump with
  | None => true
  | Some _ => false
  end.

(** C4, amended. For every corpus the universal handler gets through,
    every token whose tag is neither in the lookup table nor "SPACE"
    increments the "other" bucket of its group, and nothing else does:
    the "other" count of a group grows by the number of such tokens.
    More generally every token but those tagged "SPACE" is counted once,
    under the category the table gives or under "other". *)
Theorem universal_other_bucket :
  forall (s s' : PosTagVisualizer) (X : corpus) (y : option (list string))
         (c : dict (dict Z)),
    pos_tag_counts_ s = Some c ->
    _handle_universal X y s = Return tt s' ->
    exists c', pos_tag_counts_ s' = Some c' /\
      forall label,
        count_at c' label "other"
        = option_map
            (fun n => n + Z.of_nat (group_count unlisted (stack s) y label X))
            (count_at c label "other") /\
        forall key,
          count_at c' label key
          = option_map
              (fun n => n + Z.of_nat (group_count (universal_counts_as key)
                                                  (stack s) y label X))
              (count_at c label key).
Proof.
  intros s s' X y c Hc Hrun.
  rewrite (handle_universal_pure X y s Hc) in Hrun.
  apply with_counts_return in Hrun. destruct Hrun as [c' [Hr ->]].
  exists c'. split; [reflexivity |].
  assert (Hkey : forall label key,
             count_at c' label key
             = option_map
                 (fun n => n + Z.of_nat (group_count (universal_counts_as key)
                                                     (stack s) y label X))
                 (count_at c label key)).
  { intros label key. rewrite (run_pure_count _ _ _ _ _ Hr).
    rewrite (hits_group_count universal_keyfn (universal_counts_as key));
      [reflexivity |].
    intros tag. unfold universal_keyfn, universal_counts_as.
    now destruct (tag =? "SPACE")%string. }
  intros label. split; [| apply Hkey].
  rewrite Hkey. unfold group_count.
  replace (filter (fun tok => universal_counts_as "other" (snd tok) && _) _)
    with (filter (fun tok =>
                    unlisted (snd tok) &&
                    match doc_label (stack s) y (fst tok) with
                    | Some l => (l =? label)%string
                    | None => false
                    end) (corpus_tokens X)); [reflexivity |].
  apply filter_ext. intros tok. f_equal.
  unfold unlisted, universal_counts_as. f_equal.
  destruct (dict_get (snd tok) jump) eqn:Hj.
  - symmetry. apply String.eqb_neq. rewrite jump_get_other. congruence.
  - symmetry. apply String.eqb_eq. now apply jump_get_other.
Qed.

Definition universal_corpus : corpus :=
  [[[("The", "DET"); (" ", "SPACE"); ("dog", "NOUN"); ("x", "X")]]].

Lemma universal_other_bucket_witness :
  let s := universal_example in
  let s' := final_state (_handle_universal universal_corpus None s) in
  let c := [("documents", zero_counter UNIVERSAL_TAGS)] in
  exists c', pos_tag_counts_ s' = Some c' /\
    forall label,
      count_at c' label "other"
      = option_map
          (fun n => n + Z.of_nat (group_count unlisted (stack s) None label
                                              universal_corpus))
          (count_at c label "other") /\
      forall key,
        count_at c' label key
        = option_map
            (fun n => n + Z.of_nat (group_count (universal_counts_as key)
                                                (stack s) None label
                                                universal_corpus))
            (count_at c label key).
Proof.
  intros s s' c.
  apply (@universal_other_bucket s s' universal_corpus None c).
  - reflexivity.
  - vm_compute. reflexivity.
Defined.

Example universal_corpus_counts :
  match pos_tag_counts_ (final_state (_handle_universal universal_corpus None
                                                        universal_example)) with
  | Some c => (count_at c "documents" "determiner",
               count_at c "documents" "other",
               count_at c "documents" "noun")
  | None => (None, None, None)
  end = (Some 1, Some 1, Some 1).
Proof. vm_compute. reflexivity. Qed.

(* ===================================================================== *)
(** ** Part-of-speech visualizer: [fit] and [draw] *)
(* ===================================================================== *)

Section Fitting.
Context {numpy : Np.Argsort}.

(** The options given at construction. *)
Definition same_options (s t : PosTagVisualizer) : Prop :=
  tagset t = tagset s /\ frequency t = frequency s /\ stack t = stack s /\
  colormap t = colormap s /\ colors t = colors s.

Ltac split_matches :=
  repeat (match goal with
          | |- context [match ?x with _ => _ end] =>
              lazymatch x with
              | context [match _ with _ => _ end] => fail
              | _ => destruct x eqn:?
              end
          end; simpl).

(** [draw] writes to the drawing surface and to [_pos_tags] only, and
    raises neither [KeyError] nor a validation error. *)
Lemma draw_frame (s : PosTagVisualizer) :
  let o := draw s in
  same_options s (final_state o) /\
  labels_ (final_state o) = labels_ s /\
  pos_tag_counts_ (final_state o) = pos_tag_counts_ s /\
  (forall e s', o = Raise e s' ->
     (forall k, e <> KeyError k) /\ (forall m, e <> YellowbrickValueError m)).
Proof.
  destruct s as [a ts fr cm cl st lb pt ct].
  unfold same_options.
  cbv beta iota delta [draw draw_no_rows bind attr ax ax_do get modify ret
                       raise].
  simpl. split_matches;
    repeat match goal with |- _ /\ _ => split end;
    try reflexivity; intros; try discriminate;
    match goal with
    | H : Raise _ _ = Raise _ _ |- _ =>
        inversion H; subst; clear H; split; intros; discriminate
    end.
Qed.

(** The tagset is one of the two the constructor admits. *)
Definition valid_tagset (s : PosTagVisualizer) : Prop :=
  tagset s = "penn_treebank" \/ tagset s = "universal".

Definition tags_of (s : PosTagVisualizer) : list string :=
  if (tagset s =? "penn_treebank")%string then PENN_TAGS else UNIVERSAL_TAGS.

Definition keyfn_of (s : PosTagVisualizer) : string -> option string :=
  if (tagset s =? "penn_treebank")%string then treebank_keyfn
  else universal_keyfn.

(** The group labels [fit] settles on. *)
Definition labels_for (s : PosTagVisualizer) (y : option (list string))
  : list string :=
  if stack s then
    match y with
    | Some ys => np_unique ys
    | None => ["documents"]
    end
  else ["documents"].

Definition fresh_counts (s : PosTagVisualizer) (y : option (list string))
  : dict (dict Z) :=
  dict_comprehension (labels_for s y) (fun _ => zero_counter (tags_of s)).

(** The object as [fit] has prepared it when it calls the handler. *)
Definition prepared (s : PosTagVisualizer) (y : option (list string))
  : PosTagVisualizer :=
  set_pos_tag_counts_ (fresh_counts s y)
    (set_pos_tags (tags_of s) (set_labels_ (labels_for s y) s)).

(** The object after the handler has run, or stopped. *)
Definition counted (X : corpus) (y : option (list string))
           (s : PosTagVisualizer) : outcome PosTagVisualizer unit :=
  with_counts (run_pure (token_pure (keyfn_of s) (stack s) y)
                        (corpus_tokens X) (fresh_counts s y))
              (prepared s y).

Lemma fit_without_y (X : corpus) (s : PosTagVisualizer) :
  stack s = true ->
  fit X None s
  = Raise (YellowbrickValueError "Specify y for stack=True")
          (set_labels_ ["documents"] s).
Proof.
  intros Hst.
  cbv beta iota delta [fit bind modify get ret raise].
  simpl. now rewrite Hst.
Qed.

Lemma fit_unfold (X : corpus) (y : option (list string))
      (s : PosTagVisualizer) :
  valid_tagset s ->
  (stack s = true -> y <> None) ->
  fit X y s
  = match counted X y s with
    | Return _ s1 =>
        match draw s1 with
        | Return _ s2 => Return s2 s2
        | Raise e s2 => Raise e s2
        end
    | Raise e s1 => Raise e s1
    end.
Proof.
  intros Hts Hy.
  unfold counted, prepared, fresh_counts, labels_for, tags_of, keyfn_of.
  cbv beta iota delta [fit bind modify get ret raise _penn_tag_map
                       _uni_tag_map _make_tag_map attr].
  simpl.
  destruct (stack s) eqn:Hst.
  - destruct y as [ys|]; [| now destruct Hy].
    destruct Hts as [Hts|Hts]; rewrite Hts; simpl.
    + erewrite handle_treebank_pure by reflexivity. simpl. rewrite Hst.
      destruct (run_pure _ _ _) as [[e c]|c]; reflexivity.
    + erewrite handle_universal_pure by reflexivity. simpl. rewrite Hst.
      destruct (run_pure _ _ _) as [[e c]|c]; reflexivity.
  - destruct Hts as [Hts|Hts]; rewrite Hts; simpl.
    + erewrite handle_treebank_pure by reflexivity. simpl. rewrite Hst.
      destruct (run_pure _ _ _) as [[e c]|c]; reflexivity.
    + erewrite handle_universal_pure by reflexivity. simpl. rewrite Hst.
      destruct (run_pure _ _ _) as [[e c]|c]; reflexivity.
Qed.

End Fitting.

End PosTagFacts.

(* ===================================================================== *)
(** ** The numpy operations *)
(* ===================================================================== *)

Module NpFacts.
Import Np.

Lemma take_in_range {A} (d : A) (arr : list A) (idx : list nat) :
  (forall i, In i idx -> (i < List.length arr)%nat) ->
  take arr idx = Some (map (fun i => nth i arr d) idx).
Proof.
  induction idx as [|i idx IH]; simpl; intros Hr; [reflexivity |].
  rewrite IH by auto.
  destruct (nth_error arr i) as [a|] eqn:Hi.
  - now rewrite (nth_error_nth _ _ d Hi).
  - apply nth_error_None in Hi. specialize (Hr i (or_introl eq_refl)). lia.
Qed.

Lemma take_length {A} (arr out : list A) (idx : list nat) :
  take arr idx = Some out -> List.length out = List.length idx.
Proof.
  revert out. induction idx as [|i idx IH]; simpl; intros out.
  - now intros [= <-].
  - destruct (nth_error arr i); [| discriminate].
    destruct (take arr idx) as [out'|]; [| discriminate].
    intros [= <-]. simpl. f_equal. now apply IH.
Qed.

Lemma map_nth_seq {A} (d : A) (arr : list A) :
  map (fun i => nth i arr d) (seq 0 (List.length arr)) = arr.
Proof.
  induction arr as [|a arr IH]; simpl; [reflexivity |].
  f_equal. rewrite <- seq_shift, map_map. exact IH.
Qed.

(** Indexing by a permutation of the positions permutes the array. *)
Lemma take_permutation {A} (arr out : list A) (idx : list nat) :
  Permutation idx (seq 0 (List.length arr)) ->
  take arr idx = Some out -> Permutation out arr.
Proof.
  intros Hp Ht. destruct arr as [|d arr].
  - simpl in Hp. apply Permutation_sym, Permutation_nil in Hp. subst idx.
    simpl in Ht. injection Ht as <-. constructor.
  - rewrite (take_in_range d) in Ht.
    + assert (Hout : out = map (fun i => nth i (d :: arr) d) idx)
        by congruence.
      subst out.
      eapply Permutation_trans; [apply Permutation_map; exact Hp |].
      rewrite map_nth_seq. apply Permutation_refl.
    + intros i Hi. apply (Permutation_in _ Hp) in Hi.
      apply in_seq in Hi. lia.
Qed.

Lemma take_columns_in_range (rows : list (list Z)) (idx : list nat) :
  (forall r i, In r rows -> In i idx -> (i < List.length r)%nat) ->
  take_columns rows idx
  = Some (map (fun r => map (fun i => nth i r 0) idx) rows).
Proof.
  induction rows as [|r rows IH]; simpl; intros Hr; [reflexivity |].
  rewrite (take_in_range 0) by (intros i Hi; apply Hr; auto).
  rewrite IH; [reflexivity |]. intros r' i Hr' Hi. apply Hr; auto.
Qed.

Lemma add_rows_map {A} (f g : A -> Z) (xs : list A) :
  add_rows (map f xs) (map g xs) = map (fun x => f x + g x) xs.
Proof. induction xs as [|x xs IH]; simpl; [reflexivity | now rewrite IH]. Qed.

(** Descending order is ascending order read backwards. *)
Lemma StronglySorted_snoc (R : Z -> Z -> Prop) (l : list Z) (x : Z) :
  StronglySorted R l -> Forall (fun a => R a x) l ->
  StronglySorted R (l ++ [x]).
Proof.
  induction 1 as [|a l Hs IH Ha]; simpl; intros Hf.
  - repeat constructor.
  - inversion Hf as [|? ? Hax Hf']; subst. constructor; [now apply IH |].
    apply Forall_app. split; [assumption | now constructor].
Qed.

Lemma Sorted_le_rev (l : list Z) : Sorted Z.le l -> Sorted Z.ge (rev l).
Proof.
  intros Hs. apply StronglySorted_Sorted.
  apply Sorted_StronglySorted in Hs; [| intros a b c; apply Z.le_trans].
  induction Hs as [|a l Hs IH Ha]; simpl; [constructor |].
  apply StronglySorted_snoc; [assumption |].
  apply Forall_rev. eapply Forall_impl; [| exact Ha]. intros b Hb. lia.
Qed.

(** *** An [argsort]: insertion sort on the positions *)

Fixpoint insert_index (a : list Z) (i : nat) (sorted : list nat) : list nat :=
  match sorted with
  | [] => [i]
  | j :: rest =>
      if nth i a 0 <=? nth j a 0 then i :: j :: rest
      else j :: insert_index a i rest
  end.

Definition insertion_argsort (a : list Z) : list nat :=
  fold_right (insert_index a) [] (seq 0 (List.length a)).

Lemma insert_index_perm (a : list Z) (i : nat) (l : list nat) :
  Permutation (insert_index a i l) (i :: l).
Proof.
  induction l as [|j l IH]; simpl; [constructor; constructor |].
  destruct (nth i a 0 <=? nth j a 0); [apply Permutation_refl |].
  rewrite IH. apply perm_swap.
Qed.

Lemma insert_index_sorted (a : list Z) (i : nat) (l : list nat) :
  Sorted Z.le (map (fun i => nth i a 0) l) ->
  Sorted Z.le (map (fun i => nth i a 0) (insert_index a i l)).
Proof.
  induction l as [|j l IH]; simpl; intros Hs; [repeat constructor |].
  destruct (Z.leb_spec (nth i a 0) (nth j a 0)) as [Hle|Hgt]; simpl.
  - constructor; [assumption | constructor; assumption].
  - inversion Hs as [|? ? Hs' Hhd]; subst.
    constructor; [now apply IH |].
    destruct l as [|k l]; simpl.
    + constructor. lia.
    + destruct (Z.leb_spec (nth i a 0) (nth k a 0)); simpl;
        constructor; [lia |].
      inversion Hhd; subst. assumption.
Qed.

Lemma insertion_argsort_perm (a : list Z) :
  Permutation (insertion_argsort a) (seq 0 (List.length a)).
Proof.
  unfold insertion_argsort. induction (seq 0 (List.length a)) as [|i l IH];
    simpl; [constructor |].
  rewrite insert_index_perm. now constructor.
Qed.

Lemma insertion_argsort_ascending (a : list Z) :
  Sorted Z.le (map (fun i => nth i a 0) (insertion_argsort a)).
Proof.
  unfold insertion_argsort. induction (seq 0 (List.length a)) as [|i l IH];
    simpl; [constructor |].
  now apply insert_index_sorted.
Qed.

Definition insertion : Argsort :=
  {| argsort := insertion_argsort;
     argsort_perm := insertion_argsort_perm;
     argsort_ascending := insertion_argsort_ascending |}.

End NpFacts.

(* ===================================================================== *)
(** ** Part-of-speech visualizer: drawing by frequency *)
(* ===================================================================== *)

Module PosTagDrawing.
Import Py PyFacts PosTag PosTagFacts NpFacts.

(** The count a counter holds for a tag. *)
Definition lookup0 (cn : dict Z) (tag : string) : Z :=
  match dict_get tag cn with
  | Some n => n
  | None => 0
  end.

(** The total of a category over all label groups. *)
Definition category_total (c : dict (dict Z)) (tag : string) : Z :=
  fold_right Z.add 0 (map (fun cn => lookup0 cn tag) (dict_values c)).

Lemma dict_values_lookup (cn : dict Z) :
  NoDup (dict_keys cn) -> dict_values cn = map (lookup0 cn) (dict_keys cn).
Proof.
  induction cn as [|[k v] cn IH]; simpl; intros Hnd; [reflexivity |].
  inversion Hnd as [|? ? Hk Hnd']; subst.
  unfold lookup0 at 1. simpl. rewrite String.eqb_refl. f_equal.
  rewrite IH by assumption. apply map_ext_in. intros k' Hk'.
  unfold lookup0. simpl.
  destruct (String.eqb_spec k k') as [->|_]; [contradiction | reflexivity].
Qed.

(** The rows [draw] builds, one per group, one column per tag. *)
Lemma rows_by_tag (labels tags : list string) (c : dict (dict Z)) :
  keyed labels tags c -> NoDup tags ->
  map (@dict_values Z) (dict_values c)
  = map (fun cn => map (lookup0 cn) tags) (dict_values c).
Proof.
  intros [_ Hin] Hnd. apply map_ext_in. intros cn Hcn.
  rewrite dict_values_lookup; rewrite (Hin cn Hcn); auto.
Qed.

Lemma sum_rows_fold (tags : list string) (cs : list (dict Z)) :
  forall g : string -> Z,
    fold_left (fun acc r' => Np.add_rows r' acc)
              (map (fun cn => map (lookup0 cn) tags) cs) (map g tags)
    = map (fun t => fold_right Z.add 0 (map (fun cn => lookup0 cn t) cs) + g t)
          tags.
Proof.
  induction cs as [|cn cs IH]; simpl; intros g.
  - apply map_ext. intros t. lia.
  - rewrite add_rows_map, IH. apply map_ext. intros t. lia.
Qed.

(** The column sums are the category totals, in the order of the tags. *)
Lemma sum_axis0_totals (labels tags : list string) (c : dict (dict Z)) :
  keyed labels tags c -> NoDup tags -> dict_values c <> [] ->
  Np.sum_axis0 (map (@dict_values Z) (dict_values c))
  = map (category_total c) tags.
Proof.
  intros Hk Hnd Hne. rewrite (rows_by_tag Hk Hnd). unfold category_total.
  destruct (dict_values c) as [|cn cs]; [contradiction |]. simpl.
  rewrite sum_rows_fold. apply map_ext. intros t. lia.
Qed.

Lemma regular_rows (labels tags : list string) (c : dict (dict Z)) :
  keyed labels tags c -> NoDup tags ->
  Np.regular (map (@dict_values Z) (dict_values c)) = true.
Proof.
  intros Hk Hnd. rewrite (rows_by_tag Hk Hnd).
  destruct (dict_values c) as [|cn cs]; simpl; [reflexivity |].
  apply forallb_forall. intros r Hr. apply in_map_iff in Hr.
  destruct Hr as [cn' [<- _]]. rewrite !length_map. apply Nat.eqb_refl.
Qed.

Section Drawing.
Context {numpy : Np.Argsort}.

(** The order [draw] arranges the columns in. *)
Definition frequency_order (c : dict (dict Z)) : list nat :=
  rev (Np.argsort (Np.sum_axis0 (map (@dict_values Z) (dict_values c)))).

(** The surface [draw] finds, or is given by matplotlib. *)
Definition surface (s : PosTagVisualizer) : Axes :=
  match _ax s with
  | Some a => a
  | None => gca
  end.

(** [draw] with [frequency] on, step by step, on any regular matrix. *)
Lemma draw_by_frequency (s : PosTagVisualizer) (c : dict (dict Z))
      (tags tags' labels : list string) (data : list (list Z)) :
  frequency s = true ->
  pos_tag_counts_ s = Some c ->
  _pos_tags s = Some tags ->
  labels_ s = Some labels ->
  dict_values c <> [] ->
  Np.regular (map (@dict_values Z) (dict_values c)) = true ->
  Np.take tags (frequency_order c) = Some tags' ->
  Np.take_columns (map (@dict_values Z) (dict_values c)) (frequency_order c)
  = Some data ->
  let a' :=
    {| calls :=
         calls (surface s) ++
         [if stack s
          then bar_stack data labels tags' (colors s) (colormap s)
          else bar (seq 0 (List.length tags')) (hd [] data)
                   (List.length tags') (colormap s) (colors s)] |} in
  draw s = Return a' (set_ax a' (set_pos_tags tags' s)).
Proof.
  intros Hf Hc Ht Hl Hne Hreg Htake Hcols a'. subst a'.
  unfold frequency_order in *.
  cbv beta iota zeta delta [draw bind attr get modify ret raise ax ax_do].
  rewrite Hc.
  destruct (map (@dict_values Z) (dict_values c)) as [|r0 rows] eqn:Hrows.
  - destruct (dict_values c); [contradiction | discriminate].
  - rewrite Hreg. cbn [negb]. rewrite Hf, Ht, Htake. cbn [_pos_tags set_pos_tags].
    rewrite Hcols. cbn [stack set_pos_tags].
    destruct data as [|d0 data].
    { simpl in Hcols. destruct (Np.take r0 _); [| discriminate].
      destruct (Np.take_columns rows _); discriminate. }
    unfold surface.
    destruct (stack s);
      cbn beta iota delta [_ax set_pos_tags set_ax labels_ _pos_tags hd];
      destruct (_ax s) as [a|];
      cbn beta iota delta [_ax set_pos_tags set_ax labels_ _pos_tags hd];
      rewrite ?Hl; reflexivity.
Qed.

End Drawing.

Section Ordering.
Context {numpy : Np.Argsort}.

Lemma frequency_order_perm (labels tags : list string) (c : dict (dict Z)) :
  keyed labels tags c -> NoDup tags -> dict_values c <> [] ->
  Permutation (frequency_order c) (seq 0 (List.length tags)).
Proof.
  intros Hk Hnd Hne. unfold frequency_order.
  rewrite <- Permutation_rev. rewrite Np.argsort_perm.
  rewrite (sum_axis0_totals Hk Hnd Hne), length_map. apply Permutation_refl.
Qed.

Lemma frequency_order_range (labels tags : list string) (c : dict (dict Z)) :
  keyed labels tags c -> NoDup tags -> dict_values c <> [] ->
  forall i, In i (frequency_order c) -> (i < List.length tags)%nat.
Proof.
  intros Hk Hnd Hne i Hi.
  apply (Permutation_in _ (frequency_order_perm Hk Hnd Hne)) in Hi.
  apply in_seq in Hi. lia.
Qed.

(** [draw] on counters keyed in the order of [_pos_tags]: the tags are
    permuted so that the category totals descend, and the counts plotted
    are those of the permuted tags. *)
Lemma draw_sorts_columns :
  forall (s : PosTagVisualizer) (c : dict (dict Z))
         (tags labels groups : list string),
    frequency s = true ->
    pos_tag_counts_ s = Some c ->
    _pos_tags s = Some tags ->
    labels_ s = Some labels ->
    keyed groups tags c -> NoDup tags -> dict_values c <> [] ->
    exists (tags' : list string) (a' : Axes),
      let data := map (fun cn => map (lookup0 cn) tags') (dict_values c) in
      draw s = Return a' (set_ax a' (set_pos_tags tags' s)) /\
      Permutation tags' tags /\
      Sorted Z.ge (map (category_total c) tags') /\
      calls a'
      = calls (surface s) ++
        [if stack s
         then bar_stack data labels tags' (colors s) (colormap s)
         else bar (seq 0 (List.length tags')) (hd [] data)
                  (List.length tags') (colormap s) (colors s)].
Proof.
  intros s c tags labels groups Hf Hc Ht Hl Hk Hnd Hne.
  pose proof (frequency_order_range Hk Hnd Hne) as Hrange.
  pose proof (frequency_order_perm Hk Hnd Hne) as Hperm.
  set (idx := frequency_order c) in *.
  set (tags' := map (fun i => nth i tags "") idx).
  assert (Htake : Np.take tags idx = Some tags')
    by (apply take_in_range; assumption).
  assert (Hcols : Np.take_columns (map (@dict_values Z) (dict_values c)) idx
                  = Some (map (fun cn => map (lookup0 cn) tags')
                              (dict_values c))).
  { rewrite (rows_by_tag Hk Hnd). rewrite take_columns_in_range.
    - f_equal. rewrite map_map. apply map_ext. intros cn.
      unfold tags'. rewrite map_map. apply map_ext_in. intros i Hi.
      rewrite (nth_indep _ 0 (lookup0 cn "")) by (rewrite length_map; auto).
      apply map_nth.
    - intros r i Hr Hi. apply in_map_iff in Hr. destruct Hr as [cn [<- _]].
      rewrite length_map. auto. }
  exists tags'. eexists. cbv zeta. split; [| split; [| split]].
  - eapply draw_by_frequency; eauto. eapply regular_rows; eauto.
  - eapply take_permutation; eauto.
  - assert (Htot : map (category_total c) tags'
                   = rev (map (fun i => nth i (Np.sum_axis0
                                                 (map (@dict_values Z)
                                                      (dict_values c))) 0)
                              (Np.argsort (Np.sum_axis0
                                             (map (@dict_values Z)
                                                  (dict_values c)))))).
    { rewrite <- map_rev. fold (frequency_order c). fold idx.
      unfold tags'. rewrite map_map. apply map_ext_in. intros i Hi.
      rewrite (sum_axis0_totals Hk Hnd Hne).
      rewrite (nth_indep _ 0 (category_total c ""))
        by (rewrite length_map; auto).
      symmetry. apply map_nth. }
    rewrite Htot. apply Sorted_le_rev. apply Np.argsort_ascending.
  - reflexivity.
Qed.

End Ordering.

(** *** The state [fit] hands to [draw] *)

Fixpoint nodupb (l : list string) : bool :=
  match l with
  | [] => true
  | x :: rest => negb (str_in x rest) && nodupb rest
  end.

Lemma nodupb_NoDup (l : list string) : nodupb l = true -> NoDup l.
Proof.
  induction l as [|x l IH]; simpl; intros H; [constructor |].
  apply andb_true_iff in H. destruct H as [Hx Hl].
  constructor; [| now apply IH].
  intros Hin. apply negb_true_iff in Hx.
  assert (Ht : str_in x l = true).
  { unfold str_in. apply existsb_exists. exists x. split; [assumption |].
    apply String.eqb_refl. }
  congruence.
Qed.

Lemma NoDup_PENN_TAGS : NoDup PENN_TAGS.
Proof. apply nodupb_NoDup. reflexivity. Qed.

Lemma NoDup_UNIVERSAL_TAGS : NoDup UNIVERSAL_TAGS.
Proof. apply nodupb_NoDup. reflexivity. Qed.

Lemma NoDup_tags_of (s : PosTagVisualizer) : NoDup (tags_of s).
Proof.
  unfold tags_of. destruct (tagset s =? "penn_treebank")%string;
    [apply NoDup_PENN_TAGS | apply NoDup_UNIVERSAL_TAGS].
Qed.

Lemma comprehension_values_In {V} (f : string -> V) (keys : list string) :
  forall (d : dict V) (v : V),
    In v (dict_values (fold_left (fun d k => dict_set k (f k) d) keys d)) ->
    (exists k, v = f k) \/ In v (dict_values d).
Proof.
  induction keys as [|k keys IH]; simpl; intros d v Hin; [auto |].
  destruct (IH _ _ Hin) as [H|H]; [auto |].
  apply dict_values_set_In in H. destruct H as [->|H]; eauto.
Qed.

Lemma fresh_counts_keyed (s : PosTagVisualizer) (y : option (list string)) :
  keyed (dict_keys (fresh_counts s y)) (tags_of s) (fresh_counts s y).
Proof.
  split; [reflexivity |]. intros cn Hcn. unfold fresh_counts in Hcn.
  apply comprehension_values_In in Hcn. destruct Hcn as [[_ ->]|[]].
  apply zero_counter_keys, NoDup_tags_of.
Qed.

Lemma fresh_counts_labels (s : PosTagVisualizer) (y : option (list string))
      (l : string) :
  In l (dict_keys (fresh_counts s y)) <-> In l (labels_for s y).
Proof.
  unfold fresh_counts, dict_comprehension. rewrite comprehension_keys_In.
  simpl. tauto.
Qed.

(** What [fit] has set when the handler is through, or has stopped. *)
Lemma counted_state (X : corpus) (y : option (list string))
      (s : PosTagVisualizer) :
  let s1 := final_state (counted X y s) in
  same_options s s1 /\
  labels_ s1 = Some (labels_for s y) /\
  _pos_tags s1 = Some (tags_of s) /\
  _ax s1 = _ax s /\
  exists c1, pos_tag_counts_ s1 = Some c1 /\
             keyed (dict_keys (fresh_counts s y)) (tags_of s) c1.
Proof.
  unfold counted.
  pose proof (run_pure_keyed (keyfn_of s) (stack s) y (corpus_tokens X)
                             (fresh_counts_keyed s y)) as Hk.
  destruct (run_pure _ _ _) as [[e c1]|c1]; simpl;
    (split; [repeat split | repeat split; eauto]).
Qed.

Lemma keyed_values_nonempty (labels tags : list string) (c : dict (dict Z)) :
  keyed labels tags c -> labels <> [] -> dict_values c <> [].
Proof.
  intros [<- _] Hne Hv. apply Hne. destruct c; [reflexivity | discriminate].
Qed.

(** *** [np.unique] keeps exactly the values of [y] *)

Lemma unique_insert_In (x z : string) (l : list string) :
  In z (unique_insert x l) <-> z = x \/ In z l.
Proof.
  induction l as [|y l IH]; simpl; [intuition |].
  destruct (String.compare x y) eqn:Hc; simpl.
  - apply String.compare_eq_iff in Hc. subst y. intuition.
  - intuition.
  - rewrite IH. intuition.
Qed.

Lemma np_unique_In (z : string) (y : list string) :
  In z (np_unique y) <-> In z y.
Proof.
  unfold np_unique. induction y as [|x y IH]; simpl; [tauto |].
  rewrite unique_insert_In, IH. intuition.
Qed.

(** The values come out in strictly ascending order, hence once each. *)
Definition str_lt (a b : string) : Prop := String.compare a b = Lt.

Lemma str_lt_trans (a b c : string) : str_lt a b -> str_lt b c -> str_lt a c.
Proof.
  unfold str_lt. intros Hab Hbc.
  apply String_as_OT.cmp_lt. apply String_as_OT.cmp_lt in Hab, Hbc.
  eapply String_as_OT.lt_trans; eauto.
Qed.

Lemma str_lt_irrefl (a : string) : ~ str_lt a a.
Proof.
  unfold str_lt. intros H.
  assert (He : String.compare a a = Eq) by (apply String_as_OT.cmp_eq; reflexivity).
  congruence.
Qed.

Lemma unique_insert_HdRel (x y : string) (l : list string) :
  str_lt y x -> HdRel str_lt y l -> HdRel str_lt y (unique_insert x l).
Proof.
  intros Hyx Hl. destruct l as [|z l]; simpl; [now constructor |].
  inversion Hl; subst.
  destruct (String.compare x z); now constructor.
Qed.

Lemma unique_insert_sorted (x : string) (l : list string) :
  Sorted str_lt l -> Sorted str_lt (unique_insert x l).
Proof.
  induction l as [|y l IH]; simpl; intros Hs; [repeat constructor |].
  inversion Hs as [|? ? Hs' Hhd]; subst.
  destruct (String.compare x y) eqn:Hc.
  - assumption.
  - constructor; [assumption | now constructor].
  - constructor; [now apply IH |].
    apply unique_insert_HdRel; [| assumption].
    unfold str_lt. rewrite String.compare_antisym, Hc. reflexivity.
Qed.

Lemma np_unique_sorted (y : list string) : Sorted str_lt (np_unique y).
Proof.
  unfold np_unique. induction y as [|x y IH]; simpl; [constructor |].
  now apply unique_insert_sorted.
Qed.

Lemma np_unique_NoDup (y : list string) : NoDup (np_unique y).
Proof.
  pose proof (np_unique_sorted y) as Hs.
  apply Sorted_StronglySorted in Hs; [| exact str_lt_trans].
  induction Hs as [|a l Hs IH Ha]; constructor; [| assumption].
  intros Hin. rewrite Forall_forall in Ha.
  apply (str_lt_irrefl (Ha a Hin)).
Qed.

Lemma corpus_tokens_range (X : corpus) :
  forall i tok, In tok (corpus_tokens_from i X) ->
                (i <= fst tok < i + List.length X)%nat.
Proof.
  induction X as [|d X IH]; simpl; intros i tok Hin; [contradiction |].
  apply in_app_iff in Hin. destruct Hin as [Hin|Hin].
  - apply in_map_iff in Hin. destruct Hin as [tag [<- _]]. simpl. lia.
  - apply IH in Hin. lia.
Qed.

Lemma keyfn_of_in_tags (s : PosTagVisualizer) (tag k : string) :
  keyfn_of s tag = Some k -> In k (tags_of s).
Proof.
  unfold keyfn_of, tags_of. destruct (tagset s =? "penn_treebank")%string.
  - unfold treebank_keyfn. intros [= <-]. apply treebank_key_in_tags.
  - unfold universal_keyfn. destruct (tag =? "SPACE")%string; [discriminate |].
    intros [= <-]. apply jump_get_in_tags.
Qed.

(** Every document has a group: there is no stacking, or [y] is at least
    as long as the corpus. *)
Definition labelled (s : PosTagVisualizer) (X : corpus)
           (y : option (list string)) : Prop :=
  stack s = true ->
  exists ys, y = Some ys /\ (List.length X <= List.length ys)%nat.

Lemma labelled_doc_label (s : PosTagVisualizer) (X : corpus)
      (y : option (list string)) (idx : nat) :
  labelled s X y -> (idx < List.length X)%nat ->
  exists l, doc_label (stack s) y idx = Some l /\ In l (labels_for s y).
Proof.
  unfold labelled, doc_label, labels_for. intros Hlab Hidx.
  destruct (stack s).
  - destruct (Hlab eq_refl) as [ys [-> Hlen]].
    destruct (nth_error ys idx) as [l|] eqn:Hn.
    + exists l. split; [reflexivity |]. apply np_unique_In.
      eapply nth_error_In; eauto.
    + apply nth_error_None in Hn. lia.
  - exists "documents". split; [reflexivity | now left].
Qed.

(** With every document in a group, the handler gets through the corpus. *)
Lemma counted_returns (X : corpus) (y : option (list string))
      (s : PosTagVisualizer) :
  labelled s X y -> exists s1, counted X y s = Return tt s1.
Proof.
  intros Hlab. unfold counted.
  destruct (@run_pure_ok (keyfn_of s) (stack s) y
                         (dict_keys (fresh_counts s y)) (tags_of s)
                         (corpus_tokens X) (fresh_counts s y)
                         (fresh_counts_keyed s y)) as [c1 Hc1].
  - intros tok k Hin Hk. split; [eapply keyfn_of_in_tags; eauto |].
    apply corpus_tokens_range in Hin.
    destruct (@labelled_doc_label s X y (fst tok) Hlab) as [l [Hl Hin']];
      [lia |].
    exists l. split; [assumption | now apply fresh_counts_labels].
  - rewrite Hc1. simpl. eauto.
Qed.

Section Returning.
Context {numpy : Np.Argsort}.

(** [draw] with [frequency] off. *)
Lemma draw_plain (s : PosTagVisualizer) (c : dict (dict Z))
      (tags labels : list string) :
  frequency s = false ->
  pos_tag_counts_ s = Some c ->
  _pos_tags s = Some tags ->
  labels_ s = Some labels ->
  dict_values c <> [] ->
  Np.regular (map (@dict_values Z) (dict_values c)) = true ->
  let data := map (@dict_values Z) (dict_values c) in
  let a' :=
    {| calls :=
         calls (surface s) ++
         [if stack s
          then bar_stack data labels tags (colors s) (colormap s)
          else bar (seq 0 (List.length tags)) (hd [] data)
                   (List.length tags) (colormap s) (colors s)] |} in
  draw s = Return a' (set_ax a' s).
Proof.
  intros Hf Hc Ht Hl Hne Hreg data a'. subst a' data.
  cbv beta iota zeta delta [draw bind attr get modify ret raise ax ax_do].
  rewrite Hc.
  destruct (map (@dict_values Z) (dict_values c)) as [|r0 rows] eqn:Hrows.
  - destruct (dict_values c); [contradiction | discriminate].
  - rewrite Hreg. cbn [negb]. rewrite Hf. unfold surface.
    destruct (stack s);
      cbn beta iota delta [_ax set_ax labels_ _pos_tags hd];
      rewrite ?Hl, ?Ht;
      destruct (_ax s) as [a|];
      repeat (progress (cbn beta iota delta [_ax set_ax labels_ _pos_tags hd];
                        rewrite ?Hl, ?Ht));
      reflexivity.
Qed.

(** [fit] returns, and returns the object itself, whenever the tagset is
    one the constructor admits, every document has a group and there is
    at least one group. *)
Lemma fit_returns (X : corpus) (y : option (list string))
      (s : PosTagVisualizer) :
  valid_tagset s -> labelled s X y -> labels_for s y <> [] ->
  exists s', fit X y s = Return s' s'.
Proof.
  intros Hts Hlab Hne.
  rewrite fit_unfold; trivial.
  2:{ intros Hst Hy. destruct (Hlab Hst) as [ys [Hys _]]. congruence. }
  destruct (counted_returns Hlab) as [s1 Hs1].
  destruct (counted_state X y s) as [_ [Hl [Ht [_ [c1 [Hc1 Hk]]]]]].
  rewrite Hs1 in *. simpl in Hl, Ht, Hc1.
  assert (Hv : dict_values c1 <> []).
  { apply (keyed_values_nonempty Hk). intros Hnil. apply Hne.
    destruct (labels_for s y) as [|l ls] eqn:E; [reflexivity |].
    assert (Hin : In l (dict_keys (fresh_counts s y)))
      by (apply fresh_counts_labels; rewrite E; now left).
    rewrite Hnil in Hin. destruct Hin. }
  destruct (frequency s1) eqn:Hf.
  - destruct (@draw_sorts_columns numpy s1 c1 (tags_of s)
                (labels_for s y) _ Hf Hc1 Ht Hl Hk (NoDup_tags_of s) Hv)
      as [tags' [a' [Hd _]]].
    rewrite Hd. eauto.
  - erewrite draw_plain; eauto.
    eapply regular_rows; eauto using NoDup_tags_of.
Qed.

End Returning.

(** *** Examples of drawing by frequency *)

(** The heights or rows of the bars drawn last. *)
Definition last_bars (a : Axes) : list (list Z) :=
  match rev (calls a) with
  | bar _ height _ _ _ :: _ => [height]
  | bar_stack data _ _ _ _ :: _ => data
  | [] => []
  end.

Definition new_visualizer : PosTagVisualizer :=
  {| _ax := None; tagset := "universal"; frequency := true;
     colormap := None; colors := None; stack := false;
     labels_ := None; _pos_tags := None; pos_tag_counts_ := None |}.

Definition small_corpus : corpus :=
  [[[("dogs", "NOUN"); ("bark", "VERB")]; [("run", "VERB")]]].

(** The visualizer after [fit], with numpy's [argsort] taken to be the
    insertion sort. *)
Definition fitted_visualizer : PosTagVisualizer :=
  final_state (fit (numpy := insertion) small_corpus None new_visualizer).

(** The draw that [fit] makes is in order: "verb" (2) then "noun" (1). *)
Example fitted_visualizer_drawn :
  fit (numpy := insertion) small_corpus None new_visualizer
  = Return fitted_visualizer fitted_visualizer /\
  option_map (firstn 2) (_pos_tags fitted_visualizer) = Some ["verb"; "noun"] /\
  option_map (fun a => map (firstn 2) (last_bars a)) (_ax fitted_visualizer)
  = Some [[2; 1]].
Proof. vm_compute. repeat split. Qed.

(** C7.  [draw] does not keep the categories with their counts when it
    is called on a visualizer that [fit] has drawn already, with
    [frequency] on.  Its comment says that the counts and the tags are
    both sorted by sum; the tags it sorts are those of [_pos_tags], which
    the first draw has overwritten with the reordered ones, while the
    counts are those of the counters, in their own order.  After the
    second draw the first bar, of height 2, is labelled "noun", whose
    count is 1. *)
Lemma redraw_misaligns_categories :
  frequency fitted_visualizer = true /\
  option_map (fun c => count_at c "documents" "noun")
             (pos_tag_counts_ fitted_visualizer) = Some (Some 1) /\
  exists (a : Axes) (v : PosTagVisualizer),
    draw (numpy := insertion) fitted_visualizer = Return a v /\
    option_map (firstn 2) (_pos_tags v) = Some ["noun"; "verb"] /\
    map (firstn 2) (last_bars a) = [[2; 1]].
Proof.
  split; [reflexivity |]. split; [vm_compute; reflexivity |].
  eexists. eexists. split; [vm_compute; reflexivity |].
  split; vm_compute; reflexivity.
Qed.

(* ===================================================================== *)
(** ** Part-of-speech visualizer: fitting again *)
(* ===================================================================== *)

Section Refitting.
Context {numpy : Np.Argsort}.

(** [draw] when no group was found at all. *)
Lemma draw_no_groups (s : PosTagVisualizer) (c : dict (dict Z))
      (tags labels : list string) :
  pos_tag_counts_ s = Some c -> dict_values c = [] ->
  _pos_tags s = Some tags -> labels_ s = Some labels ->
  (frequency s = false -> stack s = true ->
   exists a', draw s = Return a' (set_ax a' s)) /\
  (forall a s', draw s = Return a s' ->
                frequency s = false /\ stack s = true).
Proof.
  intros Hc Hv Ht Hl.
  cbv beta iota zeta delta [draw draw_no_rows bind attr get modify ret raise
                            ax ax_do].
  rewrite Hc, Hv. cbn [map]. split.
  - intros Hf Hst. rewrite Hf, Hst.
    destruct (_ax s) as [a|];
      repeat (progress (cbn beta iota delta [_ax set_ax labels_ _pos_tags];
                        rewrite ?Hl, ?Ht));
      eexists; reflexivity.
  - intros a s'. destruct (frequency s).
    + rewrite Ht. destruct (Np.take tags [0%nat]); discriminate.
    + destruct (stack s); [auto |].
      rewrite Ht. destruct (_ax s); discriminate.
Qed.

Lemma same_options_trans (s t u : PosTagVisualizer) :
  same_options s t -> same_options t u -> same_options s u.
Proof. unfold same_options. intuition congruence. Qed.

(** Counting starts afresh: it depends on the options only. *)
Lemma counted_same_options (X : corpus) (y : option (list string))
      (s t : PosTagVisualizer) (sa : PosTagVisualizer) :
  same_options s t ->
  counted X y s = Return tt sa ->
  exists sb, counted X y t = Return tt sb /\
             pos_tag_counts_ sb = pos_tag_counts_ sa.
Proof.
  intros [Hts [_ [Hst _]]]. unfold counted, fresh_counts, labels_for,
    keyfn_of, tags_of. rewrite Hts, Hst.
  destruct (run_pure _ _ _) as [[e c]|c]; simpl; [discriminate |].
  intros [= <-]. eauto.
Qed.

(** Once [fit X y] has returned, a second [fit X y] on the object
    returns as well, and leaves [pos_tag_counts_] as the first call
    did. *)
Lemma fit_again :
  forall (X : corpus) (y : option (list string))
         (s r1 s1 : PosTagVisualizer),
    valid_tagset s ->
    fit X y s = Return r1 s1 ->
    r1 = s1 /\
    exists s2, fit X y s1 = Return s2 s2 /\
               pos_tag_counts_ s2 = pos_tag_counts_ s1.
Proof.
  intros X y s r1 s1 Hts Hfit.
  assert (Hy : stack s = true -> y <> None).
  { intros Hst ->. rewrite (@fit_without_y numpy X s Hst) in Hfit. discriminate. }
  rewrite (@fit_unfold numpy X y s Hts Hy) in Hfit.
  destruct (counted X y s) as [[] sa|e sa] eqn:Hsa; [| discriminate].
  destruct (draw sa) as [a s1'|e s1'] eqn:Hda; [| discriminate].
  injection Hfit as H1 H2. subst s1'. subst r1. split; [reflexivity |].
  (* the first call *)
  pose proof (counted_state X y s) as Hcs. rewrite Hsa in Hcs.
  simpl in Hcs. destruct Hcs as [Hopt_a _].
  pose proof (draw_frame sa) as Hfr. rewrite Hda in Hfr. simpl in Hfr.
  destruct Hfr as [Hopt_1 [_ [Hc_1 _]]].
  pose proof (same_options_trans Hopt_a Hopt_1) as Hopt.
  (* the second call *)
  assert (Hts1 : valid_tagset s1).
  { destruct Hopt as [Ht1 _]. unfold valid_tagset. now rewrite Ht1. }
  assert (Hy1 : stack s1 = true -> y <> None).
  { destruct Hopt as [_ [_ [Hs1 _]]]. now rewrite Hs1. }
  rewrite (@fit_unfold numpy X y s1 Hts1 Hy1).
  destruct (@counted_same_options X y s s1 sa Hopt Hsa) as [sb [Hsb Hc_b]].
  rewrite Hsb.
  pose proof (counted_state X y s1) as Hcb. rewrite Hsb in Hcb.
  simpl in Hcb. destruct Hcb as [Hopt_b [Hl_b [Ht_b [_ [cb [Hcb Hk_b]]]]]].
  assert (Hret : exists b s2, draw sb = Return b s2).
  { destruct (dict_values cb) as [|r0 rs] eqn:Hv.
    - (* no group: the first draw returned, so must this one *)
      pose proof (counted_state X y s) as Hcs. rewrite Hsa in Hcs.
      simpl in Hcs. destruct Hcs as [_ [Hl_a [Ht_a [_ [ca [Hca _]]]]]].
      assert (ca = cb) by congruence. subst ca.
      destruct (@draw_no_groups sa cb _ _ Hca Hv Ht_a Hl_a) as [_ Hneed].
      destruct (Hneed _ _ Hda) as [Hf Hst].
      destruct (@draw_no_groups sb cb _ _ Hcb Hv Ht_b Hl_b) as [Hgo _].
      destruct Hgo as [a' Ha'].
      + destruct Hopt_b as [_ [Hf_b _]]. destruct Hopt as [_ [Hf_1 _]].
        destruct Hopt_a as [_ [Hf_a _]]. congruence.
      + destruct Hopt_b as [_ [_ [Hs_b _]]]. destruct Hopt as [_ [_ [Hs_1 _]]].
        destruct Hopt_a as [_ [_ [Hs_a _]]]. congruence.
      + eauto.
    - assert (Hne : dict_values cb <> []) by (rewrite Hv; discriminate).
      destruct (frequency sb) eqn:Hf.
      + destruct (@draw_sorts_columns numpy sb cb (tags_of s1)
                    (labels_for s1 y) _ Hf Hcb Ht_b Hl_b Hk_b
                    (NoDup_tags_of s1) Hne) as [tags' [a' [Hd _]]].
        eauto.
      + erewrite draw_plain; eauto.
        eapply regular_rows; eauto using NoDup_tags_of. }
  destruct Hret as [b [s2 Hdb]]. rewrite Hdb. exists s2. split; [reflexivity |].
  pose proof (draw_frame sb) as Hfb. rewrite Hdb in Hfb. simpl in Hfb.
  destruct Hfb as [_ [_ [Hc_2 _]]]. congruence.
Qed.

(** The object [fit] hands to [draw], when [fit] returns. *)
Lemma fit_hands_over (X : corpus) (y : option (list string))
      (s r s' : PosTagVisualizer) :
  valid_tagset s ->
  fit X y s = Return r s' ->
  exists (s0 : PosTagVisualizer) (a : Axes) (c : dict (dict Z)),
    counted X y s = Return tt s0 /\
    draw s0 = Return a s' /\
    same_options s s0 /\
    pos_tag_counts_ s0 = Some c /\
    _pos_tags s0 = Some (tags_of s) /\
    labels_ s0 = Some (labels_for s y) /\
    keyed (dict_keys (fresh_counts s y)) (tags_of s) c /\
    (frequency s = true -> dict_values c <> []).
Proof.
  intros Hts Hfit.
  assert (Hy : stack s = true -> y <> None).
  { intros Hst ->. rewrite (@fit_without_y numpy X s Hst) in Hfit.
    discriminate. }
  rewrite (@fit_unfold numpy X y s Hts Hy) in Hfit.
  pose proof (counted_state X y s) as Hcs.
  destruct (counted X y s) as [[] s0|e s0] eqn:Hs0; [| discriminate].
  simpl in Hcs. destruct Hcs as [Hopt [Hl [Ht [_ [c [Hc Hk]]]]]].
  destruct (draw s0) as [a s1|e s1] eqn:Hd; [| discriminate].
  injection Hfit as _ <-.
  exists s0, a, c. repeat split; trivial; try apply Hopt; try apply Hk.
  intros Hf Hv.
  destruct (@draw_no_groups s0 c _ _ Hc Hv Ht Hl) as [_ Hneed].
  destruct (Hneed _ _ Hd) as [Hf0 _].
  destruct Hopt as [_ [Hfr _]]. congruence.
Qed.

(** X9. The draw that [fit] makes, with [frequency] on, is in order:
    whenever [fit] returns, the fitted object's [_pos_tags] is a
    permutation of the tagset along which the category totals descend, and
    the bars drawn last are the counts of those tags, group by group. *)
Theorem fit_draws_in_order (X : corpus) (y : option (list string))
      (s r s' : PosTagVisualizer) :
  valid_tagset s -> frequency s = true ->
  fit X y s = Return r s' ->
  exists (c : dict (dict Z)) (tags' : list string),
    let data := map (fun cn => map (lookup0 cn) tags') (dict_values c) in
    pos_tag_counts_ s' = Some c /\
    _pos_tags s' = Some tags' /\
    Permutation tags' (tags_of s) /\
    Sorted Z.ge (map (category_total c) tags') /\
    option_map last_bars (_ax s')
    = Some (if stack s then data else [hd [] data]).
Proof.
  intros Hts Hf Hfit.
  destruct (@fit_hands_over X y s r s' Hts Hfit)
    as [s0 [a [c [_ [Hd [Hopt [Hc [Ht [Hl [Hk Hne]]]]]]]]]].
  assert (Hf0 : frequency s0 = true)
    by (destruct Hopt as [_ [H _]]; congruence).
  assert (Hst : stack s0 = stack s) by (destruct Hopt as [_ [_ [H _]]]; exact H).
  destruct (@draw_sorts_columns numpy s0 c (tags_of s) (labels_for s y) _
              Hf0 Hc Ht Hl Hk (NoDup_tags_of s) (Hne Hf))
    as [tags' [a' [Hd' [Hp [Hs Hcalls]]]]].
  cbv zeta in Hd', Hcalls. rewrite Hd in Hd'. injection Hd' as -> ->.
  exists c, tags'. cbv zeta. repeat split; trivial.
  cbn [_ax set_ax option_map]. f_equal. unfold last_bars.
  rewrite Hcalls, rev_app_distr, Hst. cbn [rev app].
  destruct (stack s); reflexivity.
Qed.

End Refitting.

Lemma fit_draws_in_order_witness :
  exists (c : dict (dict Z)) (tags' : list string),
    let data := map (fun cn => map (lookup0 cn) tags') (dict_values c) in
    pos_tag_counts_ fitted_visualizer = Some c /\
    _pos_tags fitted_visualizer = Some tags' /\
    Permutation tags' (tags_of new_visualizer) /\
    Sorted Z.ge (map (category_total c) tags') /\
    option_map last_bars (_ax fitted_visualizer)
    = Some (if stack new_visualizer then data else [hd [] data]).
Proof.
  apply (@fit_draws_in_order insertion small_corpus None new_visualizer
                             fitted_visualizer fitted_visualizer).
  - right. reflexivity.
  - reflexivity.
  - vm_compute. reflexivity.
Defined.

(* ===================================================================== *)
(** ** Part-of-speech visualizer: stacking *)
(* ===================================================================== *)

(** The exceptions a counting run can stop on. *)
Lemma token_pure_exn (keyfn : string -> option string) (st : bool)
      (y : option (list string)) (tok : nat * string) (c : dict (dict Z))
      (e : exn) :
  token_pure keyfn st y tok c = inl e ->
  e = TypeError \/ e = IndexError \/ exists k, e = KeyError k.
Proof.
  unfold token_pure, select_pure, increment_pure.
  destruct (keyfn (snd tok)) as [key|]; [| discriminate].
  destruct st.
  - destruct y as [ys|]; [| simpl; intros [= <-]; auto].
    destruct (nth_error ys (fst tok)) as [l|]; [| simpl; intros [= <-]; auto].
    destruct (dict_get l c) as [cn|] eqn:Hl; simpl;
      [| intros [= <-]; eauto].
    rewrite Hl.
    destruct (dict_get key cn); [discriminate | intros [= <-]; eauto].
  - destruct (dict_get "documents" c) as [cn|] eqn:Hl; simpl;
      [| intros [= <-]; eauto].
    rewrite Hl.
    destruct (dict_get key cn); [discriminate | intros [= <-]; eauto].
Qed.

Lemma run_pure_exn (keyfn : string -> option string) (st : bool)
      (y : option (list string)) (toks : list (nat * string)) :
  forall c e c', run_pure (token_pure keyfn st y) toks c = inl (e, c') ->
    e = TypeError \/ e = IndexError \/ exists k, e = KeyError k.
Proof.
  induction toks as [|tok toks IH]; simpl; intros c e c'; [discriminate |].
  destruct (token_pure keyfn st y tok c) as [e0|c1] eqn:Ht.
  - intros [= <- <-]. eapply token_pure_exn; eauto.
  - apply IH.
Qed.

Section Stacking.
Context {numpy : Np.Argsort}.

(** C6. For every visualizer in stacking mode: [fit] without [y] raises
    the validation error, having touched no counter; with [y] given, [fit]
    never raises a validation error, the group labels it settles on are
    the unique values of [y] however the call ends, and the call returns
    whenever the tagset is one the constructor admits, [y] is not empty
    and is at least as long as the corpus. *)
Theorem fit_stack_requires_y :
  forall (s : PosTagVisualizer) (X : corpus),
    stack s = true ->
    (fit X None s
     = Raise (YellowbrickValueError "Specify y for stack=True")
             (set_labels_ ["documents"] s) /\
     pos_tag_counts_ (final_state (fit X None s)) = pos_tag_counts_ s) /\
    (valid_tagset s ->
     forall ys : list string,
       labels_ (final_state (fit X (Some ys) s)) = Some (np_unique ys) /\
       (forall e s' m, fit X (Some ys) s = Raise e s' ->
                       e <> YellowbrickValueError m) /\
       (ys <> [] -> (List.length X <= List.length ys)%nat ->
        exists s', fit X (Some ys) s = Return s' s')).
Proof.
  intros s X Hst. split.
  - rewrite (@fit_without_y numpy X s Hst). split; reflexivity.
  - intros Hts ys.
    assert (Hy : stack s = true -> Some ys <> None) by (intros _; discriminate).
    assert (Hlab : labels_for s (Some ys) = np_unique ys)
      by (unfold labels_for; now rewrite Hst).
    rewrite (@fit_unfold numpy X (Some ys) s Hts Hy).
    pose proof (counted_state X (Some ys) s) as Hcs.
    rewrite Hlab in Hcs.
    split; [| split].
    + destruct (counted X (Some ys) s) as [[] sa|e sa]; simpl in *.
      * pose proof (draw_frame sa) as Hfr.
        destruct (draw sa) as [a s1|e s1]; simpl in *;
          destruct Hfr as [_ [Hl _]]; rewrite Hl; tauto.
      * tauto.
    + intros e s' m. unfold counted.
      destruct (run_pure _ _ _) as [[e0 c0]|c0] eqn:Hr; simpl.
      * intros [= <- <-]. apply run_pure_exn in Hr.
        destruct Hr as [->|[->|[k ->]]]; discriminate.
      * pose proof (draw_frame (set_pos_tag_counts_ c0 (prepared s (Some ys))))
          as Hfr.
        destruct (draw _) as [a s1|e1 s1]; [discriminate |].
        intros [= <- <-]. destruct Hfr as [_ [_ [_ Hexn]]].
        destruct (Hexn e1 s1 eq_refl) as [_ Hv]. apply Hv.
    + intros Hne Hlen.
      destruct (@fit_returns numpy X (Some ys) s Hts) as [s' Hs'].
      * intros _. eauto.
      * rewrite Hlab. destruct ys as [|l ys]; [contradiction |].
        intros Hnil.
        assert (Hin : In l (np_unique (l :: ys)))
          by (apply np_unique_In; now left).
        rewrite Hnil in Hin. destruct Hin.
      * rewrite (@fit_unfold numpy X (Some ys) s Hts Hy) in Hs'. eauto.
Qed.

End Stacking.

(** A new visualizer in stacking mode, and its targets. *)
Definition stacking_visualizer : PosTagVisualizer :=
  {| _ax := None; tagset := "penn_treebank"; frequency := false;
     colormap := None; colors := None; stack := true;
     labels_ := None; _pos_tags := None; pos_tag_counts_ := None |}.

Definition two_documents : corpus :=
  [[[("dogs", "NNS"); ("bark", "VBP")]]; [[("all", "PDT"); ("cats", "NNS")]]].

Lemma fit_stack_requires_y_witness :
  let s := stacking_visualizer in
  let X := two_documents in
  (fit (numpy := insertion) X None s
   = Raise (YellowbrickValueError "Specify y for stack=True")
           (set_labels_ ["documents"] s) /\
   pos_tag_counts_ (final_state (fit (numpy := insertion) X None s))
   = pos_tag_counts_ s) /\
  (valid_tagset s ->
   forall ys : list string,
     labels_ (final_state (fit (numpy := insertion) X (Some ys) s))
     = Some (np_unique ys) /\
     (forall e s' m, fit (numpy := insertion) X (Some ys) s = Raise e s' ->
                     e <> YellowbrickValueError m) /\
     (ys <> [] -> (List.length X <= List.length ys)%nat ->
      exists s', fit (numpy := insertion) X (Some ys) s = Return s' s')).
Proof.
  intros s X.
  apply (@fit_stack_requires_y insertion s X).
  reflexivity.
Defined.

Example fit_stacked_two_documents :
  let s' := final_state (fit (numpy := insertion) two_documents
                             (Some ["pos"; "neg"]) stacking_visualizer) in
  labels_ s' = Some ["neg"; "pos"] /\
  option_map (fun c => (count_at c "pos" "noun", count_at c "neg" "noun",
                        count_at c "neg" "other"))
             (pos_tag_counts_ s')
  = Some (Some 1, Some 1, Some 1).
Proof. vm_compute. split; reflexivity. Qed.

(** *** The counter of a document is always found *)

(** The object as [fit] prepares it for a tagset when stacking on [ys]. *)
Definition prepared_for (tags : list string) (ys : list string)
           (s : PosTagVisualizer) : PosTagVisualizer :=
  set_pos_tag_counts_
    (dict_comprehension (np_unique ys) (fun _ => zero_counter tags))
    (set_pos_tags tags (set_labels_ (np_unique ys) s)).

Lemma prepared_for_keyed (tags ys : list string) :
  NoDup tags ->
  let c0 := dict_comprehension (np_unique ys) (fun _ => zero_counter tags) in
  keyed (dict_keys c0) tags c0.
Proof.
  intros Hnd c0. split; [reflexivity |]. intros cn Hcn. unfold c0 in Hcn.
  apply comprehension_values_In in Hcn. destruct Hcn as [[_ ->]|[]].
  now apply zero_counter_keys.
Qed.

Lemma stacked_lookup (keyfn : string -> option string) (tags ys : list string)
      (X : corpus) (s : PosTagVisualizer)
      (handler : PosTagVisualizer -> outcome PosTagVisualizer unit) :
  NoDup tags ->
  (forall tag k, keyfn tag = Some k -> In k tags) ->
  (forall s0 c, pos_tag_counts_ s0 = Some c ->
     handler s0 = with_counts (run_pure (token_pure keyfn (stack s0) (Some ys))
                                        (corpus_tokens X) c) s0) ->
  stack s = true ->
  let o := handler (prepared_for tags ys s) in
  (forall idx label, nth_error ys idx = Some label ->
     select_counter idx (Some ys) (final_state o)
     = Return label (final_state o)) /\
  (forall e s', o = Raise e s' -> e = IndexError) /\
  ((List.length X <= List.length ys)%nat -> exists s', o = Return tt s').
Proof.
  intros Hnd Hkeys Hh Hst o. subst o.
  set (c0 := dict_comprehension (np_unique ys) (fun _ => zero_counter tags)).
  rewrite (Hh (prepared_for tags ys s) c0) by reflexivity.
  cbn [stack prepared_for set_pos_tag_counts_ set_pos_tags set_labels_].
  rewrite Hst.
  pose proof (prepared_for_keyed ys Hnd) as Hk0. cbv zeta in Hk0. fold c0 in Hk0.
  assert (Hlabels : forall l, In l ys -> In l (dict_keys c0)).
  { intros l Hl. unfold c0, dict_comprehension. apply comprehension_keys_In.
    left. now apply np_unique_In. }
  pose proof (run_pure_keyed keyfn true (Some ys) (corpus_tokens X) Hk0) as Hk.
  split; [| split].
  - intros idx label Hidx.
    assert (Hfound : forall c', keyed (dict_keys c0) tags c' ->
              select_counter idx (Some ys)
                (set_pos_tag_counts_ c' (prepared_for tags ys s))
              = Return label (set_pos_tag_counts_ c' (prepared_for tags ys s))).
    { intros c' [Hkeys' _].
      cbv beta iota delta [select_counter bind get attr ret raise].
      cbn [stack pos_tag_counts_ prepared_for set_pos_tag_counts_
           set_pos_tags set_labels_].
      rewrite Hst, Hidx.
      assert (Hin : In label (dict_keys c'))
        by (rewrite Hkeys'; apply Hlabels; eapply nth_error_In; eauto).
      apply dict_get_In_keys in Hin. destruct Hin as [cn ->]. reflexivity. }
    destruct (run_pure _ _ c0) as [[e c']|c']; simpl; now apply Hfound.
  - intros e s'.
    assert (Hstop : forall toks c e c',
               keyed (dict_keys c0) tags c ->
               run_pure (token_pure keyfn true (Some ys)) toks c = inl (e, c') ->
               e = IndexError).
    { induction toks as [|tok toks IH]; simpl; intros c e1 c1 Hkc;
        [discriminate |].
      destruct (token_pure keyfn true (Some ys) tok c) as [e0|c2] eqn:Ht.
      - intros [= <- <-]. unfold token_pure in Ht.
        destruct (keyfn (snd tok)) as [key|] eqn:Hkey; [| discriminate].
        unfold select_pure in Ht.
        destruct (nth_error ys (fst tok)) as [l|] eqn:Hn; [| congruence].
        assert (Hin : In l (dict_keys c))
          by (destruct Hkc as [-> _]; apply Hlabels; eapply nth_error_In; eauto).
        pose proof Hin as Hin'. apply dict_get_In_keys in Hin'.
        destruct Hin' as [cn Hcn]. rewrite Hcn in Ht.
        destruct (@increment_pure_ok (dict_keys c0) tags l key c Hkc)
          as [c3 Hc3]; [destruct Hkc as [<- _]; assumption | eauto |].
        congruence.
      - apply IH. eapply token_pure_keyed; eauto. }
    destruct (run_pure _ _ c0) as [[e0 c']|c'] eqn:Hr; simpl; [| discriminate].
    intros [= <- <-]. apply (Hstop (corpus_tokens X) c0 e0 c' Hk0 Hr).
  - intros Hlen.
    destruct (@run_pure_ok keyfn true (Some ys) (dict_keys c0) tags
                           (corpus_tokens X) c0 Hk0) as [c' Hc'].
    + intros tok k Hin Hkey. split; [eauto |].
      apply corpus_tokens_range in Hin.
      destruct (nth_error ys (fst tok)) as [l|] eqn:Hn.
      * exists l. split; [exact Hn |]. apply Hlabels. eapply nth_error_In; eauto.
      * apply nth_error_None in Hn. lia.
    + rewrite Hc'. simpl. eauto.
Qed.

(** C10. With [stack] on, once [fit] has made the counters from the
    unique values of [y], [pos_tag_counts_[y[idx]]] is found for every
    [idx] below the length of [y], in both handlers and however far the
    handler got; the only exception either handler can stop on is the
    [IndexError] of a corpus longer than [y], so that neither stops when
    [y] is at least as long as the corpus. *)
Theorem stacked_counter_always_found :
  forall (s : PosTagVisualizer) (ys : list string) (X : corpus),
    stack s = true ->
    (forall idx label, nth_error ys idx = Some label ->
       In label (np_unique ys)) /\
    (let o := _handle_treebank X (Some ys) (prepared_for PENN_TAGS ys s) in
     (forall idx label, nth_error ys idx = Some label ->
        select_counter idx (Some ys) (final_state o)
        = Return label (final_state o)) /\
     (forall e s', o = Raise e s' -> e = IndexError) /\
     ((List.length X <= List.length ys)%nat -> exists s', o = Return tt s')) /\
    (let o := _handle_universal X (Some ys) (prepared_for UNIVERSAL_TAGS ys s) in
     (forall idx label, nth_error ys idx = Some label ->
        select_counter idx (Some ys) (final_state o)
        = Return label (final_state o)) /\
     (forall e s', o = Raise e s' -> e = IndexError) /\
     ((List.length X <= List.length ys)%nat -> exists s', o = Return tt s')).
Proof.
  intros s ys X Hst. split; [| split].
  - intros idx label Hn. apply np_unique_In. eapply nth_error_In; eauto.
  - apply (@stacked_lookup treebank_keyfn PENN_TAGS ys X s
                           (_handle_treebank X (Some ys))); trivial.
    + apply NoDup_PENN_TAGS.
    + intros tag k [= <-]. apply treebank_key_in_tags.
    + intros s0 c. apply handle_treebank_pure.
  - apply (@stacked_lookup universal_keyfn UNIVERSAL_TAGS ys X s
                           (_handle_universal X (Some ys))); trivial.
    + apply NoDup_UNIVERSAL_TAGS.
    + intros tag k. unfold universal_keyfn.
      destruct (tag =? "SPACE")%string; [discriminate |].
      intros [= <-]. apply jump_get_in_tags.
    + intros s0 c. apply handle_universal_pure.
Qed.

Lemma stacked_counter_always_found_witness :
  let s := stacking_visualizer in
  let ys := ["pos"; "neg"] in
  let X := two_documents in
  (forall idx label, nth_error ys idx = Some label ->
     In label (np_unique ys)) /\
  (let o := _handle_treebank X (Some ys) (prepared_for PENN_TAGS ys s) in
   (forall idx label, nth_error ys idx = Some label ->
      select_counter idx (Some ys) (final_state o)
      = Return label (final_state o)) /\
   (forall e s', o = Raise e s' -> e = IndexError) /\
   ((List.length X <= List.length ys)%nat -> exists s', o = Return tt s')) /\
  (let o := _handle_universal X (Some ys) (prepared_for UNIVERSAL_TAGS ys s) in
   (forall idx label, nth_error ys idx = Some label ->
      select_counter idx (Some ys) (final_state o)
      = Return label (final_state o)) /\
   (forall e s', o = Raise e s' -> e = IndexError) /\
   ((List.length X <= List.length ys)%nat -> exists s', o = Return tt s')).
Proof.
  intros s ys X.
  apply (@stacked_counter_always_found s ys X).
  reflexivity.
Defined.

(** The state [fit] prepares in stacking mode is [prepared_for]. *)
Lemma prepared_stacking (s : PosTagVisualizer) (ys : list string) :
  stack s = true ->
  prepared s (Some ys) = prepared_for (tags_of s) ys s.
Proof.
  intros Hst. unfold prepared, prepared_for, fresh_counts, labels_for.
  now rewrite Hst.
Qed.

(* ===================================================================== *)
(** ** Part-of-speech visualizer: what [fit] returns *)
(* ===================================================================== *)

Lemma bind_return_inv {St A B} (m : M St A) (k : A -> M St B)
      (s s' : St) (b : B) :
  bind m k s = Return b s' ->
  exists a s1, m s = Return a s1 /\ k a s1 = Return b s'.
Proof.
  unfold bind. destruct (m s) as [a s1|e s1]; [eauto | discriminate].
Qed.

Section Surface.
Context {numpy : Np.Argsort}.

Ltac split_matches :=
  repeat (match goal with
          | |- context [match ?x with _ => _ end] =>
              lazymatch x with
              | context [match _ with _ => _ end] => fail
              | _ => destruct x eqn:?
              end
          end; simpl).

(** The surface [draw] returns is the one the object holds afterwards. *)
Lemma draw_returns_surface (s s' : PosTagVisualizer) (a : Axes) :
  draw s = Return a s' -> _ax s' = Some a.
Proof.
  destruct s as [a0 ts fr cm cl st lb pt ct].
  cbv beta iota delta [draw draw_no_rows bind attr ax ax_do get modify ret
                       raise].
  simpl. split_matches; intros H; try discriminate;
    inversion H; subst; reflexivity.
Qed.

(** [fit] returns the object itself, just drawn. *)
Lemma fit_returns_self (X : corpus) (y : option (list string))
      (s r s' : PosTagVisualizer) :
  fit X y s = Return r s' ->
  r = s' /\ exists a s0, draw s0 = Return a s'.
Proof.
  unfold fit. intros H.
  apply bind_return_inv in H. destruct H as [_ [s1 [_ H]]].
  apply bind_return_inv in H. destruct H as [s2 [s3 [_ H]]].
  apply bind_return_inv in H. destruct H as [_ [s4 [_ H]]].
  apply bind_return_inv in H. destruct H as [_ [s5 [_ H]]].
  apply bind_return_inv in H. destruct H as [a [s6 [Hd H]]].
  unfold get in H. injection H as <- <-. eauto.
Qed.

End Surface.

Section Exhausted.
Context {numpy : Np.Argsort}.

Lemma fresh_counts_same_options (s t : PosTagVisualizer)
      (y : option (list string)) :
  same_options s t -> fresh_counts t y = fresh_counts s y.
Proof.
  intros [Hts [_ [Hst _]]].
  unfold fresh_counts, labels_for, tags_of. now rewrite Hts, Hst.
Qed.

(** The options are the same after a [fit] that returns. *)
Lemma fit_same_options (X : corpus) (y : option (list string))
      (s r s' : PosTagVisualizer) :
  valid_tagset s -> fit X y s = Return r s' -> same_options s s'.
Proof.
  intros Hts Hfit.
  destruct (@fit_hands_over numpy X y s r s' Hts Hfit)
    as [s0 [a [c [_ [Hd [Hopt _]]]]]].
  pose proof (draw_frame s0) as Hfr. rewrite Hd in Hfr. simpl in Hfr.
  destruct Hfr as [Hopt' _]. eapply same_options_trans; eauto.
Qed.

(** Once [fit] has returned, a [fit] of the object to a corpus without
    documents returns as well, and leaves the all-zero counters. *)
Lemma fit_nothing_after (X : corpus) (y : option (list string))
      (s r1 s1 : PosTagVisualizer) :
  valid_tagset s ->
  fit X y s = Return r1 s1 ->
  exists s2, fit [] y s1 = Return s2 s2 /\
             pos_tag_counts_ s2 = Some (fresh_counts s y).
Proof.
  intros Hts Hfit.
  pose proof (fit_same_options _ _ Hts Hfit) as Hopt.
  assert (Hy : stack s = true -> y <> None).
  { intros Hst ->. rewrite (@fit_without_y numpy X s Hst) in Hfit.
    discriminate. }
  destruct (@fit_hands_over numpy X y s r1 s1 Hts Hfit)
    as [s0 [a [ca [_ [Hda [Hopt_a [Hca [Ht_a [Hl_a [Hk_a _]]]]]]]]]].
  assert (Hts1 : valid_tagset s1).
  { destruct Hopt as [Ht1 _]. unfold valid_tagset. now rewrite Ht1. }
  assert (Hy1 : stack s1 = true -> y <> None).
  { destruct Hopt as [_ [_ [Hs1 _]]]. now rewrite Hs1. }
  rewrite (@fit_unfold numpy [] y s1 Hts1 Hy1).
  pose proof (counted_state [] y s1) as Hcb.
  assert (Hsb : counted [] y s1
                = Return tt (set_pos_tag_counts_ (fresh_counts s1 y)
                                                 (prepared s1 y)))
    by reflexivity.
  rewrite Hsb in *. set (sb := set_pos_tag_counts_ _ _) in *.
  simpl in Hcb. destruct Hcb as [Hopt_b [Hl_b [Ht_b [_ [cb [Hcb Hk_b]]]]]].
  assert (Hfresh : fresh_counts s1 y = fresh_counts s y)
    by now apply fresh_counts_same_options.
  assert (Hcb' : cb = fresh_counts s y).
  { unfold sb in Hcb. simpl in Hcb. congruence. }
  assert (Hret : exists b s2, draw sb = Return b s2).
  { destruct (dict_values cb) as [|r0 rs] eqn:Hv.
    - assert (Hva : dict_values ca = []).
      { destruct Hk_a as [Hka _]. destruct Hk_b as [Hkb _].
        rewrite Hfresh in Hkb. rewrite <- Hkb in Hka.
        destruct cb; [| discriminate]. destruct ca; [reflexivity | discriminate]. }
      destruct (@draw_no_groups numpy s0 ca _ _ Hca Hva Ht_a Hl_a) as [_ Hneed].
      destruct (Hneed _ _ Hda) as [Hf Hst].
      destruct (@draw_no_groups numpy sb cb _ _ Hcb Hv Ht_b Hl_b) as [Hgo _].
      destruct Hgo as [a' Ha'].
      + destruct Hopt_b as [_ [Hf_b _]]. destruct Hopt as [_ [Hf_1 _]].
        destruct Hopt_a as [_ [Hf_a _]]. congruence.
      + destruct Hopt_b as [_ [_ [Hs_b _]]]. destruct Hopt as [_ [_ [Hs_1 _]]].
        destruct Hopt_a as [_ [_ [Hs_a _]]]. congruence.
      + eauto.
    - assert (Hne : dict_values cb <> []) by (rewrite Hv; discriminate).
      destruct (frequency sb) eqn:Hf.
      + destruct (@draw_sorts_columns numpy sb cb (tags_of s1)
                    (labels_for s1 y) _ Hf Hcb Ht_b Hl_b Hk_b
                    (NoDup_tags_of s1) Hne) as [tags' [a' [Hd _]]].
        eauto.
      + erewrite draw_plain; eauto.
        eapply regular_rows; eauto using NoDup_tags_of. }
  destruct Hret as [b [s2 Hdb]]. rewrite Hdb. exists s2. split; [reflexivity |].
  pose proof (draw_frame sb) as Hfb. rewrite Hdb in Hfb. simpl in Hfb.
  destruct Hfb as [_ [_ [Hc_2 _]]]. congruence.
Qed.

End Exhausted.

End PosTagDrawing.

(* ===================================================================== *)
(** ** Classification report *)
(* ===================================================================== *)

Module ClassificationReportFacts.
Import Py PyFacts ClassificationReport.

(** [x in {None, True, False, "percent", "count"}]: by Python's equality
    the integers 1 and 0 are [True] and [False]. *)
Lemma py_in_support_options (x : pyval) :
  py_in x SUPPORT_OPTIONS = true <->
  In x SUPPORT_OPTIONS \/ x = PyInt 1 \/ x = PyInt 0.
Proof.
  unfold py_in, SUPPORT_OPTIONS. split.
  - destruct x as [|b|n|str]; cbn [existsb py_eq In].
    + auto.
    + destruct b; auto 6.
    + rewrite !orb_false_r. cbn [orb]. intros H. apply orb_true_iff in H.
      destruct H as [H|H]; apply Z.eqb_eq in H; subst; auto.
    + rewrite !orb_false_r. cbn [orb]. intros H. apply orb_true_iff in H.
      destruct H as [H|H]; apply String.eqb_eq in H; subst; auto 7.
  - intros [H | [-> | ->]]; [| reflexivity | reflexivity].
    cbn [In] in H.
    repeat (destruct H as [<-|H]; [reflexivity |]). destruct H.
Qed.

Section Report.
Context {float Data Target Estimator Colormap : Type}.
Context {env : Collaborators float Data Target Estimator Colormap}.

Local Abbreviation ClassificationReport :=
  (ClassificationReport.ClassificationReport float Estimator Colormap).
Local Abbreviation Axes := (ClassificationReport.Axes float Colormap).
Local Abbreviation ax_call := (ClassificationReport.ax_call float Colormap).

(** C5. For every construction in which the base class accepts the model
    and the colormap exists: a [support] argument outside
    [{None, True, False, "percent", "count"}] makes the constructor raise
    the validation error, so that no visualizer exists to be fitted; for
    every value inside the set the constructor returns a visualizer, on
    which nothing has been fitted yet. *)
Theorem init_validates_support :
  forall (model : Estimator) (ax0 : option Axes)
         (classes0 : option (list string)) (cmap0 : string)
         (support0 : pyval) (is_fitted0 : fitted_option) (cm : Colormap),
    check_classifier model = None ->
    color_sequence cmap0 = inr cm ->
    (py_in support0 SUPPORT_OPTIONS = false ->
     __init__ model ax0 classes0 cmap0 support0 is_fitted0
     = inl (YellowbrickValueError
              ("'" ++ py_str support0
                   ++ "' is an invalid argument for support, use None, True, "
                   ++ "False, 'percent', or 'count'")%string)) /\
    (py_in support0 SUPPORT_OPTIONS = true ->
     exists v : ClassificationReport,
       __init__ model ax0 classes0 cmap0 support0 is_fitted0 = inr v /\
       support v = support0 /\ estimator v = model /\
       _displayed_scores v
       = (if truthy support0 then SCORES_KEYS
          else ["precision"; "recall"; "f1"]) /\
       classes_ v = None /\ support_score_ v = None /\
       scores_ v = None /\ score_ v = None) /\
    (In support0 SUPPORT_OPTIONS -> py_in support0 SUPPORT_OPTIONS = true).
Proof.
  intros model ax0 classes0 cmap0 support0 is_fitted0 cm Hm Hc.
  unfold __init__. rewrite Hm, Hc. split; [| split].
  - intros ->. reflexivity.
  - intros ->. cbn [negb].
    destruct (truthy support0); simpl; eexists; repeat split.
  - intros H. apply py_in_support_options. now left.
Qed.

End Report.

(** *** What [draw] leaves alone *)

Section Frame.
Context {float Data Target Estimator Colormap : Type}.
Context {env : Collaborators float Data Target Estimator Colormap}.

Local Abbreviation ClassificationReport :=
  (ClassificationReport.ClassificationReport float Estimator Colormap).
Local Abbreviation Axes := (ClassificationReport.Axes float Colormap).
Local Abbreviation ax_call := (ClassificationReport.ax_call float Colormap).

(** Two states of a report that differ at most in the drawing surface. *)
Definition same_but_ax (s t : ClassificationReport) : Prop :=
  estimator t = estimator s /\ classes t = classes s /\
  is_fitted t = is_fitted s /\ support t = support s /\ cmap t = cmap s /\
  _displayed_scores t = _displayed_scores s /\ classes_ t = classes_ s /\
  support_score_ t = support_score_ s /\ scores_ t = scores_ s /\
  score_ t = score_ s.

Lemma same_but_ax_refl (s : ClassificationReport) : same_but_ax s s.
Proof. unfold same_but_ax. tauto. Qed.

Lemma same_but_ax_trans (s t u : ClassificationReport) :
  same_but_ax s t -> same_but_ax t u -> same_but_ax s u.
Proof. unfold same_but_ax. intuition congruence. Qed.

(** A computation that writes to the drawing surface only. *)
Definition keeps {A} (m : M ClassificationReport A) : Prop :=
  forall s, same_but_ax s (final_state (m s)).

Lemma keeps_ret {A} (a : A) : keeps (ret a).
Proof. intros s. apply same_but_ax_refl. Qed.

Lemma keeps_raise {A} (e : exn) : keeps (@raise ClassificationReport A e).
Proof. intros s. apply same_but_ax_refl. Qed.

Lemma keeps_attr {A} (name : string) (proj : ClassificationReport -> option A) :
  keeps (attr name proj).
Proof. intros s. unfold attr. destruct (proj s); apply same_but_ax_refl. Qed.

Lemma keeps_bind {A B} (m : M ClassificationReport A)
      (k : A -> M ClassificationReport B) :
  keeps m -> (forall a, keeps (k a)) -> keeps (bind m k).
Proof.
  intros Hm Hk s. unfold bind. specialize (Hm s).
  destruct (m s) as [a s'|e s']; simpl in *; [| assumption].
  eapply same_but_ax_trans; [exact Hm | apply Hk].
Qed.

Lemma keeps_get_bind {B} (k : ClassificationReport -> M ClassificationReport B) :
  (forall a, keeps (k a)) -> keeps (bind get k).
Proof. intros Hk s. unfold bind, get. apply Hk. Qed.

Lemma keeps_for_each {A} (xs : list A) (body : A -> M ClassificationReport unit) :
  (forall x, keeps (body x)) -> keeps (for_each xs body).
Proof.
  intros Hb. induction xs as [|x xs IH]; simpl; [apply keeps_ret |].
  apply keeps_bind; auto.
Qed.

Lemma keeps_for_enumerate {A} (xs : list A)
      (body : nat -> A -> M ClassificationReport unit) :
  (forall i x, keeps (body i x)) -> keeps (for_enumerate xs body).
Proof.
  intros Hb. unfold for_enumerate. generalize 0%nat.
  induction xs as [|x xs IH]; simpl; intros i; [apply keeps_ret |].
  apply keeps_bind; auto.
Qed.

Lemma keeps_map_m {A B} (f : A -> M ClassificationReport B) (xs : list A) :
  (forall x, keeps (f x)) -> keeps (map_m f xs).
Proof.
  intros Hf. induction xs as [|x xs IH]; simpl; [apply keeps_ret |].
  apply keeps_bind; [apply Hf |]. intros b.
  apply keeps_bind; [exact IH |]. intros bs. apply keeps_ret.
Qed.

Lemma keeps_ax : keeps ax.
Proof.
  intros s. unfold ax, bind, get, modify, ret.
  destruct (_ax s); simpl; unfold same_but_ax; simpl; tauto.
Qed.

Lemma keeps_ax_do (c : ax_call) : keeps (ax_do c).
Proof.
  unfold ax_do. apply keeps_bind; [apply keeps_ax |].
  intros a s. unfold modify, same_but_ax. simpl. tauto.
Qed.

Lemma keeps_lookup_score (metric cls : string) : keeps (lookup_score metric cls).
Proof.
  unfold lookup_score. apply keeps_bind; [apply keeps_attr |].
  intros scores. destruct (dict_get metric scores) as [per_class|];
    [| apply keeps_raise].
  destruct (dict_get cls per_class); [apply keeps_ret | apply keeps_raise].
Qed.

Lemma keeps_draw : keeps draw.
Proof.
  unfold draw. apply keeps_bind; [apply keeps_attr |]. intros classes.
  apply keeps_get_bind. intros s.
  apply keeps_bind.
  { apply keeps_map_m. intros cls. apply keeps_map_m. intros metric.
    apply keeps_lookup_score. }
  intros cr_display.
  repeat (apply keeps_bind; [apply keeps_ax_do | intros _]).
  apply keeps_bind.
  { apply keeps_for_enumerate. intros x row.
    apply keeps_for_enumerate. intros y value.
    apply keeps_bind; [| intros svalue; apply keeps_ax_do].
    destruct (Nat.eqb y 3 && negb (py_eq (support s) (PyStr PERCENT)));
      [| apply keeps_ret].
    apply keeps_bind; [apply keeps_attr |]. intros counts.
    destruct (nth_error counts x); [apply keeps_ret | apply keeps_raise]. }
  intros _.
  repeat (apply keeps_bind; [apply keeps_ax_do | intros _]).
  apply keeps_ax.
Qed.

End Frame.

(** *** [score] *)

Section Scoring.
Context {float Data Target Estimator Colormap : Type}.
Context {env : Collaborators float Data Target Estimator Colormap}.

Local Abbreviation ClassificationReport :=
  (ClassificationReport.ClassificationReport float Estimator Colormap).
Local Abbreviation Axes := (ClassificationReport.Axes float Colormap).
Local Abbreviation ax_call := (ClassificationReport.ax_call float Colormap).

(** The per-class mappings [score] stores; the support entry holds the
    counts divided by their total, and is dropped when [support] is
    falsy. *)
Definition report (classes : list string) (precision recall f1 : list float)
           (counts : list Z) (with_support : bool) : dict (dict float) :=
  let percent := map (fun n => true_divide n (sum counts)) counts in
  [("precision", dict_of (zip classes precision));
   ("recall", dict_of (zip classes recall));
   ("f1", dict_of (zip classes f1))]
  ++ (if with_support then [("support", dict_of (zip classes percent))]
      else []).

(** [score], call by call. *)
Lemma score_eq (v : ClassificationReport) (X : Data) (y : Target) :
  score X y v
  = match est_predict (estimator v) X with
    | inl e => Raise e v
    | inr y_pred =>
        match precision_recall_fscore_support y y_pred with
        | inl e => Raise e v
        | inr (precision, recall, f1, counts) =>
            match classes_ v with
            | None =>
                Raise (AttributeError "classes_") (set_support_score_ counts v)
            | Some classes =>
                match draw (set_scores_
                              (report classes precision recall f1 counts
                                      (truthy (support v)))
                              (set_support_score_ counts v)) with
                | Raise e s => Raise e s
                | Return _ drawn =>
                    match est_score (estimator drawn) X y with
                    | inl e => Raise e drawn
                    | inr value => Return value (set_score_ value drawn)
                    end
                end
            end
        end
    end.
Proof.
  cbv beta iota zeta delta [score bind get modify ret raise call attr].
  destruct (est_predict (estimator v) X) as [e|y_pred]; [reflexivity |].
  destruct (precision_recall_fscore_support y y_pred)
    as [e|[[[precision recall] f1] counts]]; [reflexivity |].
  cbn [classes_ set_support_score_].
  destruct (classes_ v) as [classes|]; [| reflexivity].
  cbn [support set_scores_ set_support_score_ scores_].
  unfold report. generalize (@draw float Estimator Colormap). intros d.
  destruct (truthy (support v)); simpl;
    match goal with
    | |- ?L = ?R =>
        match L with
        | context [d ?m1] =>
            match R with
            | context [d ?m2] =>
                change m1 with m2; destruct (d m2) as [a drawn|e drawn]
            end
        end
    end;
    try reflexivity;
    destruct (est_score (estimator drawn) X y); reflexivity.
Qed.


End Scoring.

(** *** A small world to run the report in

    Floats are rationals, a feature matrix is a list of numbers, a target
    vector a list of labels, and an estimator predicts the label it was
    fitted to (the first one of the training targets). *)

Definition count_if {A} (p : A -> bool) (l : list A) : Z :=
  Z.of_nat (List.length (filter p l)).

Definition ratio (n d : Z) : Q :=
  if (d <=? 0)%Z then Qmake 0 1 else Qmake n (Z.to_pos d).

Definition toy_scores (y y_pred : list string)
  : list Q * list Q * list Q * list Z :=
  let classes := np_unique (y ++ y_pred) in
  let pairs := combine y y_pred in
  let tp c := count_if (fun p => (fst p =? c)%string && (snd p =? c)%string)
                       pairs in
  let actual c := count_if (String.eqb c) y in
  let predicted c := count_if (String.eqb c) y_pred in
  (map (fun c => ratio (tp c) (predicted c)) classes,
   map (fun c => ratio (tp c) (actual c)) classes,
   map (fun c => ratio (2 * tp c) (actual c + predicted c)) classes,
   map actual classes).

(** The split keeps the order of the data; it refuses arrays of
    different lengths, and a training part that would be empty. *)
Definition toy_split (X : list Z) (y : list string) (test_size : Q)
           (random_state : option Z)
  : exn + (list Z * list Z * list string * list string) :=
  let n := Z.of_nat (List.length X) in
  let n_test := (n * Qnum test_size + Zpos (Qden test_size) - 1)
                / Zpos (Qden test_size) in
  let n_train := Z.to_nat (n - n_test) in
  if negb (Nat.eqb (List.length X) (List.length y)) then inl ValueError
  else if Nat.eqb n_train 0 then inl ValueError
  else inr (firstn n_train X, skipn n_train X,
            firstn n_train y, skipn n_train y).

#[local] Instance toy
  : Collaborators Q (list Z) (list string) (option string)
                  (string * string * string) :=
  {| est_fit := fun _ _ y kwargs =>
       (* as the estimators of scikit-learn, whose [fit] takes no
          keyword argument it does not know *)
       match kwargs with
       | [] => inr (Some (hd "" y))
       | _ :: _ => inl TypeError
       end;
     est_predict := fun e X =>
       match e with
       | Some label => inr (map (fun _ => label) X)
       | None => inl (External "NotFittedError")
       end;
     est_score := fun e _ y =>
       match e with
       | Some label => inr (ratio (count_if (String.eqb label) y)
                                  (Z.of_nat (List.length y)))
       | None => inl (External "NotFittedError")
       end;
     est_classes := fun e =>
       match e with
       | Some label => [label]
       | None => []
       end;
     check_fitted := fun e _ =>
       inr match e with
           | Some _ => true
           | None => false
           end;
     unique_labels := np_unique;
     precision_recall_fscore_support := fun y y_pred =>
       inr (toy_scores y y_pred);
     true_divide := ratio;
     train_test_split := toy_split;
     color_sequence := fun name =>
       if (name =? "")%string
       then inl (YellowbrickValueError "not a colormap")
       else inr (name, "", "");
     set_over := fun color cm => (fst (fst cm), color, snd cm);
     set_under := fun color cm => (fst (fst cm), snd (fst cm), color);
     check_classifier := fun _ => None |}.

Lemma init_validates_support_witness :
  let support0 := PyStr "invalid" in
  (py_in support0 SUPPORT_OPTIONS = false ->
   __init__ (env := toy) None None None "YlOrRd" support0 Auto
   = inl (YellowbrickValueError
            ("'" ++ py_str support0
                 ++ "' is an invalid argument for support, use None, True, "
                 ++ "False, 'percent', or 'count'")%string)) /\
  (py_in support0 SUPPORT_OPTIONS = true ->
   exists v : ClassificationReport Q (option string) (string * string * string),
     __init__ (env := toy) None None None "YlOrRd" support0 Auto = inr v /\
     support v = support0 /\ estimator v = None /\
     _displayed_scores v
     = (if truthy support0 then SCORES_KEYS
        else ["precision"; "recall"; "f1"]) /\
     classes_ v = None /\ support_score_ v = None /\
     scores_ v = None /\ score_ v = None) /\
  (In support0 SUPPORT_OPTIONS -> py_in support0 SUPPORT_OPTIONS = true).
Proof.
  intros support0.
  apply (@init_validates_support _ _ _ _ _ toy None None None "YlOrRd"
                                 support0 Auto ("YlOrRd", "", "")).
  - reflexivity.
  - reflexivity.
Defined.

Example init_support_examples :
  (exists m, __init__ (env := toy) None None None "YlOrRd" (PyStr "invalid") Auto
             = inl (YellowbrickValueError m)) /\
  (forall x, In x SUPPORT_OPTIONS ->
             exists v, __init__ (env := toy) None None None "YlOrRd" x Auto
                       = inr v).
Proof.
  split; [eexists; reflexivity |].
  intros x Hx. cbn [In SUPPORT_OPTIONS] in Hx.
  repeat (destruct Hx as [<-|Hx]; [eexists; reflexivity |]). destruct Hx.
Qed.

(** A report on a fitted estimator that always answers "a". *)
Definition fitted_report (support0 : pyval)
  : ClassificationReport Q (option string) (string * string * string) :=
  {| estimator := Some "a"; _ax := None; classes := None;
     is_fitted := Auto; support := support0;
     cmap := ("YlOrRd", CMAP_OVERCOLOR, CMAP_UNDERCOLOR);
     _displayed_scores := if truthy support0 then SCORES_KEYS
                          else ["precision"; "recall"; "f1"];
     classes_ := Some ["a"; "b"]; support_score_ := None;
     scores_ := None; score_ := None |}.

Definition toy_X : list Z := [1; 2; 3; 4].
Definition toy_y : list string := ["a"; "b"; "a"; "a"].

Example score_on_toy_data :
  match score (env := toy) toy_X toy_y (fitted_report (PyBool true)) with
  | Return r v' =>
      (r, support_score_ v',
       option_map (fun d => option_map (@dict_values Q) (dict_get "support" d))
                  (scores_ v'))
  | Raise _ v' => (Qmake 0 1, None, None)
  end
  = (Qmake 3 4, Some [3; 1], Some (Some [Qmake 3 4; Qmake 1 4])).
Proof. vm_compute. reflexivity. Qed.


(* ===================================================================== *)
(** ** Classification report: when [score] returns *)
(* ===================================================================== *)

Section Returning.
Context {float Data Target Estimator Colormap : Type}.
Context {env : Collaborators float Data Target Estimator Colormap}.

Local Abbreviation ClassificationReport :=
  (ClassificationReport.ClassificationReport float Estimator Colormap).
Local Abbreviation Axes := (ClassificationReport.Axes float Colormap).
Local Abbreviation ax_call := (ClassificationReport.ax_call float Colormap).

(** A computation that, from any state like [base] but for the drawing
    surface, returns a value satisfying [Q] in such a state again. *)
Definition runs (base : ClassificationReport) {A} (Q : A -> Prop)
           (m : M ClassificationReport A) : Prop :=
  forall s, same_but_ax base s ->
            exists a s', m s = Return a s' /\ same_but_ax base s' /\ Q a.

Lemma runs_ret (base : ClassificationReport) {A} (Q : A -> Prop) (a : A) :
  Q a -> runs base Q (ret a).
Proof. intros Hq s Hs. exists a, s. auto. Qed.

Lemma runs_bind (base : ClassificationReport) {A B}
      (P : A -> Prop) (Q : B -> Prop)
      (m : M ClassificationReport A) (k : A -> M ClassificationReport B) :
  runs base P m -> (forall a, P a -> runs base Q (k a)) ->
  runs base Q (bind m k).
Proof.
  intros Hm Hk s Hs. destruct (Hm s Hs) as [a [s1 [Hms [Hs1 Hp]]]].
  unfold bind. rewrite Hms. now apply Hk.
Qed.

Lemma runs_get_bind (base : ClassificationReport) {B} (Q : B -> Prop)
      (k : ClassificationReport -> M ClassificationReport B) :
  (forall s0, same_but_ax base s0 -> runs base Q (k s0)) ->
  runs base Q (bind get k).
Proof. intros Hk s Hs. unfold bind, get. now apply (Hk s Hs). Qed.

Lemma runs_weaken (base : ClassificationReport) {A} (P Q : A -> Prop)
      (m : M ClassificationReport A) :
  runs base P m -> (forall a, P a -> Q a) -> runs base Q m.
Proof.
  intros Hm Hpq s Hs. destruct (Hm s Hs) as [a [s1 [Hms [Hs1 Hp]]]].
  exists a, s1. auto.
Qed.

Lemma runs_ax_do (base : ClassificationReport) (c : ax_call) :
  runs base (fun _ => True) (ax_do c).
Proof.
  intros s Hs. unfold ax_do, ax, bind, get, modify, ret.
  destruct (_ax s); simpl; eexists; eexists;
    (split; [reflexivity |]); (split; [| exact I]);
    unfold same_but_ax in *; simpl; tauto.
Qed.

Lemma runs_ax (base : ClassificationReport) : runs base (fun _ => True) ax.
Proof.
  intros s Hs. unfold ax, bind, get, modify, ret.
  destruct (_ax s); simpl; eexists; eexists;
    (split; [reflexivity |]); (split; [| exact I]);
    unfold same_but_ax in *; simpl; tauto.
Qed.

Lemma runs_map_m (base : ClassificationReport) {A B}
      (f : A -> M ClassificationReport B) (xs : list A) :
  (forall x, In x xs -> runs base (fun _ => True) (f x)) ->
  runs base (fun bs => List.length bs = List.length xs) (map_m f xs).
Proof.
  induction xs as [|x xs IH]; simpl; intros Hf.
  - now apply runs_ret.
  - eapply runs_bind; [apply Hf; now left |]. intros b _.
    eapply runs_bind; [apply IH; intros; apply Hf; now right |].
    intros bs Hbs. apply runs_ret. simpl. now rewrite Hbs.
Qed.

Lemma runs_for_enumerate_from (base : ClassificationReport) {A}
      (body : nat -> A -> M ClassificationReport unit) (xs : list A) :
  forall start,
    (forall i x, (start <= i < start + List.length xs)%nat ->
                 runs base (fun _ => True) (body i x)) ->
    runs base (fun _ => True) (for_enumerate_from start xs body).
Proof.
  induction xs as [|x xs IH]; simpl; intros start Hb.
  - now apply runs_ret.
  - eapply runs_bind; [apply Hb; lia |]. intros _ _.
    apply IH. intros i x' Hi. apply Hb. lia.
Qed.

Lemma zip_keys {A} (ks : list string) (vs : list A) :
  (List.length ks <= List.length vs)%nat -> map fst (zip ks vs) = ks.
Proof.
  revert vs. induction ks as [|k ks IH]; intros [|v vs]; simpl; intros H;
    try reflexivity; try lia.
  f_equal. apply IH. lia.
Qed.

Lemma dict_of_zip_get {A} (ks : list string) (vs : list A) (k : string) :
  In k ks -> (List.length ks <= List.length vs)%nat ->
  exists v, dict_get k (dict_of (zip ks vs)) = Some v.
Proof.
  intros Hin Hlen. apply dict_get_In_keys. unfold dict_of.
  apply PosTagFacts.dict_of_keys_In. left. now rewrite zip_keys.
Qed.

(** The scores the report displays: as the constructor sets them. *)
Definition displays (v : ClassificationReport) : Prop :=
  _displayed_scores v
  = if truthy (support v) then SCORES_KEYS else ["precision"; "recall"; "f1"].

(** [draw] returns once [score] has stored values for every class. *)
Lemma draw_returns (base : ClassificationReport)
      (classes : list string) (precision recall f1 : list float)
      (counts : list Z) :
  displays base ->
  classes_ base = Some classes ->
  scores_ base
  = Some (report classes precision recall f1 counts (truthy (support base))) ->
  support_score_ base = Some counts ->
  (List.length classes <= List.length precision)%nat ->
  (List.length classes <= List.length recall)%nat ->
  (List.length classes <= List.length f1)%nat ->
  (List.length classes <= List.length counts)%nat ->
  runs base (fun _ => True) draw.
Proof.
  intros Hdisp Hcls Hsc Hsup Hp Hr Hf Hc.
  assert (Hattr : forall {A} name (proj : ClassificationReport -> option A) a,
             proj base = Some a ->
             (forall s, same_but_ax base s -> proj s = proj base) ->
             runs base (fun x => x = a) (attr name proj)).
  { intros A name proj a Ha Hsame s Hs. unfold attr.
    rewrite (Hsame s Hs), Ha. eauto. }
  assert (Hlookup : forall metric cls,
             In metric (_displayed_scores base) -> In cls classes ->
             runs base (fun _ => True) (lookup_score metric cls)).
  { intros metric cls Hm Hcl. unfold lookup_score.
    eapply runs_bind.
    - apply (Hattr _ "scores_" scores_ _ Hsc).
      intros s [_ [_ [_ [_ [_ [_ [_ [_ [H _]]]]]]]]]. exact H.
    - intros scores ->. rewrite Hdisp in Hm. unfold report.
      assert (Hlen : (List.length classes
                      <= List.length (map (fun n => true_divide n (sum counts))
                                          counts))%nat)
        by now rewrite length_map.
      destruct (truthy (support base)); cbn [In SCORES_KEYS] in Hm;
        repeat (destruct Hm as [<-|Hm];
                [cbn;
                 match goal with
                 | |- context [dict_get cls (dict_of (zip classes ?vs))] =>
                     destruct (@dict_of_zip_get _ classes vs cls Hcl) as [v ->];
                     [assumption | now apply runs_ret]
                 end |]);
        destruct Hm. }
  unfold draw.
  eapply runs_bind.
  { apply (Hattr _ "classes_" classes_ _ Hcls).
    intros s [_ [_ [_ [_ [_ [_ [H _]]]]]]]. exact H. }
  intros cls0 ->.
  apply runs_get_bind. intros s0 Hs0.
  assert (Hds : _displayed_scores s0 = _displayed_scores base)
    by (destruct Hs0 as [_ [_ [_ [_ [_ [H _]]]]]]; exact H).
  assert (Hss : support s0 = support base)
    by (destruct Hs0 as [_ [_ [_ [H _]]]]; exact H).
  assert (Hcm : cmap s0 = cmap base)
    by (destruct Hs0 as [_ [_ [_ [_ [H _]]]]]; exact H).
  rewrite Hds, Hss, Hcm. clear s0 Hs0 Hds Hss Hcm.
  eapply runs_bind.
  { apply runs_map_m. intros cls Hcl.
    eapply runs_weaken; [| intros; exact I].
    apply runs_map_m. intros metric Hm. now apply Hlookup. }
  intros cr_display Hlen. cbv beta in Hlen.
  eapply runs_bind; [apply runs_ax_do | intros _ _].
  eapply runs_bind; [apply runs_ax_do | intros _ _].
  eapply runs_bind.
  { unfold for_enumerate. apply runs_for_enumerate_from. intros x row Hx.
    unfold for_enumerate. apply runs_for_enumerate_from. intros y value _.
    apply (@runs_bind base _ _ (fun _ => True) (fun _ => True));
      [| intros svalue _; apply runs_ax_do].
    destruct (Nat.eqb y 3 && negb (py_eq (support base) (PyStr PERCENT)));
      [| apply runs_ret; exact I].
    apply (@runs_bind base _ _ (fun cs => cs = counts) (fun _ => True)).
    - apply (Hattr _ "support_score_" support_score_ _ Hsup).
      intros s [_ [_ [_ [_ [_ [_ [_ [H _]]]]]]]]. exact H.
    - intros cs ->. destruct (nth_error counts x) eqn:Hn;
        [apply runs_ret; exact I |].
      apply nth_error_None in Hn. lia. }
  intros _ _.
  eapply runs_bind; [apply runs_ax_do | intros _ _].
  eapply runs_bind; [apply runs_ax_do | intros _ _].
  apply runs_ax.
Qed.

(** [score] returns, with the estimator's score, whenever the estimator
    and scikit-learn answer, the report displays what its constructor
    set, and scikit-learn reports on at least as many classes as
    [classes_] names. *)
Lemma score_returns (v : ClassificationReport) (X : Data) (y y_pred : Target)
      (classes : list string) (precision recall f1 : list float)
      (counts : list Z) (value : float) :
  displays v ->
  est_predict (estimator v) X = inr y_pred ->
  precision_recall_fscore_support y y_pred
  = inr (precision, recall, f1, counts) ->
  classes_ v = Some classes ->
  (List.length classes <= List.length precision)%nat ->
  (List.length classes <= List.length recall)%nat ->
  (List.length classes <= List.length f1)%nat ->
  (List.length classes <= List.length counts)%nat ->
  est_score (estimator v) X y = inr value ->
  exists v', score X y v = Return value v'.
Proof.
  intros Hdisp Hpred Hprfs Hcls Hp Hr Hf Hc Hscore.
  rewrite score_eq, Hpred, Hprfs, Hcls.
  set (mid := set_scores_ _ _).
  assert (Hruns : runs mid (fun _ => True) draw).
  { apply (@draw_returns mid classes precision recall f1 counts); trivial;
      reflexivity. }
  destruct (Hruns mid (same_but_ax_refl mid)) as [a [drawn [Hd [Hsame _]]]].
  rewrite Hd. destruct Hsame as [Hest _].
  rewrite Hest. cbn [estimator mid set_scores_ set_support_score_].
  rewrite Hscore. eauto.
Qed.

End Returning.

End ClassificationReportFacts.

(* ===================================================================== *)
(** ** Part-of-speech visualizer: what a fit counts *)
(* ===================================================================== *)

Module PosTagCounting.
Import Py PyFacts PosTag PosTagFacts NpFacts PosTagDrawing.

Lemma fresh_counts_zero (s : PosTagVisualizer) (y : option (list string))
      (l k : string) :
  In l (labels_for s y) -> In k (tags_of s) ->
  count_at (fresh_counts s y) l k = Some 0.
Proof.
  intros Hl Hk. unfold count_at, fresh_counts, dict_comprehension.
  rewrite (comprehension_get (fun _ => zero_counter (tags_of s))) by assumption.
  now apply zero_counter_get.
Qed.

Section Counting.
Context {numpy : Np.Argsort}.

(** The counters a returning [fit] leaves are those of the run over the
    tokens of the corpus, started from the all-zero counters. *)
Lemma fit_counts_run (X : corpus) (y : option (list string))
      (s r s' : PosTagVisualizer) :
  valid_tagset s ->
  fit X y s = Return r s' ->
  exists c : dict (dict Z),
    pos_tag_counts_ s' = Some c /\
    run_pure (token_pure (keyfn_of s) (stack s) y) (corpus_tokens X)
             (fresh_counts s y) = inr c.
Proof.
  intros Hts Hfit.
  destruct (@fit_hands_over numpy X y s r s' Hts Hfit)
    as [s0 [a [c [Hcount [Hd [_ [Hc _]]]]]]].
  pose proof (draw_frame s0) as Hfr. rewrite Hd in Hfr. simpl in Hfr.
  destruct Hfr as [_ [_ [Hsame _]]].
  exists c. split; [congruence |].
  unfold counted in Hcount. apply with_counts_return in Hcount.
  destruct Hcount as [c' [Hrun ->]]. simpl in Hc. congruence.
Qed.

(** The count of every category of every group after a returning [fit]. *)
Lemma fit_count_at (X : corpus) (y : option (list string))
      (s r s' : PosTagVisualizer) (c : dict (dict Z)) (l k : string) :
  valid_tagset s ->
  fit X y s = Return r s' ->
  pos_tag_counts_ s' = Some c ->
  In l (labels_for s y) -> In k (tags_of s) ->
  count_at c l k
  = Some (Z.of_nat (hits (keyfn_of s) (stack s) y l k (corpus_tokens X))).
Proof.
  intros Hts Hfit Hc Hl Hk.
  destruct (fit_counts_run _ _ Hts Hfit) as [c' [Hc' Hrun]].
  assert (c' = c) by congruence. subst c'.
  rewrite (@run_pure_count _ _ _ _ _ _ Hrun), (@fresh_counts_zero s y l k Hl Hk).
  reflexivity.
Qed.

(** X2. Whenever [fit] returns, on a visualizer with one of the two
    tagsets, [pos_tag_counts_] has one counter per group label and the
    counter of every group holds, for every category of the tagset, the
    number of tokens in the documents of that group that the handler sends
    to that category: nothing is left from an earlier fit and no token is
    counted twice. *)
Theorem fit_counts_by_category :
  forall (X : corpus) (y : option (list string))
         (s r s' : PosTagVisualizer),
    valid_tagset s ->
    fit X y s = Return r s' ->
    exists c : dict (dict Z),
      pos_tag_counts_ s' = Some c /\
      (forall l, In l (dict_keys c) <-> In l (labels_for s y)) /\
      forall l k, In l (labels_for s y) -> In k (tags_of s) ->
        count_at c l k
        = Some (Z.of_nat (hits (keyfn_of s) (stack s) y l k (corpus_tokens X))).
Proof.
  intros X y s r s' Hts Hfit.
  destruct (fit_counts_run _ _ Hts Hfit) as [c [Hc Hrun]].
  exists c. split; [assumption |]. split.
  - intros l.
    pose proof (run_pure_keyed (keyfn_of s) (stack s) y (corpus_tokens X)
                               (fresh_counts_keyed s y)) as Hk.
    rewrite Hrun in Hk. destruct Hk as [-> _]. apply fresh_counts_labels.
  - intros l k Hl Hk. eapply fit_count_at; eauto.
Qed.

(** The exact-tag table of [_handle_universal] has no entry for the
    category "infinitive". *)
Lemma jump_get_not_infinitive (tag : string) : jump_get tag <> "infinitive".
Proof. unfold jump_get, jump. simpl. branches; discriminate. Qed.

(** X4. The Universal Dependencies tagset lists a category "infinitive",
    but no tag is ever sent to it: after every returning [fit] with that
    tagset, the "infinitive" count of every group is zero. *)
Theorem universal_never_counts_infinitive :
  forall (X : corpus) (y : option (list string))
         (s r s' : PosTagVisualizer) (c : dict (dict Z)) (l : string),
    tagset s = "universal" ->
    fit X y s = Return r s' ->
    pos_tag_counts_ s' = Some c ->
    In l (labels_for s y) ->
    count_at c l "infinitive" = Some 0.
Proof.
  intros X y s r s' c l Hts Hfit Hc Hl.
  rewrite (@fit_count_at X y s r s' c l "infinitive"); trivial.
  - f_equal. unfold hits.
    rewrite (@filter_ext _ _ (fun _ => false)); [now rewrite filter_false |].
    intros tok. unfold hit, keyfn_of, universal_keyfn. rewrite Hts. simpl.
    destruct (snd tok =? "SPACE")%string; [reflexivity |].
    destruct (doc_label (stack s) y (fst tok)); [| reflexivity].
    destruct (String.eqb_spec (jump_get (snd tok)) "infinitive") as [E|_];
      [| reflexivity].
    now apply jump_get_not_infinitive in E.
  - now right.
  - unfold tags_of. rewrite Hts. simpl. tauto.
Qed.

End Counting.

(** A two-sentence corpus in Universal Dependencies tags, as spaCy
    produces them: the infinitive marker is tagged "PART". *)
Definition infinitive_corpus : corpus :=
  [[[("to", "PART"); ("run", "VERB")]; [("dogs", "NOUN")]]].

Definition counting_visualizer : PosTagVisualizer :=
  {| _ax := None; tagset := "universal"; frequency := false;
     colormap := None; colors := None; stack := false;
     labels_ := None; _pos_tags := None; pos_tag_counts_ := None |}.

Definition counted_visualizer : PosTagVisualizer :=
  final_state (fit (numpy := insertion) infinitive_corpus None
                   counting_visualizer).

Lemma fit_counts_by_category_witness :
  exists c : dict (dict Z),
    pos_tag_counts_ counted_visualizer = Some c /\
    (forall l, In l (dict_keys c) <-> In l ["documents"]) /\
    forall l k, In l ["documents"] -> In k UNIVERSAL_TAGS ->
      count_at c l k
      = Some (Z.of_nat (hits universal_keyfn false None l k
                             (corpus_tokens infinitive_corpus))).
Proof.
  apply (@fit_counts_by_category insertion infinitive_corpus None
                                 counting_visualizer counted_visualizer
                                 counted_visualizer).
  - right. reflexivity.
  - vm_compute. reflexivity.
Defined.

Lemma universal_never_counts_infinitive_witness :
  count_at [("documents",
             dict_set "noun" 1
               (dict_set "verb" 1
                  (dict_set "adverb" 1 (zero_counter UNIVERSAL_TAGS))))]
           "documents" "infinitive" = Some 0.
Proof.
  apply (@universal_never_counts_infinitive
           insertion infinitive_corpus None counting_visualizer
           counted_visualizer counted_visualizer).
  - reflexivity.
  - vm_compute. reflexivity.
  - vm_compute. reflexivity.
  - now left.
Defined.

(** *** Every counted token is counted once *)

(** The number the title of the chart reports: the sum of all counts. *)
Definition total_count (c : dict (dict Z)) : Z :=
  PosTagFinish.py_sum
    (map (fun i => PosTagFinish.py_sum (dict_values i)) (dict_values c)).

Lemma py_sum_fold_right (xs : list Z) :
  PosTagFinish.py_sum xs = fold_right Z.add 0 xs.
Proof.
  unfold PosTagFinish.py_sum.
  assert (H : forall a, fold_left Z.add xs a = a + fold_right Z.add 0 xs).
  { induction xs as [|x xs IH]; simpl; intros a; [lia |]. rewrite IH. lia. }
  apply H.
Qed.

(** Replacing the value of a key that is present changes a sum over the
    values by the difference. *)
Lemma sum_values_set {V} (f : V -> Z) (k : string) (v v' : V) (d : dict V) :
  dict_get k d = Some v ->
  fold_right Z.add 0 (map f (dict_values (dict_set k v' d)))
  = fold_right Z.add 0 (map f (dict_values d)) - f v + f v'.
Proof.
  induction d as [|[k0 v0] d IH]; simpl; [discriminate |].
  destruct (k0 =? k)%string; simpl.
  - intros [= ->]. lia.
  - intros H. rewrite (IH H). lia.
Qed.

Lemma increment_pure_total (l k : string) (c c' : dict (dict Z)) :
  increment_pure l k c = inr c' -> total_count c' = total_count c + 1.
Proof.
  unfold increment_pure. destruct (dict_get l c) as [cn|] eqn:Hl; [| discriminate].
  destruct (dict_get k cn) as [n|] eqn:Hk; [| discriminate].
  intros [= <-]. unfold total_count. rewrite !py_sum_fold_right.
  rewrite (@sum_values_set _ (fun i => PosTagFinish.py_sum (dict_values i))
                           l cn (dict_set k (n + 1) cn) c Hl).
  rewrite !py_sum_fold_right.
  rewrite <- (map_id (dict_values (dict_set k (n + 1) cn))).
  rewrite (@sum_values_set _ (fun z => z) k n (n + 1) cn Hk).
  rewrite map_id. lia.
Qed.

(** Whether a handler counts a token at all. *)
Definition is_counted (keyfn : string -> option string) (tok : nat * string)
  : bool :=
  match keyfn (snd tok) with
  | Some _ => true
  | None => false
  end.

Lemma token_pure_total (keyfn : string -> option string) (st : bool)
      (y : option (list string)) (tok : nat * string) (c c' : dict (dict Z)) :
  token_pure keyfn st y tok c = inr c' ->
  total_count c' = total_count c + (if is_counted keyfn tok then 1 else 0).
Proof.
  unfold token_pure, is_counted. destruct (keyfn (snd tok)) as [key|].
  - destruct (select_pure st y (fst tok) c) as [e|l0]; [discriminate |].
    apply increment_pure_total.
  - intros [= <-]. lia.
Qed.

Lemma run_pure_total (keyfn : string -> option string) (st : bool)
      (y : option (list string)) (toks : list (nat * string)) :
  forall c c', run_pure (token_pure keyfn st y) toks c = inr c' ->
    total_count c'
    = total_count c + Z.of_nat (List.length (filter (is_counted keyfn) toks)).
Proof.
  induction toks as [|tok toks IH]; simpl; intros c c' Hr.
  - injection Hr as <-. lia.
  - destruct (token_pure keyfn st y tok c) as [e|c1] eqn:Ht; [discriminate |].
    rewrite (IH _ _ Hr), (token_pure_total _ _ _ _ _ Ht).
    destruct (is_counted keyfn tok); simpl List.length; lia.
Qed.

Lemma fresh_counts_total (s : PosTagVisualizer) (y : option (list string)) :
  total_count (fresh_counts s y) = 0.
Proof.
  unfold total_count. rewrite py_sum_fold_right.
  assert (H : forall cn, In cn (dict_values (fresh_counts s y)) ->
                         PosTagFinish.py_sum (dict_values cn) = 0).
  { intros cn Hcn. unfold fresh_counts in Hcn.
    apply comprehension_values_In in Hcn. destruct Hcn as [[_ ->]|[]].
    rewrite zero_counter_values by apply NoDup_tags_of.
    rewrite py_sum_fold_right. induction (List.length (tags_of s)); simpl; lia. }
  induction (dict_values (fresh_counts s y)) as [|cn cs IH]; simpl; [reflexivity |].
  rewrite H by now left. rewrite IH; [reflexivity |].
  intros cn' Hcn'. apply H. now right.
Qed.

Section Totals.
Context {numpy : Np.Argsort}.

Lemma fit_total (X : corpus) (y : option (list string))
      (s r s' : PosTagVisualizer) (c : dict (dict Z)) :
  valid_tagset s ->
  fit X y s = Return r s' ->
  pos_tag_counts_ s' = Some c ->
  total_count c
  = Z.of_nat (List.length (filter (is_counted (keyfn_of s)) (corpus_tokens X))).
Proof.
  intros Hts Hfit Hc.
  destruct (fit_counts_run _ _ Hts Hfit) as [c' [Hc' Hrun]].
  assert (c' = c) by congruence. subst c'.
  rewrite (@run_pure_total _ _ _ _ _ _ Hrun), fresh_counts_total. lia.
Qed.

(** X3. After every returning [fit], the counts of all categories of all
    groups add up to the number of tokens of the corpus when the tagset is
    Penn Treebank, where every token falls in some category, and to the
    number of tokens not tagged "SPACE" when it is Universal
    Dependencies. *)
Theorem fit_counts_every_token :
  forall (X : corpus) (y : option (list string))
         (s r s' : PosTagVisualizer) (c : dict (dict Z)),
    fit X y s = Return r s' ->
    pos_tag_counts_ s' = Some c ->
    (tagset s = "penn_treebank" ->
     total_count c = Z.of_nat (List.length (corpus_tokens X))) /\
    (tagset s = "universal" ->
     total_count c
     = Z.of_nat (List.length
                   (filter (fun tok => negb (snd tok =? "SPACE")%string)
                           (corpus_tokens X)))).
Proof.
  intros X y s r s' c Hfit Hc. split; intros Hts.
  - rewrite (@fit_total X y s r s' c); trivial; [| now left].
    do 2 f_equal. unfold keyfn_of. rewrite Hts. simpl.
    induction (corpus_tokens X) as [|tok toks IH]; simpl; [reflexivity |].
    now rewrite IH.
  - rewrite (@fit_total X y s r s' c); trivial; [| now right].
    do 2 f_equal. unfold keyfn_of. rewrite Hts. simpl.
    apply filter_ext. intros tok. unfold is_counted, universal_keyfn.
    now destruct (snd tok =? "SPACE")%string.
Qed.

End Totals.

Definition spaced_corpus : corpus :=
  [[[("dogs", "NOUN"); (" ", "SPACE"); ("bark", "VERB")]]].

Lemma fit_counts_every_token_witness :
  let s' := final_state (fit (numpy := insertion) spaced_corpus None
                             counting_visualizer) in
  let c := [("documents",
             dict_set "verb" 1
               (dict_set "noun" 1 (zero_counter UNIVERSAL_TAGS)))] in
  (tagset counting_visualizer = "penn_treebank" ->
   total_count c = Z.of_nat (List.length (corpus_tokens spaced_corpus))) /\
  (tagset counting_visualizer = "universal" ->
   total_count c
   = Z.of_nat (List.length
                 (filter (fun tok => negb (snd tok =? "SPACE")%string)
                         (corpus_tokens spaced_corpus)))).
Proof.
  intros s' c.
  apply (@fit_counts_every_token insertion spaced_corpus None
                                 counting_visualizer s' s' c).
  - vm_compute. reflexivity.
  - vm_compute. reflexivity.
Defined.

(** *** The part [y] plays *)

Section Labels.
Context {numpy : Np.Argsort}.

Lemma counted_without_stack (X : corpus) (y : option (list string))
      (s : PosTagVisualizer) :
  stack s = false -> counted X y s = counted X None s.
Proof.
  intros Hst. unfold counted, prepared, fresh_counts, labels_for.
  rewrite Hst. reflexivity.
Qed.

(** X5. Without stacking, [y] is ignored: [fit(X, y)] leaves the object
    in the same state, with the same outcome, as [fit(X)]. *)
Theorem fit_ignores_y_without_stack :
  forall (X : corpus) (y : option (list string)) (s : PosTagVisualizer),
    stack s = false ->
    fit X y s = fit X None s.
Proof.
  intros X y s Hst.
  destruct (String.eqb_spec (tagset s) "penn_treebank") as [Hp|Hp];
    [| destruct (String.eqb_spec (tagset s) "universal") as [Hu|Hu]].
  - rewrite !(@fit_unfold numpy X _ s) by (try (now left); congruence).
    now rewrite counted_without_stack.
  - rewrite !(@fit_unfold numpy X _ s) by (try (now right); congruence).
    now rewrite counted_without_stack.
  - apply String.eqb_neq in Hp, Hu.
    cbv beta iota delta [fit bind modify get ret raise].
    cbn [stack set_labels_ tagset]. rewrite Hst, Hp, Hu. reflexivity.
Qed.

(** X6. [fit] returns, and returns the object itself with its counters
    set, for every corpus when there is no stacking, and with stacking
    whenever [y] is not empty and has a label for every document. *)
Theorem fit_returns_when_labelled :
  forall (X : corpus) (y : option (list string)) (s : PosTagVisualizer),
    valid_tagset s ->
    (stack s = true ->
     exists ys, y = Some ys /\ ys <> [] /\
                (List.length X <= List.length ys)%nat) ->
    exists (s' : PosTagVisualizer) (c : dict (dict Z)),
      fit X y s = Return s' s' /\ pos_tag_counts_ s' = Some c.
Proof.
  intros X y s Hts Hy.
  destruct (@fit_returns numpy X y s Hts) as [s' Hfit].
  - intros Hst. destruct (Hy Hst) as [ys [-> [_ Hlen]]]. eauto.
  - unfold labels_for. destruct (stack s) eqn:Hst; [| discriminate].
    destruct (Hy eq_refl) as [ys [-> [Hne _]]].
    destruct ys as [|l ys]; [contradiction |].
    intros Hnil.
    assert (Hin : In l (np_unique (l :: ys))) by (apply np_unique_In; now left).
    rewrite Hnil in Hin. destruct Hin.
  - destruct (fit_counts_run _ _ Hts Hfit) as [c [Hc _]]. eauto.
Qed.

(** A run stops with [IndexError] at the first counted token whose
    document has no label. *)
Lemma run_pure_unlabelled (keyfn : string -> option string)
      (ys labels tags : list string) (toks : list (nat * string)) :
  (forall l, In l ys -> In l labels) ->
  (forall tok k, In tok toks -> keyfn (snd tok) = Some k -> In k tags) ->
  (exists tok, In tok toks /\ is_counted keyfn tok = true /\
               (List.length ys <= fst tok)%nat) ->
  forall c, keyed labels tags c ->
    exists c', run_pure (token_pure keyfn true (Some ys)) toks c
               = inl (IndexError, c').
Proof.
  intros Hys. induction toks as [|tok toks IH]; intros Htags Hbad c Hk.
  - destruct Hbad as [tok [[] _]].
  - simpl. unfold token_pure at 1. unfold is_counted in *.
    destruct (keyfn (snd tok)) as [key|] eqn:Hkey.
    + unfold select_pure.
      destruct (nth_error ys (fst tok)) as [l|] eqn:Hn; [| eauto].
      assert (Hl : In l labels) by (apply Hys; eapply nth_error_In; eauto).
      pose proof Hk as [Hkeys _]. rewrite <- Hkeys in Hl.
      apply dict_get_In_keys in Hl. destruct Hl as [cn Hcn]. rewrite Hcn.
      destruct (@increment_pure_ok labels tags l key c Hk) as [c1 Hc1].
      * rewrite <- Hkeys. apply dict_get_In_keys. eauto.
      * eapply Htags; [now left | eassumption].
      * rewrite Hc1. apply IH.
        -- intros tok' k' Hin. apply Htags. now right.
        -- destruct Hbad as [bad [[<-|Hin] [Hc Hlen]]]; [| eauto].
           assert (nth_error ys (fst tok) <> None) by congruence.
           apply nth_error_Some in H. lia.
        -- eapply increment_pure_keyed; eauto.
    + apply IH; trivial.
      * intros tok' k' Hin. apply Htags. now right.
      * destruct Hbad as [bad [[<-|Hin] [Hc Hlen]]]; [| eauto].
        rewrite Hkey in Hc. discriminate.
Qed.

(** X7. With stacking, a [y] that is too short makes [fit] raise
    [IndexError]: this happens as soon as a document without a label
    holds a token that the handler counts, and before anything is
    drawn. *)
Theorem fit_unlabelled_document_raises :
  forall (X : corpus) (ys : list string) (s : PosTagVisualizer)
         (tok : nat * string),
    valid_tagset s ->
    stack s = true ->
    In tok (corpus_tokens X) ->
    is_counted (keyfn_of s) tok = true ->
    (List.length ys <= fst tok)%nat ->
    exists s1, fit X (Some ys) s = Raise IndexError s1 /\ _ax s1 = _ax s.
Proof.
  intros X ys s tok Hts Hst Hin Hc Hlen.
  rewrite (@fit_unfold numpy X (Some ys) s Hts) by discriminate.
  pose proof (counted_state X (Some ys) s) as Hcs.
  destruct (@run_pure_unlabelled (keyfn_of s) ys
              (dict_keys (fresh_counts s (Some ys))) (tags_of s)
              (corpus_tokens X)) with (c := fresh_counts s (Some ys))
    as [c' Hrun].
  - intros l Hl. apply fresh_counts_labels. unfold labels_for.
    rewrite Hst. now apply np_unique_In.
  - intros tok' k' _. apply keyfn_of_in_tags.
  - eauto.
  - apply fresh_counts_keyed.
  - unfold counted in *. rewrite Hst in *. rewrite Hrun in *. simpl in *.
    eexists. split; [reflexivity |]. reflexivity.
Qed.

(** X8. [fit] itself does not check the tagset: on an object whose
    [tagset] is neither of the two names, it counts nothing, whatever the
    corpus, and goes on to [draw]; the counters are left as they were, and
    if there were none yet, the outcome is an [AttributeError]. *)
Theorem fit_unknown_tagset_counts_nothing :
  forall (X : corpus) (y : option (list string)) (s : PosTagVisualizer),
    tagset s <> "penn_treebank" ->
    tagset s <> "universal" ->
    pos_tag_counts_ (final_state (fit X y s)) = pos_tag_counts_ s /\
    ((stack s = true -> y <> None) ->
     pos_tag_counts_ s = None ->
     exists s1, fit X y s = Raise (AttributeError "pos_tag_counts_") s1).
Proof.
  intros X y s Hp Hu. apply String.eqb_neq in Hp, Hu.
  assert (Hfit : fit X y s
                 = if stack s then
                     match y with
                     | None => Raise (YellowbrickValueError
                                        "Specify y for stack=True")
                                     (set_labels_ ["documents"] s)
                     | Some ys =>
                         match draw (set_labels_ (np_unique ys) s) with
                         | Return _ s2 => Return s2 s2
                         | Raise e s2 => Raise e s2
                         end
                     end
                   else
                     match draw (set_labels_ ["documents"] s) with
                     | Return _ s2 => Return s2 s2
                     | Raise e s2 => Raise e s2
                     end).
  { cbv beta iota delta [fit bind modify get ret raise].
    cbn [stack set_labels_ tagset]. rewrite Hp, Hu.
    destruct (stack s); [destruct y as [ys|] |]; cbn [stack set_labels_ tagset];
      try reflexivity;
      match goal with
      | |- context [draw ?m] => destruct (draw m); reflexivity
      end. }
  assert (Hdraw : forall l,
             pos_tag_counts_
               (final_state match draw (set_labels_ l s) with
                            | Return _ s2 => Return s2 s2
                            | Raise e s2 => Raise e s2
                            end) = pos_tag_counts_ s).
  { intros l. pose proof (draw_frame (set_labels_ l s)) as Hfr.
    destruct (draw (set_labels_ l s)); simpl in *; apply Hfr. }
  split.
  - rewrite Hfit. destruct (stack s); [destruct y |]; try apply Hdraw.
    reflexivity.
  - intros Hy Hnone. rewrite Hfit.
    assert (Hd : forall l, draw (set_labels_ l s)
                           = Raise (AttributeError "pos_tag_counts_")
                                   (set_labels_ l s)).
    { intros l. unfold draw, bind, attr. simpl. now rewrite Hnone. }
    destruct (stack s); [destruct y as [ys|] |].
    + rewrite Hd. eauto.
    + now destruct Hy.
    + rewrite Hd. eauto.
Qed.

End Labels.

Definition retagged_visualizer : PosTagVisualizer :=
  {| _ax := None; tagset := "brown"; frequency := false;
     colormap := None; colors := None; stack := false;
     labels_ := None; _pos_tags := None; pos_tag_counts_ := None |}.

Lemma fit_unknown_tagset_counts_nothing_witness :
  pos_tag_counts_ (final_state (fit (numpy := insertion) spaced_corpus None
                                    retagged_visualizer))
  = None /\
  ((stack retagged_visualizer = true -> @None (list string) <> None) ->
   pos_tag_counts_ retagged_visualizer = None ->
   exists s1, fit (numpy := insertion) spaced_corpus None retagged_visualizer
              = Raise (AttributeError "pos_tag_counts_") s1).
Proof.
  apply (@fit_unknown_tagset_counts_nothing insertion spaced_corpus None
                                            retagged_visualizer).
  - discriminate.
  - discriminate.
Defined.

Lemma fit_ignores_y_without_stack_witness :
  fit (numpy := insertion) spaced_corpus (Some ["pos"]) counting_visualizer
  = fit (numpy := insertion) spaced_corpus None counting_visualizer.
Proof.
  apply (@fit_ignores_y_without_stack insertion spaced_corpus (Some ["pos"])
                                      counting_visualizer).
  reflexivity.
Defined.

Definition stacked_counting_visualizer : PosTagVisualizer :=
  {| _ax := None; tagset := "universal"; frequency := false;
     colormap := None; colors := None; stack := true;
     labels_ := None; _pos_tags := None; pos_tag_counts_ := None |}.

Definition two_spaced_documents : corpus :=
  [[[("dogs", "NOUN")]]; [[(" ", "SPACE")]; [("bark", "VERB")]]].

Lemma fit_returns_when_labelled_witness :
  exists (s' : PosTagVisualizer) (c : dict (dict Z)),
    fit (numpy := insertion) two_spaced_documents (Some ["pos"; "neg"])
        stacked_counting_visualizer = Return s' s' /\
    pos_tag_counts_ s' = Some c.
Proof.
  apply (@fit_returns_when_labelled insertion two_spaced_documents
                                    (Some ["pos"; "neg"])
                                    stacked_counting_visualizer).
  - right. reflexivity.
  - intros _. exists ["pos"; "neg"]. split; [reflexivity |].
    split; [discriminate | simpl; lia].
Defined.

Lemma fit_unlabelled_document_raises_witness :
  exists s1,
    fit (numpy := insertion) two_spaced_documents (Some ["pos"])
        stacked_counting_visualizer = Raise IndexError s1 /\
    _ax s1 = _ax stacked_counting_visualizer.
Proof.
  apply (@fit_unlabelled_document_raises insertion two_spaced_documents
                                         ["pos"] stacked_counting_visualizer
                                         (1%nat, "VERB")).
  - right. reflexivity.
  - reflexivity.
  - simpl. auto.
  - reflexivity.
  - simpl. lia.
Defined.

(** *** The constructor *)

Section Constructing.
Context {numpy : Np.Argsort}.

(** X1. The constructor accepts the tagsets "penn_treebank" and
    "universal" and no other: for any other name it raises the validation
    error that names the two, and the visualizer it returns otherwise
    holds the options as given, has nothing fitted yet and, unless it
    stacks, can be fitted to every corpus. *)
Theorem init_validates_tagset :
  forall (ax0 : option Axes) (tagset0 : string)
         (colormap0 colors0 : option string) (frequency0 stack0 : bool),
    match __init__ ax0 tagset0 colormap0 colors0 frequency0 stack0 with
    | inr v =>
        (tagset0 = "penn_treebank" \/ tagset0 = "universal") /\
        v = {| _ax := ax0; tagset := tagset0; frequency := frequency0;
               colormap := colormap0; colors := colors0; stack := stack0;
               labels_ := None; _pos_tags := None; pos_tag_counts_ := None |} /\
        (stack0 = false ->
         forall (X : corpus) (y : option (list string)),
           exists v', fit X y v = Return v' v')
    | inl e =>
        tagset0 <> "penn_treebank" /\ tagset0 <> "universal" /\
        e = YellowbrickValueError
              ("'" ++ tagset0 ++ "' is an invalid tagset. Please choose one of "
                   ++ "penn_treebank, universal.")
    end.
Proof.
  intros ax0 tagset0 colormap0 colors0 frequency0 stack0.
  unfold __init__, TAGSET_NAMES. cbn [dict_get].
  assert (Hfit : tagset0 = "penn_treebank" \/ tagset0 = "universal" ->
                 stack0 = false ->
                 forall (X : corpus) (y : option (list string)),
                 exists v',
                   fit X y
                       {| _ax := ax0; tagset := tagset0;
                          frequency := frequency0; colormap := colormap0;
                          colors := colors0; stack := stack0;
                          labels_ := None; _pos_tags := None;
                          pos_tag_counts_ := None |} = Return v' v').
  { intros Hts -> X y. apply fit_returns.
    - exact Hts.
    - intros Hst. discriminate.
    - discriminate. }
  destruct (String.eqb_spec "penn_treebank" tagset0) as [Hp|Hp].
  - split; [auto |]. split; [reflexivity |]. apply Hfit. auto.
  - destruct (String.eqb_spec "universal" tagset0) as [Hu|Hu].
    + split; [auto |]. split; [reflexivity |]. apply Hfit. auto.
    + repeat split; congruence.
Qed.

End Constructing.

(** *** What [fit] raises *)

(** With stacking and a [y], a run over counters that have a group for
    every label of [y] can stop with [IndexError] only. *)
Lemma run_pure_stacked_exn (keyfn : string -> option string)
      (ys labels tags : list string) (toks : list (nat * string)) :
  (forall l, In l ys -> In l labels) ->
  (forall tok k, In tok toks -> keyfn (snd tok) = Some k -> In k tags) ->
  forall c e c',
    keyed labels tags c ->
    run_pure (token_pure keyfn true (Some ys)) toks c = inl (e, c') ->
    e = IndexError.
Proof.
  intros Hys. induction toks as [|tok toks IH]; intros Htags c e c' Hk;
    simpl; [discriminate |].
  destruct (token_pure keyfn true (Some ys) tok c) as [e0|c1] eqn:Ht.
  - intros [= <- <-]. unfold token_pure in Ht.
    destruct (keyfn (snd tok)) as [key|] eqn:Hkey; [| discriminate].
    unfold select_pure in Ht.
    destruct (nth_error ys (fst tok)) as [l|] eqn:Hn; [| congruence].
    assert (Hl : In l labels) by (apply Hys; eapply nth_error_In; eauto).
    destruct (@increment_pure_ok labels tags l key c Hk Hl) as [c1 Hc1];
      [eapply Htags; [now left | eassumption] |].
    pose proof Hk as [Hkeys _]. rewrite <- Hkeys in Hl.
    apply dict_get_In_keys in Hl. destruct Hl as [cn Hcn].
    rewrite Hcn in Ht. congruence.
  - apply IH.
    + intros tok' k' Hin. apply Htags. now right.
    + eapply token_pure_keyed; eauto.
Qed.

Section Raising.
Context {numpy : Np.Argsort}.

(** [draw] returns on the object a handler has got through, once there
    is a group. *)
Lemma draw_counted_returns (X : corpus) (y : option (list string))
      (s s1 : PosTagVisualizer) :
  counted X y s = Return tt s1 -> labels_for s y <> [] ->
  exists a s2, draw s1 = Return a s2.
Proof.
  intros Hs1 Hne.
  destruct (counted_state X y s) as [_ [Hl [Ht [_ [c1 [Hc1 Hk]]]]]].
  rewrite Hs1 in *. simpl in Hl, Ht, Hc1.
  assert (Hv : dict_values c1 <> []).
  { apply (keyed_values_nonempty Hk). intros Hnil. apply Hne.
    destruct (labels_for s y) as [|l ls] eqn:E; [reflexivity |].
    assert (Hin : In l (dict_keys (fresh_counts s y)))
      by (apply fresh_counts_labels; rewrite E; now left).
    rewrite Hnil in Hin. destruct Hin. }
  destruct (frequency s1) eqn:Hf.
  - destruct (@draw_sorts_columns numpy s1 c1 (tags_of s)
                (labels_for s y) _ Hf Hc1 Ht Hl Hk (NoDup_tags_of s) Hv)
      as [tags' [a' [Hd _]]].
    eauto.
  - erewrite draw_plain; eauto.
    eapply regular_rows; eauto using NoDup_tags_of.
Qed.

(** X26. On a visualizer with one of the two tagsets, and the plotting
    calls of [draw] being taken to succeed (they are recorded on the
    surface, and have no failure here), [fit] fails over [y] only.
    Without stacking it does not raise; with stacking it raises the
    validation error when [y] is missing and, for a [y] that is not empty,
    nothing but [IndexError], and that only when [y] is shorter than the
    corpus: a label of [y] always has its counter and a key of the handler
    always has its count, so that [KeyError] never arises. *)
Theorem fit_raises_only_for_y :
  forall (X : corpus) (y : option (list string))
         (s s1 : PosTagVisualizer) (e : exn),
    valid_tagset s ->
    fit X y s = Raise e s1 ->
    stack s = true /\
    ((y = None /\ e = YellowbrickValueError "Specify y for stack=True") \/
     (exists ys, y = Some ys /\
                 (ys = [] \/
                  (e = IndexError /\ (List.length ys < List.length X)%nat)))).
Proof.
  intros X y s s1 e Hts Hfit.
  destruct (stack s) eqn:Hst.
  - split; [reflexivity |]. destruct y as [ys|].
    + right. exists ys. split; [reflexivity |].
      destruct ys as [|l0 ys0]; [now left | right].
      set (ys := l0 :: ys0) in *.
      assert (Hlab : labels_for s (Some ys) = np_unique ys)
        by (unfold labels_for; now rewrite Hst).
      assert (Hne : labels_for s (Some ys) <> []).
      { rewrite Hlab. intros Hnil.
        assert (Hin : In l0 (np_unique ys)) by (apply np_unique_In; now left).
        rewrite Hnil in Hin. destruct Hin. }
      destruct (le_lt_dec (List.length X) (List.length ys)) as [Hle|Hlt].
      * destruct (@fit_returns numpy X (Some ys) s Hts) as [s' Hs'];
          [intros _; eauto | assumption | congruence].
      * split; [| assumption].
        rewrite (@fit_unfold numpy X (Some ys) s Hts) in Hfit
          by discriminate.
        destruct (counted X (Some ys) s) as [[] sa|e0 sa] eqn:Hcount.
        -- destruct (draw_counted_returns _ _ _ Hcount Hne) as [a [s2 Hd]].
           rewrite Hd in Hfit. discriminate.
        -- injection Hfit as <- <-. unfold counted in Hcount.
           destruct (run_pure _ _ _) as [[e1 c1]|c1] eqn:Hrun;
             [| discriminate].
           simpl in Hcount. injection Hcount as <- _.
           rewrite Hst in Hrun.
           eapply (@run_pure_stacked_exn (keyfn_of s) ys
                     (dict_keys (fresh_counts s (Some ys))) (tags_of s));
             [| | apply fresh_counts_keyed | exact Hrun].
           ++ intros l Hl. apply fresh_counts_labels. rewrite Hlab.
              now apply np_unique_In.
           ++ intros tok k _. apply keyfn_of_in_tags.
    + left. rewrite (@fit_without_y numpy X s Hst) in Hfit.
      injection Hfit as <- _. auto.
  - exfalso.
    destruct (@fit_returns numpy X y s Hts) as [s' Hs'].
    + intros Hst'. congruence.
    + unfold labels_for. rewrite Hst. discriminate.
    + congruence.
Qed.

End Raising.

Lemma fit_raises_only_for_y_witness :
  let o := fit (numpy := insertion) two_spaced_documents (Some ["pos"])
               stacked_counting_visualizer in
  stack stacked_counting_visualizer = true /\
  ((Some ["pos"] = None /\
    IndexError = YellowbrickValueError "Specify y for stack=True") \/
   (exists ys, Some ["pos"] = Some ys /\
               (ys = [] \/
                (IndexError = IndexError /\
                 (List.length ys < List.length two_spaced_documents)%nat)))).
Proof.
  intros o.
  apply (@fit_raises_only_for_y insertion two_spaced_documents (Some ["pos"])
                                stacked_counting_visualizer (final_state o)
                                IndexError).
  - right. reflexivity.
  - vm_compute. reflexivity.
Defined.

(** *** Fitting twice *)

Section Twice.
Context {numpy : Np.Argsort}.

(** [fit] on a list or a generator, for a tagset the constructor
    admits: the handler goes through what [X] yields. *)
Lemma fit_iterable_eq (X : iterable) (y : option (list string))
      (s : PosTagVisualizer) :
  valid_tagset s ->
  fit_iterable X y s
  = match fit (yields X) y s with
    | Return self s' => Return (self, exhausted X) s'
    | Raise e s' => Raise e s'
    end.
Proof.
  intros Hts. unfold fit_iterable, bind, get, ret.
  destruct (fit (yields X) y s); [| reflexivity].
  destruct Hts as [-> | ->]; reflexivity.
Qed.

(** C9, amended.  [fit] starts every time from counters that are all
    zero, whatever the object holds from an earlier fit, so that the
    counts it leaves are those of the documents it has gone through.
    Take a visualizer in any state, with a tagset the constructor admits,
    and a corpus given as a list or as a generator.  If [fit] returns, it
    returns the object itself; a list is left as it was and a generator
    is left exhausted; [pos_tag_counts_] has a counter for every group
    label and no other; it is what counting the tokens of the documents,
    one by one, makes of the all-zero counters, so that the count of
    every category of every group is the number of tokens that fall in
    it; and a second [fit] on the same [X] returns as well, its plotting
    calls succeeding as those of the first did: for a list it leaves
    these very counts, and for a generator, which has nothing left to
    yield, it leaves the all-zero counters. *)
Theorem fit_twice_same_counts :
  forall (X X1 : iterable) (y : option (list string))
         (s r1 s1 : PosTagVisualizer),
    valid_tagset s ->
    fit_iterable X y s = Return (r1, X1) s1 ->
    r1 = s1 /\ X1 = exhausted X /\
    exists c : dict (dict Z),
      pos_tag_counts_ s1 = Some c /\
      (forall l, In l (dict_keys c) <-> In l (labels_for s y)) /\
      run_pure (token_pure (keyfn_of s) (stack s) y)
               (corpus_tokens (yields X)) (fresh_counts s y) = inr c /\
      (forall l k, In l (labels_for s y) -> In k (tags_of s) ->
         count_at (fresh_counts s y) l k = Some 0 /\
         count_at c l k
         = Some (Z.of_nat (hits (keyfn_of s) (stack s) y l k
                                (corpus_tokens (yields X))))) /\
      exists s2 : PosTagVisualizer,
        fit_iterable X1 y s1 = Return (s2, X1) s2 /\
        pos_tag_counts_ s2
        = Some match X with
               | a_list _ => c
               | a_generator _ => fresh_counts s y
               end.
Proof.
  intros X X1 y s r1 s1 Hts Hfit.
  rewrite (fit_iterable_eq _ _ Hts) in Hfit.
  destruct (fit (yields X) y s) as [self s'|e s'] eqn:Hf; [| discriminate].
  injection Hfit as -> <- ->.
  destruct (@fit_again numpy (yields X) y s r1 s1 Hts Hf)
    as [-> [s2 [Hf2 Hsame]]].
  split; [reflexivity |]. split; [reflexivity |].
  destruct (fit_counts_run _ _ Hts Hf) as [c [Hc Hrun]].
  assert (Hts1 : valid_tagset s1).
  { destruct (fit_same_options _ _ Hts Hf) as [Ht1 _].
    unfold valid_tagset. now rewrite Ht1. }
  exists c. split; [assumption |]. split; [| split; [assumption |]; split].
  - intros l.
    pose proof (run_pure_keyed (keyfn_of s) (stack s) y
                               (corpus_tokens (yields X))
                               (fresh_counts_keyed s y)) as Hk.
    rewrite Hrun in Hk. destruct Hk as [-> _]. apply fresh_counts_labels.
  - intros l k Hl Hk. split; [now apply fresh_counts_zero |].
    eapply fit_count_at; eauto.
  - rewrite (fit_iterable_eq _ _ Hts1). destruct X as [docs|pending].
    + exists s2. cbn [yields exhausted] in *. rewrite Hf2.
      split; [reflexivity | congruence].
    + destruct (fit_nothing_after _ _ Hts Hf) as [s3 [Hf3 Hzero]].
      exists s3. cbn [yields exhausted]. rewrite Hf3.
      split; [reflexivity | assumption].
Qed.

End Twice.

(** The fitted visualizer of the example, fitted again to its corpus. *)
Definition refitted_visualizer : PosTagVisualizer :=
  final_state (fit (numpy := insertion) small_corpus None fitted_visualizer).

Lemma fit_twice_same_counts_witness :
  let s := fitted_visualizer in
  let X := a_list small_corpus in
  let o := fit_iterable (numpy := insertion) X None s in
  let r1 := match o with
            | Return (self, _) _ => self
            | Raise _ _ => s
            end in
  let X1 := match o with
            | Return (_, X') _ => X'
            | Raise _ _ => a_generator []
            end in
  let s1 := final_state o in
  r1 = s1 /\ X1 = exhausted X /\
  exists c : dict (dict Z),
    pos_tag_counts_ s1 = Some c /\
    (forall l, In l (dict_keys c) <-> In l (labels_for s None)) /\
    run_pure (token_pure (keyfn_of s) (stack s) None)
             (corpus_tokens (yields X)) (fresh_counts s None) = inr c /\
    (forall l k, In l (labels_for s None) -> In k (tags_of s) ->
       count_at (fresh_counts s None) l k = Some 0 /\
       count_at c l k
       = Some (Z.of_nat (hits (keyfn_of s) (stack s) None l k
                              (corpus_tokens (yields X))))) /\
    exists s2 : PosTagVisualizer,
      fit_iterable (numpy := insertion) X1 None s1 = Return (s2, X1) s2 /\
      pos_tag_counts_ s2
      = Some match X with
             | a_list _ => c
             | a_generator _ => fresh_counts s None
             end.
Proof.
  intros s X o r1 X1 s1.
  apply (@fit_twice_same_counts insertion X X1 None s r1 s1).
  - right. reflexivity.
  - vm_compute. reflexivity.
Defined.

(** The counts of the example are those of its corpus, one noun and two
    verbs, after the first fit and after the second. *)
Example refitted_counts :
  option_map (fun c => (count_at c "documents" "noun",
                        count_at c "documents" "verb"))
             (pos_tag_counts_ fitted_visualizer)
  = Some (Some 1, Some 2) /\
  pos_tag_counts_ refitted_visualizer = pos_tag_counts_ fitted_visualizer.
Proof. vm_compute. split; reflexivity. Qed.

(** C9, as stated, fails for a corpus given as a generator, which the
    docstring of [fit] admits: the first [fit] takes every document the
    generator has, and the second, on the same generator, finds none left
    and leaves every counter at zero. *)
Lemma refit_generator_counts_nothing :
  exists (first second : PosTagVisualizer) (X1 X2 : iterable),
    fit_iterable (numpy := insertion) (a_generator small_corpus) None
                 new_visualizer
    = Return (first, X1) first /\
    fit_iterable (numpy := insertion) X1 None first
    = Return (second, X2) second /\
    option_map (fun c => count_at c "documents" "verb")
               (pos_tag_counts_ first) = Some (Some 2) /\
    option_map (fun c => count_at c "documents" "verb")
               (pos_tag_counts_ second) = Some (Some 0) /\
    pos_tag_counts_ second <> pos_tag_counts_ first.
Proof.
  do 4 eexists. split; [vm_compute; reflexivity |].
  split; [vm_compute; reflexivity |].
  split; [vm_compute; reflexivity |].
  split; [vm_compute; reflexivity |].
  vm_compute. discriminate.
Qed.

End PosTagCounting.

(* ===================================================================== *)
(** ** Part-of-speech visualizer: finishing the chart *)
(* ===================================================================== *)

Module PosTagFinishing.
Import Py PyFacts PosTag PosTagFacts NpFacts PosTagDrawing PosTagCounting.
Import PosTagFinish.

(** The labelling [finalize] gives a chart once its visualizer is fitted. *)
Definition finalize_calls (frequency0 stack0 : bool) (name : string)
           (tags : list string) (total : Z) : list label_call :=
  [set_ylabel "Count";
   set_xlabel (if frequency0
               then name ++ " part-of-speech tags, sorted by frequency"
               else name ++ " part-of-speech tags")]
  ++ (if stack0 then []
      else [set_xticks (seq 0 (List.length tags)); set_xticklabels tags 90])
  ++ [set_title ("PosTag plot for " ++ format_int total ++ "-token corpus")].

Lemma finalize_fitted (v : PosTagVisualizer) (a : Axes) (name : string)
      (tags : list string) (c : dict (dict Z)) (done : list label_call) :
  _ax v = Some a ->
  dict_get (tagset v) TAGSET_NAMES = Some name ->
  _pos_tags v = Some tags ->
  pos_tag_counts_ v = Some c ->
  finalize {| viz := v; labelling := done |}
  = Return tt {| viz := v;
                 labelling := done ++ finalize_calls (frequency v) (stack v)
                                                     name tags (total_count c) |}.
Proof.
  intros Ha Hn Ht Hc. unfold finalize_calls, total_count.
  cbv beta iota zeta delta [finalize label_with tagset_name on_viz bind attr
                            ax get modify ret raise].
  repeat (progress (cbn [negb viz labelling]; rewrite ?Ha, ?Hn, ?Ht, ?Hc)).
  destruct (frequency v);
    repeat (progress (cbn [negb viz labelling]; rewrite ?Ha, ?Hn, ?Ht, ?Hc));
    destruct (stack v);
    repeat (progress (cbn [negb viz labelling]; rewrite ?Ha, ?Hn, ?Ht, ?Hc));
    rewrite <- ?app_assoc; reflexivity.
Qed.

Section Finishing.
Context {numpy : Np.Argsort}.

Ltac split_matches :=
  repeat (match goal with
          | |- context [match ?x with _ => _ end] =>
              lazymatch x with
              | context [match _ with _ => _ end] => fail
              | _ => destruct x eqn:?
              end
          end; simpl).

(** [draw] returns only on an object that has its tags, and leaves it
    with tags. *)
Lemma draw_returns_tags (s s' : PosTagVisualizer) (a : Axes) :
  draw s = Return a s' -> exists tags, _pos_tags s' = Some tags.
Proof.
  destruct s as [a0 ts fr cm cl st lb pt ct].
  cbv beta iota delta [draw draw_no_rows bind attr ax ax_do get modify ret
                       raise].
  simpl. split_matches; intros H; try discriminate;
    inversion H; subst; simpl; eauto.
Qed.

Lemma valid_tagset_name (s : PosTagVisualizer) :
  valid_tagset s -> exists name, dict_get (tagset s) TAGSET_NAMES = Some name.
Proof. intros [-> | ->]; simpl; eauto. Qed.

(** X11. On a chart whose visualizer [fit] has just returned, [finalize]
    returns, leaves the visualizer as it is, and labels the chart: the
    vertical axis "Count", the horizontal axis with the name of the tagset
    (and "sorted by frequency" when that option is on), one tick per tag
    with the tags as tick labels unless the bars are stacked, and a title
    that reports the number of tokens the fit has counted. *)
Theorem finalize_reports_counted_tokens :
  forall (X : corpus) (y : option (list string))
         (s r s' : PosTagVisualizer) (done : list label_call),
    valid_tagset s ->
    fit X y s = Return r s' ->
    exists (name : string) (tags : list string),
      dict_get (tagset s) TAGSET_NAMES = Some name /\
      _pos_tags s' = Some tags /\
      finalize {| viz := s'; labelling := done |}
      = Return tt
          {| viz := s';
             labelling :=
               done ++
               finalize_calls
                 (frequency s) (stack s) name tags
                 (Z.of_nat (List.length (filter (is_counted (keyfn_of s))
                                                (corpus_tokens X)))) |}.
Proof.
  intros X y s r s' done Hts Hfit.
  destruct (@fit_hands_over numpy X y s r s' Hts Hfit)
    as [s0 [a [c [_ [Hd [Hopt0 [Hc0 _]]]]]]].
  pose proof (draw_frame s0) as Hfr. rewrite Hd in Hfr. simpl in Hfr.
  destruct Hfr as [Hopt1 [_ [Hc1 _]]].
  destruct (same_options_trans Hopt0 Hopt1) as [Hts' [Hf' [Hst' _]]].
  destruct (valid_tagset_name Hts) as [name Hn].
  destruct (draw_returns_tags _ Hd) as [tags Ht].
  exists name, tags. split; [assumption |]. split; [assumption |].
  rewrite (@finalize_fitted s' a name tags c done).
  - rewrite Hf', Hst'. now rewrite (@fit_total numpy X y s r s' c) by congruence.
  - eapply draw_returns_surface; eauto.
  - now rewrite Hts'.
  - assumption.
  - congruence.
Qed.

(** The one bar chart an unstacked [fit] draws: a bar per tag of
    [_pos_tags], as high as the count of that tag. *)
Lemma fit_draws_bars (X : corpus) (y : option (list string))
      (s r s' : PosTagVisualizer) :
  valid_tagset s -> stack s = false ->
  fit X y s = Return r s' ->
  exists (tags : list string) (cn : dict Z) (a : Axes),
    pos_tag_counts_ s' = Some [("documents", cn)] /\
    _pos_tags s' = Some tags /\
    _ax s' = Some a /\
    Permutation tags (tags_of s) /\
    (frequency s = true -> Sorted Z.ge (map (lookup0 cn) tags)) /\
    (frequency s = false -> tags = tags_of s) /\
    calls a
    = calls (surface s)
      ++ [bar (seq 0 (List.length tags)) (map (lookup0 cn) tags)
              (List.length tags) (colormap s) (colors s)].
Proof.
  intros Hts Hst Hfit.
  destruct (@fit_hands_over numpy X y s r s' Hts Hfit)
    as [s0 [a [c [Hcount [Hd [Hopt0 [Hc0 [Ht0 [Hl0 [Hk _]]]]]]]]]].
  assert (Hsurf : surface s0 = surface s).
  { pose proof (counted_state X y s) as Hcs. rewrite Hcount in Hcs.
    simpl in Hcs. destruct Hcs as [_ [_ [_ [Hax _]]]].
    unfold surface. now rewrite Hax. }
  pose proof (draw_frame s0) as Hfr. rewrite Hd in Hfr. simpl in Hfr.
  destruct Hfr as [_ [_ [Hc1 _]]].
  destruct Hopt0 as [_ [Hfr0 [Hst0 [Hcm0 Hcl0]]]].
  assert (Hkeys : dict_keys (fresh_counts s y) = ["documents"]).
  { unfold fresh_counts, labels_for. rewrite Hst. reflexivity. }
  rewrite Hkeys in Hk.
  assert (Hcn : exists cn, c = [("documents", cn)]).
  { destruct Hk as [Hk _]. destruct c as [|[k cn] [|p c]]; try discriminate.
    injection Hk as ->. eauto. }
  destruct Hcn as [cn ->].
  assert (Hne : dict_values [("documents", cn)] <> []) by discriminate.
  destruct (frequency s0) eqn:Hf.
  - destruct (@draw_sorts_columns numpy s0 _ (tags_of s) (labels_for s y) _
                Hf Hc0 Ht0 Hl0 Hk (NoDup_tags_of s) Hne)
      as [tags' [a' [Hd' [Hp Hcalls]]]].
    destruct Hcalls as [Hsorted Hcalls]. cbv zeta in Hd', Hcalls.
    rewrite Hd in Hd'. injection Hd' as -> ->.
    exists tags', cn, a'. repeat split; trivial.
    + intros _. erewrite map_ext; [exact Hsorted |].
      intros tag. unfold category_total. simpl. lia.
    + intros Hoff. congruence.
    + rewrite Hcalls, Hst0, Hst, Hcm0, Hcl0, Hsurf. reflexivity.
  - pose proof (@regular_rows _ _ _ Hk (NoDup_tags_of s)) as Hreg.
    pose proof (@draw_plain numpy s0 _ (tags_of s) (labels_for s y)
                            Hf Hc0 Ht0 Hl0 Hne Hreg) as Hd'.
    cbv zeta in Hd'. rewrite Hd in Hd'. injection Hd' as -> ->.
    exists (tags_of s), cn. eexists. repeat split; trivial;
      [intros Hon; congruence |].
    assert (Hrow : dict_values cn = map (lookup0 cn) (tags_of s)).
    { destruct Hk as [_ Hin].
      assert (Hkeys' : dict_keys cn = tags_of s) by (apply Hin; now left).
      rewrite dict_values_lookup; rewrite Hkeys'; auto using NoDup_tags_of. }
    simpl. rewrite Hst0, Hst, Hcm0, Hcl0, Hsurf, <- Hrow. reflexivity.
Qed.

(** X12. After an unstacked [fit], the ticks [finalize] sets are in step
    with the bars [fit] has drawn: there is one tick per bar, and the
    label of each tick is the tag whose count is the height of the bar at
    that tick, also when the bars are sorted by frequency. *)
Theorem finalize_ticks_name_the_bars :
  forall (X : corpus) (y : option (list string))
         (s r s' : PosTagVisualizer) (done : list label_call),
    valid_tagset s -> stack s = false ->
    fit X y s = Return r s' ->
    exists (tags : list string) (cn : dict Z) (a : Axes)
           (before : list ax_call) (labelled : list label_call),
      pos_tag_counts_ s' = Some [("documents", cn)] /\
      _ax s' = Some a /\
      calls a
      = before ++ [bar (seq 0 (List.length tags)) (map (lookup0 cn) tags)
                       (List.length tags) (colormap s) (colors s)] /\
      finalize {| viz := s'; labelling := done |}
      = Return tt {| viz := s'; labelling := done ++ labelled |} /\
      In (set_xticks (seq 0 (List.length tags))) labelled /\
      In (set_xticklabels tags 90) labelled.
Proof.
  intros X y s r s' done Hts Hst Hfit.
  destruct (fit_draws_bars _ _ Hts Hst Hfit)
    as [tags [cn [a [Hc [Ht [Ha [_ [_ [_ Hcalls]]]]]]]]].
  destruct (@fit_hands_over numpy X y s r s' Hts Hfit)
    as [s0 [a0 [c0 [_ [Hd [Hopt0 _]]]]]].
  pose proof (draw_frame s0) as Hfr. rewrite Hd in Hfr. simpl in Hfr.
  destruct Hfr as [Hopt1 _].
  destruct (same_options_trans Hopt0 Hopt1) as [Hts' [_ [Hst' _]]].
  destruct (valid_tagset_name Hts) as [name Hn].
  exists tags, cn, a, (calls (surface s)). eexists.
  split; [assumption |]. split; [assumption |]. split; [assumption |].
  split.
  - apply (@finalize_fitted s' a name tags [("documents", cn)] done); trivial.
    now rewrite Hts'.
  - unfold finalize_calls. rewrite Hst', Hst. simpl.
    split; [right; right; left; reflexivity
           | right; right; right; left; reflexivity].
Qed.

Ltac split_matches_in H :=
  repeat (match type of H with
          | context [match ?x with _ => _ end] =>
              lazymatch x with
              | context [match _ with _ => _ end] => fail
              | _ => destruct x eqn:?
              end
          end; simpl in H; try discriminate H).

(** X10. With [frequency] off, [draw] changes nothing on the visualizer
    but its drawing surface, to which it adds one chart; and drawing again
    adds the very same chart once more. *)
Theorem draw_without_frequency_repeats :
  forall (s s' : PosTagVisualizer) (a : Axes),
    frequency s = false ->
    draw s = Return a s' ->
    s' = set_ax a s /\
    exists chart : ax_call,
      calls a = calls (surface s) ++ [chart] /\
      draw s'
      = Return {| calls := calls a ++ [chart] |}
               (set_ax {| calls := calls a ++ [chart] |} s).
Proof.
  intros s s' a Hf Hd.
  destruct s as [a0 ts fr cm cl st lb pt ct]. simpl in Hf. subst fr.
  unfold surface.
  cbv beta iota delta [draw draw_no_rows bind attr ax ax_do get modify ret
                       raise] in Hd.
  simpl in Hd.
  split_matches_in Hd.
  all: injection Hd as <- <-.
  all: split; [reflexivity |].
  all: eexists; split; [reflexivity |].
  all: cbv beta iota delta [draw draw_no_rows bind attr ax ax_do get modify ret
                            raise]; simpl.
  all: subst.
  all: repeat (match goal with
               | H : ?l = _ |- context [?l] => rewrite H
               end; simpl).
  all: reflexivity.
Qed.

End Finishing.

Section Poof.
Context {V A : Type}.
Variable str : string -> V.
Variable base_poof : option string -> dict V -> M PosTagVisualizer A.

(** X13. [poof] hands over to the [poof] of the base class with the same
    [outpath] and the same keyword arguments, but for [bbox_inches]: when
    an [outpath] is given and the caller has not passed [bbox_inches], it
    is passed as "tight"; a [bbox_inches] of the caller's is never
    replaced, and without [outpath] nothing is added. *)
Theorem poof_sets_bbox_inches_when_saving :
  forall (outpath : option string) (kwargs : dict V),
    exists kwargs' : dict V,
      poof str base_poof outpath kwargs = base_poof outpath kwargs' /\
      (forall key, key <> "bbox_inches" ->
                   dict_get key kwargs' = dict_get key kwargs) /\
      dict_get "bbox_inches" kwargs'
      = match dict_get "bbox_inches" kwargs, outpath with
        | Some v, _ => Some v
        | None, Some _ => Some (str "tight")
        | None, None => None
        end.
Proof.
  intros [path|] kwargs; unfold poof, dict_get_default.
  - eexists. split; [reflexivity |]. split.
    + intros key Hkey. apply dict_get_set_ne. congruence.
    + rewrite dict_get_set_eq. now destruct (dict_get "bbox_inches" kwargs).
  - exists kwargs. split; [reflexivity |]. split; [reflexivity |].
    now destruct (dict_get "bbox_inches" kwargs).
Qed.

End Poof.

Lemma draw_without_frequency_repeats_witness :
  let o := draw (numpy := insertion) counted_visualizer in
  let s' := final_state o in
  let a := PosTagDrawing.surface s' in
  s' = set_ax a counted_visualizer /\
  exists chart : ax_call,
    calls a = calls (PosTagDrawing.surface counted_visualizer) ++ [chart] /\
    draw (numpy := insertion) s'
    = Return {| calls := calls a ++ [chart] |}
             (set_ax {| calls := calls a ++ [chart] |} counted_visualizer).
Proof.
  intros o s' a.
  apply (@draw_without_frequency_repeats insertion counted_visualizer s' a).
  - reflexivity.
  - vm_compute. reflexivity.
Defined.

Definition counting_chart : Chart :=
  {| viz := counted_visualizer; labelling := [] |}.

Lemma finalize_reports_counted_tokens_witness :
  exists (name : string) (tags : list string),
    dict_get (tagset counting_visualizer) TAGSET_NAMES = Some name /\
    _pos_tags counted_visualizer = Some tags /\
    finalize counting_chart
    = Return tt
        {| viz := counted_visualizer;
           labelling :=
             [] ++
             finalize_calls
               (frequency counting_visualizer) (stack counting_visualizer)
               name tags
               (Z.of_nat (List.length
                            (filter (is_counted (keyfn_of counting_visualizer))
                                    (corpus_tokens infinitive_corpus)))) |}.
Proof.
  apply (@finalize_reports_counted_tokens
           insertion infinitive_corpus None counting_visualizer
           counted_visualizer counted_visualizer []).
  - right. reflexivity.
  - vm_compute. reflexivity.
Defined.

(** The title of that chart. *)
Example finalize_title_example :
  match finalize counting_chart with
  | Return _ ch => last (labelling ch) (set_title "")
  | Raise _ _ => set_title ""
  end = set_title "PosTag plot for 3-token corpus".
Proof. vm_compute. reflexivity. Qed.

Lemma finalize_ticks_name_the_bars_witness :
  exists (tags : list string) (cn : dict Z) (a : Axes)
         (before : list ax_call) (labelled : list label_call),
    pos_tag_counts_ fitted_visualizer = Some [("documents", cn)] /\
    _ax fitted_visualizer = Some a /\
    calls a
    = before ++ [bar (seq 0 (List.length tags)) (map (lookup0 cn) tags)
                     (List.length tags) (colormap new_visualizer)
                     (colors new_visualizer)] /\
    finalize {| viz := fitted_visualizer; labelling := [] |}
    = Return tt {| viz := fitted_visualizer; labelling := [] ++ labelled |} /\
    In (set_xticks (seq 0 (List.length tags))) labelled /\
    In (set_xticklabels tags 90) labelled.
Proof.
  apply (@finalize_ticks_name_the_bars
           insertion small_corpus None new_visualizer
           fitted_visualizer fitted_visualizer []).
  - right. reflexivity.
  - reflexivity.
  - vm_compute. reflexivity.
Defined.

(** *** Stacked bars *)

Section Stacked.
Context {numpy : Np.Argsort}.

Lemma fresh_counts_keys (s : PosTagVisualizer) (y : option (list string)) :
  NoDup (labels_for s y) ->
  dict_keys (fresh_counts s y) = labels_for s y.
Proof.
  intros Hnd. unfold fresh_counts, dict_comprehension.
  rewrite comprehension_keys; [reflexivity | assumption |].
  intros k _ [].
Qed.

(** X20. After a stacked [fit], [labels_] lists the distinct labels of
    [y] in ascending order, [pos_tag_counts_] holds one counter per
    label in that same order, and, when [y] is not empty, the stacked
    chart drawn has one row per label, in the order of the labels it is
    given for the legend, each row holding the counts of that label's
    counter for the tags given as ticks. *)
Theorem fit_stacked_rows_follow_labels :
  forall (X : corpus) (ys : list string) (s r s' : PosTagVisualizer),
    valid_tagset s -> stack s = true ->
    fit X (Some ys) s = Return r s' ->
    exists (c : dict (dict Z)) (tags : list string),
      labels_ s' = Some (np_unique ys) /\
      Sorted str_lt (np_unique ys) /\
      (forall l, In l (np_unique ys) <-> In l ys) /\
      pos_tag_counts_ s' = Some c /\
      dict_keys c = np_unique ys /\
      _pos_tags s' = Some tags /\
      (ys <> [] ->
       exists (a : Axes) (before : list ax_call),
         _ax s' = Some a /\
         calls a
         = before ++ [bar_stack (map (fun cn => map (lookup0 cn) tags)
                                     (dict_values c))
                                (np_unique ys) tags (colors s) (colormap s)]).
Proof.
  intros X ys s r s' Hts Hst Hfit.
  destruct (@fit_hands_over numpy X (Some ys) s r s' Hts Hfit)
    as [s0 [a [c [_ [Hd [Hopt0 [Hc0 [Ht0 [Hl0 [Hk _]]]]]]]]]].
  pose proof (draw_frame s0) as Hfr. rewrite Hd in Hfr. simpl in Hfr.
  destruct Hfr as [_ [Hl1 [Hc1 _]]].
  destruct Hopt0 as [_ [_ [Hst0 [Hcm0 Hcl0]]]].
  assert (Hlab : labels_for s (Some ys) = np_unique ys)
    by (unfold labels_for; now rewrite Hst).
  rewrite fresh_counts_keys in Hk by (rewrite Hlab; apply np_unique_NoDup).
  rewrite Hlab in *.
  assert (Htags : exists tags, _pos_tags s' = Some tags)
    by (eapply draw_returns_tags; eauto).
  destruct Htags as [tags Htags].
  exists c, tags.
  split; [congruence |]. split; [apply np_unique_sorted |].
  split; [intros l; apply np_unique_In |]. split; [congruence |].
  split; [apply Hk |]. split; [assumption |].
  intros Hys.
  assert (Hne : dict_values c <> []).
  { apply (keyed_values_nonempty Hk). intros Hnil. destruct ys as [|l ys];
      [contradiction |].
    assert (Hin : In l (np_unique (l :: ys))) by (apply np_unique_In; now left).
    rewrite Hnil in Hin. destruct Hin. }
  destruct (frequency s0) eqn:Hf.
  - destruct (@draw_sorts_columns numpy s0 c (tags_of s) (np_unique ys) _
                Hf Hc0 Ht0 Hl0 Hk (NoDup_tags_of s) Hne)
      as [tags' [a' [Hd' [_ [_ Hcalls]]]]].
    cbv zeta in Hd', Hcalls. rewrite Hd in Hd'. injection Hd' as -> ->.
    simpl in Htags. injection Htags as <-.
    exists a', (calls (surface s0)). split; [reflexivity |].
    rewrite Hcalls, Hst0, Hst, Hcm0, Hcl0. reflexivity.
  - pose proof (@regular_rows _ _ _ Hk (NoDup_tags_of s)) as Hreg.
    pose proof (@draw_plain numpy s0 c (tags_of s) (np_unique ys)
                            Hf Hc0 Ht0 Hl0 Hne Hreg) as Hd'.
    cbv zeta in Hd'. rewrite Hd in Hd'. injection Hd' as -> ->.
    simpl in Htags. rewrite Ht0 in Htags. injection Htags as <-.
    eexists. exists (calls (surface s0)). split; [reflexivity |].
    cbn [calls]. rewrite Hst0, Hst, Hcm0, Hcl0.
    now rewrite (rows_by_tag Hk (NoDup_tags_of s)).
Qed.

End Stacked.

Lemma fit_stacked_rows_follow_labels_witness :
  let s' := final_state (fit (numpy := insertion) two_spaced_documents
                             (Some ["pos"; "neg"])
                             stacked_counting_visualizer) in
  exists (c : dict (dict Z)) (tags : list string),
    labels_ s' = Some (np_unique ["pos"; "neg"]) /\
    Sorted str_lt (np_unique ["pos"; "neg"]) /\
    (forall l, In l (np_unique ["pos"; "neg"]) <-> In l ["pos"; "neg"]) /\
    pos_tag_counts_ s' = Some c /\
    dict_keys c = np_unique ["pos"; "neg"] /\
    _pos_tags s' = Some tags /\
    (["pos"; "neg"] <> [] ->
     exists (a : Axes) (before : list ax_call),
       _ax s' = Some a /\
       calls a
       = before ++ [bar_stack (map (fun cn => map (lookup0 cn) tags)
                                   (dict_values c))
                              (np_unique ["pos"; "neg"]) tags
                              (colors stacked_counting_visualizer)
                              (colormap stacked_counting_visualizer)]).
Proof.
  intros s'.
  apply (@fit_stacked_rows_follow_labels
           insertion two_spaced_documents ["pos"; "neg"]
           stacked_counting_visualizer s' s').
  - right. reflexivity.
  - reflexivity.
  - vm_compute. reflexivity.
Defined.

(** The labels of that chart, and its rows: "neg" before "pos". *)
Example stacked_rows_example :
  let s' := final_state (fit (numpy := insertion) two_spaced_documents
                             (Some ["pos"; "neg"])
                             stacked_counting_visualizer) in
  labels_ s' = Some ["neg"; "pos"] /\
  option_map (fun a => map (firstn 2) (last_bars a)) (_ax s')
  = Some [[0; 1]; [1; 0]].
Proof. vm_compute. split; reflexivity. Qed.

(** *** The quick method, from corpus to chart *)

Section QuickChart.
Context {numpy : Np.Argsort}.

(** The tags and the handler of a tagset name. *)
Definition tags_named (tagset0 : string) : list string :=
  if (tagset0 =? "penn_treebank")%string then PENN_TAGS else UNIVERSAL_TAGS.

Definition keyfn_named (tagset0 : string) : string -> option string :=
  if (tagset0 =? "penn_treebank")%string then treebank_keyfn
  else universal_keyfn.

(** The number of tokens of the corpus that fall in a category. *)
Definition category_count (tagset0 category : string) (X : corpus) : nat :=
  List.length
    (filter (fun tok => match keyfn_named tagset0 (snd tok) with
                        | Some k => (k =? category)%string
                        | None => false
                        end)
            (corpus_tokens X)).

(** What the constructor returns, when it returns. *)
Lemma init_returns (ax0 : option Axes) (tagset0 : string)
      (colormap0 colors0 : option string) (frequency0 stack0 : bool)
      (v : PosTagVisualizer) :
  __init__ ax0 tagset0 colormap0 colors0 frequency0 stack0 = inr v ->
  (tagset0 = "penn_treebank" \/ tagset0 = "universal") /\
  v = {| _ax := ax0; tagset := tagset0; frequency := frequency0;
         colormap := colormap0; colors := colors0; stack := stack0;
         labels_ := None; _pos_tags := None; pos_tag_counts_ := None |}.
Proof.
  unfold __init__, TAGSET_NAMES. cbn [dict_get].
  destruct (String.eqb_spec "penn_treebank" tagset0) as [Hp|Hp].
  - intros [= <-]. auto.
  - destruct (String.eqb_spec "universal" tagset0) as [Hu|Hu];
      [| discriminate].
    intros [= <-]. auto.
Qed.

(** X25. Without stacking, whenever the quick method [postag] returns,
    the tagset is one of the two and the surface returned holds, as its
    last call, one bar chart: a bar per category of the tagset, as high as
    the number of tokens of the corpus in that category, the categories in
    the order of the tagset, or by descending height when [frequency] is
    on.  The calls before it are those the surface held already: the
    calls of [ax] when the caller gives one. *)
Theorem postag_charts_category_counts :
  forall (X : corpus) (y : option (list string)) (ax0 : option Axes)
         (tagset0 : string) (colormap0 colors0 : option string)
         (frequency0 : bool) (chart : Axes),
    postag X y ax0 tagset0 colormap0 colors0 frequency0 false = inr chart ->
    exists (tags : list string) (before : list ax_call),
      (tagset0 = "penn_treebank" \/ tagset0 = "universal") /\
      Permutation tags (tags_named tagset0) /\
      (frequency0 = false -> tags = tags_named tagset0) /\
      (frequency0 = true ->
       Sorted Z.ge (map (fun tag => Z.of_nat (category_count tagset0 tag X))
                        tags)) /\
      calls chart
      = before
        ++ [bar (seq 0 (List.length tags))
                (map (fun tag => Z.of_nat (category_count tagset0 tag X)) tags)
                (List.length tags) colormap0 colors0] /\
      (forall a : Axes, ax0 = Some a -> before = calls a).
Proof.
  intros X y ax0 tagset0 colormap0 colors0 frequency0 chart. unfold postag.
  destruct (__init__ ax0 tagset0 colormap0 colors0 frequency0 false)
    as [e|v] eqn:Hinit; [discriminate |].
  apply init_returns in Hinit. destruct Hinit as [Hts ->].
  set (v := {| _ax := ax0 |}).
  assert (Hv : valid_tagset v) by exact Hts.
  destruct (fit X y v) as [r v'|e v'] eqn:Hfit; [| discriminate].
  destruct (fit_draws_bars _ _ Hv eq_refl Hfit)
    as [tags [cn [a [Hc [Ht [Ha [Hperm [Hsorted [Hplain Hcalls]]]]]]]]].
  assert (Hcount : forall tag, In tag tags ->
                     lookup0 cn tag = Z.of_nat (category_count tagset0 tag X)).
  { intros tag Hin.
    pose proof (@fit_count_at numpy X y v r v' _ "documents" tag Hv Hfit Hc)
      as Hat.
    unfold count_at in Hat. simpl in Hat. unfold lookup0.
    rewrite Hat.
    - f_equal. unfold hits, category_count. f_equal. apply filter_ext.
      intros tok. unfold hit, doc_label. simpl.
      change (keyfn_of v) with (keyfn_named tagset0).
      destruct (keyfn_named tagset0 (snd tok)); [| reflexivity].
      now rewrite andb_true_r.
    - now left.
    - eapply Permutation_in; eauto. }
  assert (Hheights : map (lookup0 cn) tags
                     = map (fun tag => Z.of_nat (category_count tagset0 tag X))
                           tags) by (apply map_ext_in; exact Hcount).
  unfold ax, bind, get, ret. rewrite Ha. intros [= <-].
  exists tags, (calls (surface v)). split; [exact Hts |].
  split; [exact Hperm |]. split; [exact Hplain |]. split; [| split].
  - intros Hon. rewrite <- Hheights. now apply Hsorted.
  - rewrite Hcalls, Hheights. reflexivity.
  - intros a0 ->. reflexivity.
Qed.

End QuickChart.

(** A surface that holds a chart already. *)
Definition used_surface : Axes :=
  {| calls := [bar [0%nat] [7] 1 None None] |}.

Lemma postag_charts_category_counts_witness :
  let chart :=
    match postag (numpy := insertion) small_corpus None (Some used_surface)
                 "universal" None None true false with
    | inr chart => chart
    | inl _ => gca
    end in
  exists (tags : list string) (before : list ax_call),
    ("universal" = "penn_treebank" \/ "universal" = "universal") /\
    Permutation tags (tags_named "universal") /\
    (true = false -> tags = tags_named "universal") /\
    (true = true ->
     Sorted Z.ge (map (fun tag => Z.of_nat (category_count "universal" tag
                                                           small_corpus))
                      tags)) /\
    calls chart
    = before
      ++ [bar (seq 0 (List.length tags))
              (map (fun tag => Z.of_nat (category_count "universal" tag
                                                        small_corpus)) tags)
              (List.length tags) None None] /\
    (forall a : Axes, Some used_surface = Some a -> before = calls a).
Proof.
  intros chart.
  apply (@postag_charts_category_counts insertion small_corpus None
                                        (Some used_surface) "universal"
                                        None None true chart).
  vm_compute. reflexivity.
Defined.

(** A second chart on the surface of the first: the surface returned
    holds both. *)
Example postag_twice_on_a_surface :
  match postag (numpy := insertion) small_corpus None None "universal"
               None None false false with
  | inr first =>
      match postag (numpy := insertion) small_corpus None (Some first)
                   "universal" None None false false with
      | inr second => Some (List.length (calls first),
                            List.length (calls second))
      | inl _ => None
      end
  | inl _ => None
  end = Some (1%nat, 2%nat).
Proof. vm_compute. reflexivity. Qed.

(** *** The chart of a fit, whatever the options *)

Section Charting.
Context {numpy : Np.Argsort}.

(** [draw] on counters without any group, when it returns. *)
Lemma draw_no_groups_calls (s s' : PosTagVisualizer) (c : dict (dict Z))
      (tags labels : list string) (a : Axes) :
  pos_tag_counts_ s = Some c -> dict_values c = [] ->
  _pos_tags s = Some tags -> labels_ s = Some labels ->
  draw s = Return a s' ->
  stack s = true /\ _pos_tags s' = Some tags /\
  calls a
  = calls (surface s) ++ [bar_stack [] labels tags (colors s) (colormap s)].
Proof.
  intros Hc Hv Ht Hl.
  cbv beta iota zeta delta [draw draw_no_rows bind attr get modify ret raise
                            ax ax_do].
  rewrite Hc, Hv. cbn [map]. unfold surface.
  destruct (frequency s).
  - rewrite Ht. destruct (Np.take tags [0%nat]); discriminate.
  - destruct (stack s).
    + destruct (_ax s) as [a0|];
        repeat (progress (cbn beta iota delta [_ax set_ax labels_ _pos_tags];
                          rewrite ?Hl, ?Ht));
        intros [= <- <-]; repeat split; assumption || reflexivity.
    + rewrite Ht. destruct (_ax s); discriminate.
Qed.

(** The chart a returning [fit] has put on the surface: the rows of its
    counters, one per group, along the tags it leaves in [_pos_tags]. *)
Lemma fit_charts (X : corpus) (y : option (list string))
      (s r s' : PosTagVisualizer) :
  valid_tagset s ->
  fit X y s = Return r s' ->
  exists (c : dict (dict Z)) (tags : list string) (a : Axes),
    let data := map (fun cn => map (lookup0 cn) tags) (dict_values c) in
    pos_tag_counts_ s' = Some c /\
    _pos_tags s' = Some tags /\
    Permutation tags (tags_of s) /\
    _ax s' = Some a /\
    calls a
    = calls (surface s)
      ++ [if stack s
          then bar_stack data (labels_for s y) tags (colors s) (colormap s)
          else bar (seq 0 (List.length tags)) (hd [] data)
                   (List.length tags) (colormap s) (colors s)].
Proof.
  intros Hts Hfit.
  destruct (@fit_hands_over numpy X y s r s' Hts Hfit)
    as [s0 [a [c [Hcount [Hd [Hopt0 [Hc0 [Ht0 [Hl0 [Hk Hne]]]]]]]]]].
  assert (Hsurf : surface s0 = surface s).
  { pose proof (counted_state X y s) as Hcs. rewrite Hcount in Hcs.
    simpl in Hcs. destruct Hcs as [_ [_ [_ [Hax _]]]].
    unfold surface. now rewrite Hax. }
  pose proof (draw_frame s0) as Hfr. rewrite Hd in Hfr. simpl in Hfr.
  destruct Hfr as [_ [_ [Hc1 _]]].
  pose proof (draw_returns_surface _ Hd) as Hax'.
  destruct Hopt0 as [_ [Hfr0 [Hst0 [Hcm0 Hcl0]]]].
  exists c.
  destruct (frequency s0) eqn:Hf.
  - assert (Hv : dict_values c <> []) by (apply Hne; congruence).
    destruct (@draw_sorts_columns numpy s0 c (tags_of s) (labels_for s y) _
                Hf Hc0 Ht0 Hl0 Hk (NoDup_tags_of s) Hv)
      as [tags' [a' [Hd' [Hp [_ Hcalls]]]]].
    cbv zeta in Hd', Hcalls. rewrite Hd in Hd'. injection Hd' as <- ->.
    exists tags', a. cbv zeta. split; [congruence |].
    split; [reflexivity |]. split; [assumption |]. split; [reflexivity |].
    rewrite Hcalls, Hsurf, Hst0, Hcm0, Hcl0. reflexivity.
  - destruct (dict_values c) as [|cn0 cns] eqn:Hv.
    + destruct (@draw_no_groups_calls s0 s' c _ _ a Hc0 Hv Ht0 Hl0 Hd)
        as [Hst [Ht' Hcalls]].
      exists (tags_of s), a. cbv zeta. split; [congruence |].
      split; [assumption |]. split; [apply Permutation_refl |].
      split; [assumption |].
      rewrite Hcalls, Hsurf, <- Hst0, Hst, Hcm0, Hcl0. reflexivity.
    + assert (Hv' : dict_values c <> []) by (rewrite Hv; discriminate).
      assert (Hreg : Np.regular (map (@dict_values Z) (dict_values c)) = true)
        by (eapply regular_rows; eauto using NoDup_tags_of).
      pose proof (@draw_plain numpy s0 c (tags_of s) (labels_for s y)
                              Hf Hc0 Ht0 Hl0 Hv' Hreg) as Hd'.
      cbv zeta in Hd'. rewrite Hd in Hd'. injection Hd' as Ha Hs'.
      exists (tags_of s), a. cbv zeta. rewrite <- Hv.
      split; [congruence |]. split; [rewrite Hs'; exact Ht0 |].
      split; [apply Permutation_refl |]. split; [assumption |].
      rewrite <- (rows_by_tag Hk (NoDup_tags_of s)).
      rewrite Ha. cbn [calls]. rewrite Hsurf, Hst0, Hcm0, Hcl0. reflexivity.
Qed.

End Charting.

End PosTagFinishing.

(* ===================================================================== *)
(** ** Classification report: what [draw] puts on the surface *)
(* ===================================================================== *)

Module ClassificationReportDrawing.
Import Py PyFacts ClassificationReport ClassificationReportFacts.
Import ClassificationReportFinish.

(** [[f(x) for x in xs]] for an [f] that may raise. *)
Fixpoint map_e {A B} (f : A -> exn + B) (xs : list A) : exn + list B :=
  match xs with
  | [] => inr []
  | x :: rest =>
      match f x with
      | inl e => inl e
      | inr b =>
          match map_e f rest with
          | inl e => inl e
          | inr bs => inr (b :: bs)
          end
      end
  end.

Lemma map_e_length {A B} (f : A -> exn + B) (xs : list A) (bs : list B) :
  map_e f xs = inr bs -> List.length bs = List.length xs.
Proof.
  revert bs. induction xs as [|x xs IH]; simpl; intros bs.
  - now intros [= <-].
  - destruct (f x) as [e|b]; [discriminate |].
    destruct (map_e f xs) as [e|bs']; [discriminate |].
    intros [= <-]. simpl. f_equal. now apply IH.
Qed.

Lemma map_e_In {A B} (f : A -> exn + B) (xs : list A) (bs : list B) (b : B) :
  map_e f xs = inr bs -> In b bs -> exists x, In x xs /\ f x = inr b.
Proof.
  revert bs. induction xs as [|x xs IH]; simpl; intros bs.
  - intros [= <-] [].
  - destruct (f x) as [e|b0] eqn:Hx; [discriminate |].
    destruct (map_e f xs) as [e|bs'] eqn:Hxs; [discriminate |].
    intros [= <-] [<-|Hin]; [eauto |].
    destruct (IH _ eq_refl Hin) as [x' [Hx' Hf]]. eauto.
Qed.

Section Grid.
Context {float Data Target Estimator Colormap : Type}.
Context {env : Collaborators float Data Target Estimator Colormap}.

Local Abbreviation ClassificationReport :=
  (ClassificationReport.ClassificationReport float Estimator Colormap).
Local Abbreviation Axes := (ClassificationReport.Axes float Colormap).
Local Abbreviation ax_call := (ClassificationReport.ax_call float Colormap).
Local Abbreviation cell_text := (ClassificationReport.cell_text float).

(** [self.scores_[metric][cls]], as a function of [scores_]. *)
Definition score_at (scores : option (dict (dict float))) (cls metric : string)
  : exn + float :=
  match scores with
  | None => inl (AttributeError "scores_")
  | Some d =>
      match dict_get metric d with
      | None => inl (KeyError metric)
      | Some per_class =>
          match dict_get cls per_class with
          | None => inl (KeyError cls)
          | Some value => inr value
          end
      end
  end.

(** The display grid: a row per class, a column per displayed score. *)
Definition grid_of (scores : option (dict (dict float)))
           (displayed classes : list string) : exn + list (list float) :=
  map_e (fun cls => map_e (score_at scores cls) displayed) classes.

(** The text of the cell in row [x] and column [y]. *)
Definition cell_label (support0 : pyval) (counts : option (list Z))
           (x y : nat) (value : float) : exn + cell_text :=
  if Nat.eqb y 3 && negb (py_eq support0 (PyStr PERCENT)) then
    match counts with
    | None => inl (AttributeError "support_score_")
    | Some cs =>
        match nth_error cs x with
        | None => inl IndexError
        | Some n => inr (raw_count n)
        end
    end
  else inr (formatted value).

(** The [text] calls of a row, from column [y] on, and of the rows of a
    grid, from row [x] on. *)
Fixpoint row_calls (support0 : pyval) (counts : option (list Z))
         (x y : nat) (row : list float) : exn + list ax_call :=
  match row with
  | [] => inr []
  | value :: rest =>
      match cell_label support0 counts x y value with
      | inl e => inl e
      | inr svalue =>
          match row_calls support0 counts x (S y) rest with
          | inl e => inl e
          | inr cs => inr (text y x svalue value :: cs)
          end
      end
  end.

Fixpoint grid_calls (support0 : pyval) (counts : option (list Z))
         (x : nat) (grid : list (list float)) : exn + list ax_call :=
  match grid with
  | [] => inr []
  | row :: rest =>
      match row_calls support0 counts x 0 row with
      | inl e => inl e
      | inr cs =>
          match grid_calls support0 counts (S x) rest with
          | inl e => inl e
          | inr cs' => inr (cs ++ cs')
          end
      end
  end.

(** Reading the scores changes nothing. *)
Lemma lookup_score_eq (s : ClassificationReport) (metric cls : string) :
  lookup_score metric cls s
  = match score_at (scores_ s) cls metric with
    | inr value => Return value s
    | inl e => Raise e s
    end.
Proof.
  unfold lookup_score, score_at, bind, attr, ret, raise.
  destruct (scores_ s) as [d|]; [| reflexivity].
  destruct (dict_get metric d) as [per_class|]; [| reflexivity].
  destruct (dict_get cls per_class); reflexivity.
Qed.

Lemma map_m_pure {A B} (f : A -> M ClassificationReport B) (g : A -> exn + B)
      (s : ClassificationReport) (xs : list A) :
  (forall x, f x s = match g x with
                     | inr b => Return b s
                     | inl e => Raise e s
                     end) ->
  map_m f xs s = match map_e g xs with
                 | inr bs => Return bs s
                 | inl e => Raise e s
                 end.
Proof.
  intros Hf. induction xs as [|x xs IH]; simpl; [reflexivity |].
  unfold bind at 1. rewrite Hf. destruct (g x) as [e|b]; [reflexivity |].
  unfold bind at 1. rewrite IH. destruct (map_e g xs); reflexivity.
Qed.

Lemma grid_of_eq (s : ClassificationReport) (displayed classes : list string) :
  map_m (fun cls => map_m (fun metric => lookup_score metric cls) displayed)
        classes s
  = match grid_of (scores_ s) displayed classes with
    | inr grid => Return grid s
    | inl e => Raise e s
    end.
Proof.
  unfold grid_of. apply map_m_pure. intros cls.
  apply map_m_pure. intros metric. apply lookup_score_eq.
Qed.

(** The report with the calls [cs] on its surface. *)
Definition drawn (cs : list ax_call) (s : ClassificationReport)
  : ClassificationReport :=
  set_ax {| calls := cs |} s.

Lemma ax_do_drawn (cs : list ax_call) (c : ax_call) (s : ClassificationReport) :
  ax_do c (drawn cs s) = Return tt (drawn (cs ++ [c]) s).
Proof. reflexivity. Qed.

(** The body of the inner loop of [draw], for the cell in row [x] and
    column [y]. *)
Definition cell_step (support0 : pyval) (x y : nat) (value : float)
  : M ClassificationReport unit :=
  svalue <-
    (if Nat.eqb y 3 && negb (py_eq support0 (PyStr PERCENT)) then
       counts <- attr "support_score_" support_score_ ;;
       match nth_error counts x with
       | None => raise IndexError
       | Some n => ret (raw_count n)
       end
     else ret (formatted value)) ;;
  ax_do (text y x svalue value).

Lemma cell_step_eq (support0 : pyval) (s : ClassificationReport) (x y : nat)
      (value : float) (cs : list ax_call) :
  cell_step support0 x y value (drawn cs s)
  = match cell_label support0 (support_score_ s) x y value with
    | inr svalue => Return tt (drawn (cs ++ [text y x svalue value]) s)
    | inl e => Raise e (drawn cs s)
    end.
Proof.
  unfold cell_step, cell_label, bind, attr, ret, raise.
  destruct (Nat.eqb y 3 && negb (py_eq support0 (PyStr PERCENT)));
    [| reflexivity].
  cbn [support_score_ drawn set_ax].
  destruct (support_score_ s) as [counts|]; [| reflexivity].
  destruct (nth_error counts x); reflexivity.
Qed.

Lemma row_calls_eq (support0 : pyval) (s : ClassificationReport) (x : nat)
      (row : list float) :
  forall (y : nat) (cs : list ax_call),
    match row_calls support0 (support_score_ s) x y row with
    | inr ts =>
        for_enumerate_from y row (cell_step support0 x) (drawn cs s)
        = Return tt (drawn (cs ++ ts) s)
    | inl e =>
        exists ts,
          for_enumerate_from y row (cell_step support0 x) (drawn cs s)
          = Raise e (drawn (cs ++ ts) s)
    end.
Proof.
  induction row as [|value row IH]; intros y cs.
  - simpl. unfold ret. now rewrite app_nil_r.
  - cbn [row_calls for_enumerate_from]. unfold bind. rewrite cell_step_eq.
    destruct (cell_label support0 (support_score_ s) x y value) as [e|svalue];
      [exists []; now rewrite app_nil_r |].
    specialize (IH (S y) (cs ++ [text y x svalue value])).
    destruct (row_calls support0 (support_score_ s) x (S y) row) as [e|ts].
    + destruct IH as [ts IH]. exists (text y x svalue value :: ts).
      rewrite IH. now rewrite <- app_assoc.
    + rewrite IH. now rewrite <- app_assoc.
Qed.

Lemma grid_calls_eq (support0 : pyval) (s : ClassificationReport)
      (grid : list (list float)) :
  forall (x : nat) (cs : list ax_call),
    match grid_calls support0 (support_score_ s) x grid with
    | inr ts =>
        for_enumerate_from x grid
          (fun x row => for_enumerate row (cell_step support0 x)) (drawn cs s)
        = Return tt (drawn (cs ++ ts) s)
    | inl e =>
        exists ts,
          for_enumerate_from x grid
            (fun x row => for_enumerate row (cell_step support0 x))
            (drawn cs s)
          = Raise e (drawn (cs ++ ts) s)
    end.
Proof.
  induction grid as [|row grid IH]; intros x cs.
  - simpl. unfold ret. now rewrite app_nil_r.
  - cbn [grid_calls for_enumerate_from]. unfold bind.
    change (for_enumerate row (cell_step support0 x))
      with (for_enumerate_from 0 row (cell_step support0 x)).
    pose proof (row_calls_eq support0 s x row 0 cs) as Hrow.
    destruct (row_calls support0 (support_score_ s) x 0 row) as [e|ts].
    + destruct Hrow as [ts Hrow]. rewrite Hrow. eauto.
    + rewrite Hrow. specialize (IH (S x) (cs ++ ts)).
      destruct (grid_calls support0 (support_score_ s) (S x) grid) as [e|ts'].
      * destruct IH as [ts' IH]. exists (ts ++ ts'). rewrite IH.
        now rewrite <- app_assoc.
      * rewrite IH. now rewrite <- app_assoc.
Qed.

(** The surface [draw] finds, or is given by matplotlib. *)
Definition surface (s : ClassificationReport) : Axes :=
  match _ax s with
  | Some a => a
  | None => gca
  end.

Lemma ax_do_first (c : ax_call) (s : ClassificationReport) :
  ax_do c s = Return tt (drawn (calls (surface s) ++ [c]) s).
Proof.
  unfold surface, drawn. cbv beta iota delta [bind ax_do ax get modify ret].
  destruct (_ax s); reflexivity.
Qed.

(** The two limits [draw] sets before it labels the cells. *)
Definition limits (s : ClassificationReport) (classes : list string)
  : list ax_call :=
  [set_ylim 0 (List.length classes);
   set_xlim 0 (List.length (_displayed_scores s))].

(** [draw] up to the labelling of the cells. *)
Lemma draw_unfold (s : ClassificationReport) (classes : list string) :
  classes_ s = Some classes ->
  draw s
  = match grid_of (scores_ s) (_displayed_scores s) classes with
    | inl e => Raise e s
    | inr grid =>
        (for_enumerate_from 0 grid
           (fun x row => for_enumerate row (cell_step (support s) x)) ;;
         ax_do (pcolormesh (List.length (_displayed_scores s) + 1)
                           (List.length classes + 1) grid (cmap s)) ;;
         ax_do colorbar ;;
         ax)
          (drawn (calls (surface s) ++ limits s classes) s)
    end.
Proof.
  intros Hcls. unfold draw.
  unfold bind at 1, attr at 1. rewrite Hcls.
  unfold bind at 1, get at 1. unfold bind at 1. rewrite grid_of_eq.
  destruct (grid_of (scores_ s) (_displayed_scores s) classes) as [e|grid];
    [reflexivity |].
  unfold bind at 1. rewrite ax_do_first.
  unfold bind at 1. rewrite ax_do_drawn. unfold limits.
  rewrite <- app_assoc. reflexivity.
Qed.

(** [draw] when every cell gets its label. *)
Lemma draw_labelled (s : ClassificationReport) (classes : list string)
      (grid : list (list float)) (ts : list ax_call) :
  classes_ s = Some classes ->
  grid_of (scores_ s) (_displayed_scores s) classes = inr grid ->
  grid_calls (support s) (support_score_ s) 0 grid = inr ts ->
  let a :=
    {| calls :=
         calls (surface s) ++ limits s classes ++ ts
         ++ [pcolormesh (List.length (_displayed_scores s) + 1)
                        (List.length classes + 1) grid (cmap s);
             colorbar] |} in
  draw s = Return a (set_ax a s).
Proof.
  intros Hcls Hgrid Hts a. subst a.
  rewrite (draw_unfold _ Hcls), Hgrid.
  pose proof (grid_calls_eq (support s) s grid 0
                            (calls (surface s) ++ limits s classes)) as Hg.
  rewrite Hts in Hg. unfold bind at 1. rewrite Hg.
  unfold bind. rewrite !ax_do_drawn.
  unfold ax, bind, get, ret, drawn. cbn [_ax set_ax].
  rewrite <- !app_assoc. reflexivity.
Qed.

(** The outcome of [draw], whatever it is: what it returns is the
    surface described by [draw_labelled], and what it raises comes from
    reading [classes_], a score, or a support count. *)
Lemma draw_outcome (s : ClassificationReport) :
  match draw s with
  | Return a s' =>
      exists classes grid ts,
        classes_ s = Some classes /\
        grid_of (scores_ s) (_displayed_scores s) classes = inr grid /\
        grid_calls (support s) (support_score_ s) 0 grid = inr ts /\
        s' = set_ax a s /\
        calls a
        = calls (surface s) ++ limits s classes ++ ts
          ++ [pcolormesh (List.length (_displayed_scores s) + 1)
                         (List.length classes + 1) grid (cmap s);
              colorbar]
  | Raise e s' =>
      match classes_ s with
      | None => e = AttributeError "classes_"
      | Some classes =>
          match grid_of (scores_ s) (_displayed_scores s) classes with
          | inl e' => e = e'
          | inr grid =>
              grid_calls (support s) (support_score_ s) 0 grid = inl e
          end
      end
  end.
Proof.
  destruct (classes_ s) as [classes|] eqn:Hcls.
  2:{ unfold draw, bind, attr. rewrite Hcls. reflexivity. }
  destruct (grid_of (scores_ s) (_displayed_scores s) classes)
    as [e|grid] eqn:Hgrid.
  { rewrite (draw_unfold _ Hcls), Hgrid. reflexivity. }
  destruct (grid_calls (support s) (support_score_ s) 0 grid)
    as [e|ts] eqn:Hts.
  - rewrite (draw_unfold _ Hcls), Hgrid.
    pose proof (grid_calls_eq (support s) s grid 0
                              (calls (surface s) ++ limits s classes)) as Hg.
    rewrite Hts in Hg. destruct Hg as [ts Hg].
    unfold bind at 1. rewrite Hg. reflexivity.
  - rewrite (draw_labelled _ Hcls Hgrid Hts).
    exists classes, grid, ts. auto.
Qed.

(** *** The shape of what is drawn *)

Lemma row_calls_length (support0 : pyval) (counts : option (list Z))
      (x : nat) (row : list float) :
  forall y ts, row_calls support0 counts x y row = inr ts ->
               List.length ts = List.length row.
Proof.
  induction row as [|value row IH]; simpl; intros y ts.
  - now intros [= <-].
  - destruct (cell_label support0 counts x y value); [discriminate |].
    destruct (row_calls support0 counts x (S y) row) eqn:Hr; [discriminate |].
    intros [= <-]. simpl. f_equal. eapply IH; eauto.
Qed.

Lemma grid_calls_length (support0 : pyval) (counts : option (list Z))
      (m : nat) (grid : list (list float)) :
  (forall row, In row grid -> List.length row = m) ->
  forall x ts, grid_calls support0 counts x grid = inr ts ->
               List.length ts = (List.length grid * m)%nat.
Proof.
  induction grid as [|row grid IH]; simpl; intros Hm x ts.
  - now intros [= <-].
  - destruct (row_calls support0 counts x 0 row) eqn:Hr; [discriminate |].
    destruct (grid_calls support0 counts (S x) grid) eqn:Hg; [discriminate |].
    intros [= <-]. rewrite length_app.
    rewrite (@row_calls_length _ _ _ _ _ _ Hr), (Hm row) by now left.
    f_equal. eapply IH; eauto.
Qed.

Lemma grid_of_shape (scores : option (dict (dict float)))
      (displayed classes : list string) (grid : list (list float)) :
  grid_of scores displayed classes = inr grid ->
  List.length grid = List.length classes /\
  forall row, In row grid -> List.length row = List.length displayed.
Proof.
  unfold grid_of. intros H. split; [eapply map_e_length; eauto |].
  intros row Hrow. destruct (@map_e_In _ _ _ _ _ row H Hrow) as [cls [_ Hcls]].
  eapply map_e_length; eauto.
Qed.

(** X14. Whenever [draw] returns, it has changed nothing on the report
    but the drawing surface, to which it has added, in this order: the
    limits of the two axes, a text for every cell of the grid of
    [len(classes_)] rows and [len(_displayed_scores)] columns, row by row,
    the heat map over that grid, and the colour bar.  The value of a cell
    is [scores_[metric][cls]]; the text of a cell is that value, except in
    the column of index 3, where it is the raw support count of the class
    unless [support] is "percent". *)
Theorem draw_renders_grid :
  forall (s s' : ClassificationReport) (a : Axes),
    draw s = Return a s' ->
    exists (classes : list string) (grid : list (list float))
           (texts : list ax_call),
      classes_ s = Some classes /\
      grid_of (scores_ s) (_displayed_scores s) classes = inr grid /\
      grid_calls (support s) (support_score_ s) 0 grid = inr texts /\
      List.length grid = List.length classes /\
      (forall row, In row grid ->
                   List.length row = List.length (_displayed_scores s)) /\
      List.length texts
      = (List.length classes * List.length (_displayed_scores s))%nat /\
      s' = set_ax a s /\
      calls a
      = calls (surface s)
        ++ [set_ylim 0 (List.length classes);
            set_xlim 0 (List.length (_displayed_scores s))]
        ++ texts
        ++ [pcolormesh (List.length (_displayed_scores s) + 1)
                       (List.length classes + 1) grid (cmap s);
            colorbar].
Proof.
  intros s s' a Hd. pose proof (draw_outcome s) as Ho. rewrite Hd in Ho.
  destruct Ho as [classes [grid [ts [Hcls [Hgrid [Hts [Hs' Hcalls]]]]]]].
  destruct (@grid_of_shape _ _ _ _ Hgrid) as [Hn Hm].
  exists classes, grid, ts. repeat (split; [assumption |]).
  split; [| split; assumption].
  rewrite (@grid_calls_length _ _ _ _ Hm _ _ Hts). now rewrite Hn.
Qed.

End Grid.

(** *** How [score] fails *)

Lemma map_e_all {A B} (f : A -> exn + B) (xs : list A) :
  (forall x, In x xs -> exists b, f x = inr b) ->
  exists bs, map_e f xs = inr bs.
Proof.
  induction xs as [|x xs IH]; simpl; intros H; [eauto |].
  destruct (H x (or_introl eq_refl)) as [b ->].
  destruct IH as [bs ->]; [intros; apply H; now right | eauto].
Qed.

Lemma map_e_fails {A B} (f : A -> exn + B) (pre post : list A) (x : A)
      (e : exn) :
  (forall z, In z pre -> exists b, f z = inr b) ->
  f x = inl e ->
  map_e f (pre ++ x :: post) = inl e.
Proof.
  intros Hpre Hx. induction pre as [|z pre IH]; simpl.
  - now rewrite Hx.
  - destruct (Hpre z (or_introl eq_refl)) as [b ->].
    rewrite IH; [reflexivity |]. intros; apply Hpre; now right.
Qed.

Lemma zip_keys_firstn {A} (ks : list string) (vs : list A) :
  map fst (zip ks vs) = firstn (List.length vs) ks.
Proof.
  revert vs. induction ks as [|k ks IH]; intros [|v vs]; simpl;
    try reflexivity.
  f_equal. apply IH.
Qed.

Lemma dict_of_zip_keys_In {A} (ks : list string) (vs : list A) (k : string) :
  In k (dict_keys (dict_of (zip ks vs))) <-> In k (firstn (List.length vs) ks).
Proof.
  unfold dict_of. rewrite PosTagFacts.dict_of_keys_In, zip_keys_firstn.
  simpl. tauto.
Qed.

Section Failing.
Context {float Data Target Estimator Colormap : Type}.
Context {env : Collaborators float Data Target Estimator Colormap}.

Local Abbreviation ClassificationReport :=
  (ClassificationReport.ClassificationReport float Estimator Colormap).
Local Abbreviation Axes := (ClassificationReport.Axes float Colormap).
Local Abbreviation ax_call := (ClassificationReport.ax_call float Colormap).

(** What has happened when [score] returns. *)
Lemma score_return_inv (v v' : ClassificationReport) (X : Data) (y : Target)
      (r : float) :
  score X y v = Return r v' ->
  exists (y_pred : Target) (precision recall f1 : list float)
         (counts : list Z) (classes : list string) (a : Axes),
    est_predict (estimator v) X = inr y_pred /\
    precision_recall_fscore_support y y_pred
    = inr (precision, recall, f1, counts) /\
    classes_ v = Some classes /\
    let mid := set_scores_ (report classes precision recall f1 counts
                                   (truthy (support v)))
                           (set_support_score_ counts v) in
    draw mid = Return a (set_ax a mid) /\
    est_score (estimator v) X y = inr r /\
    v' = set_score_ r (set_ax a mid).
Proof.
  rewrite score_eq.
  destruct (est_predict (estimator v) X) as [e|y_pred] eqn:Hp; [discriminate |].
  destruct (precision_recall_fscore_support y y_pred)
    as [e|[[[precision recall] f1] counts]] eqn:Hs; [discriminate |].
  destruct (classes_ v) as [classes|] eqn:Hc; [| discriminate].
  set (mid := set_scores_ _ _).
  pose proof (draw_outcome mid) as Ho.
  destruct (draw mid) as [a drawn|e drawn] eqn:Hd; [| discriminate].
  destruct Ho as [_ [_ [_ [_ [_ [_ [-> _]]]]]]].
  cbn [estimator set_ax mid set_scores_ set_support_score_].
  destruct (est_score (estimator v) X y) as [e|value] eqn:He; [discriminate |].
  intros [= <- <-].
  exists y_pred, precision, recall, f1, counts, classes, a.
  cbv zeta. fold mid. repeat split; assumption || reflexivity.
Qed.

(** X15. [score], whether it returns or raises, leaves the estimator,
    the options and [classes_] of the report as they were: it writes only
    to [support_score_], [scores_], [score_] and the drawing surface. *)
Theorem score_keeps_the_model :
  forall (v : ClassificationReport) (X : Data) (y : Target),
    let v' := final_state (score X y v) in
    estimator v' = estimator v /\ classes v' = classes v /\
    is_fitted v' = is_fitted v /\ support v' = support v /\
    cmap v' = cmap v /\ _displayed_scores v' = _displayed_scores v /\
    classes_ v' = classes_ v.
Proof.
  intros v X y. cbv zeta. rewrite score_eq.
  destruct (est_predict (estimator v) X) as [e|y_pred]; [simpl; tauto |].
  destruct (precision_recall_fscore_support y y_pred)
    as [e|[[[precision recall] f1] counts]]; [simpl; tauto |].
  destruct (classes_ v) as [classes|] eqn:Hcls;
    [| simpl; rewrite Hcls; tauto].
  set (mid := set_scores_ _ _).
  pose proof (keeps_draw mid) as Hframe.
  destruct (draw mid) as [a drawn|e drawn]; simpl in Hframe.
  - destruct (est_score (estimator drawn) X y); simpl;
      unfold same_but_ax in Hframe; subst mid; simpl in Hframe;
      rewrite <- Hcls; intuition congruence.
  - simpl. unfold same_but_ax in Hframe. subst mid. simpl in Hframe.
    rewrite <- Hcls. intuition congruence.
Qed.

(** The per-class mapping the report holds for a metric. *)
Lemma report_get (classes : list string) (precision recall f1 : list float)
      (counts : list Z) (with_support : bool) (metric : string) :
  In metric (if with_support then SCORES_KEYS
             else ["precision"; "recall"; "f1"]) ->
  exists values : list float,
    dict_get metric (report classes precision recall f1 counts with_support)
    = Some (dict_of (zip classes values)) /\
    List.length values
    = List.length (if (metric =? "precision")%string then precision
                   else if (metric =? "recall")%string then recall
                   else if (metric =? "f1")%string then f1
                   else map (fun n => true_divide n (sum counts)) counts).
Proof.
  unfold report. intros Hin.
  destruct with_support; cbn [In SCORES_KEYS] in Hin;
    repeat (destruct Hin as [<-|Hin]; [eexists; split; reflexivity |]);
    destruct Hin.
Qed.

(** X18. When scikit-learn scores fewer classes than [classes_] names,
    [score] raises [KeyError] for the first class that is left without a
    score: [zip] has cut the per-class mappings short, and [draw] looks
    every class up. *)
Theorem score_class_without_scores_raises :
  forall (v : ClassificationReport) (X : Data) (y y_pred : Target)
         (precision recall f1 : list float) (counts : list Z)
         (scored unscored : list string) (cls : string),
    displays v ->
    est_predict (estimator v) X = inr y_pred ->
    precision_recall_fscore_support y y_pred
    = inr (precision, recall, f1, counts) ->
    classes_ v = Some (scored ++ cls :: unscored) ->
    ~ In cls scored ->
    List.length precision = List.length scored ->
    List.length recall = List.length scored ->
    List.length f1 = List.length scored ->
    List.length counts = List.length scored ->
    exists v', score X y v = Raise (KeyError cls) v' /\ score_ v' = score_ v.
Proof.
  intros v X y y_pred precision recall f1 counts scored unscored cls
         Hdisp Hp Hs Hc Hout Hlp Hlr Hlf Hlc.
  rewrite score_eq, Hp, Hs, Hc.
  set (classes := scored ++ cls :: unscored).
  set (mid := set_scores_ _ _).
  assert (Hsc : scores_ mid
                = Some (report classes precision recall f1 counts
                               (truthy (support v)))) by reflexivity.
  assert (Hds : _displayed_scores mid
                = if truthy (support v) then SCORES_KEYS
                  else ["precision"; "recall"; "f1"]) by exact Hdisp.
  assert (Hcm : classes_ mid = Some classes) by exact Hc.
  assert (Hfirst : forall values : list float,
             List.length values = List.length scored ->
             firstn (List.length values) classes = scored).
  { intros values ->. unfold classes.
    rewrite firstn_app, Nat.sub_diag, firstn_all. simpl. apply app_nil_r. }
  assert (Hgrid : grid_of (scores_ mid) (_displayed_scores mid) classes
                  = inl (KeyError cls)).
  { rewrite Hsc, Hds. unfold grid_of, classes at 2. apply map_e_fails.
    - intros z Hz. apply map_e_all. intros metric Hm.
      destruct (@report_get classes precision recall f1
                            counts (truthy (support v)) metric Hm)
        as [values [Hget Hlen]].
      unfold score_at. rewrite Hget.
      assert (Hin : In z (dict_keys (dict_of (zip classes values)))).
      { apply dict_of_zip_keys_In. rewrite Hfirst; [assumption |].
        rewrite Hlen.
        destruct (metric =? "precision")%string; [assumption |].
        destruct (metric =? "recall")%string; [assumption |].
        destruct (metric =? "f1")%string; [assumption |].
        now rewrite length_map. }
      apply dict_get_In_keys in Hin. destruct Hin as [value ->]. eauto.
    - assert (Hhead : exists rest,
                 (if truthy (support v) then SCORES_KEYS
                  else ["precision"; "recall"; "f1"]) = "precision" :: rest)
        by (destruct (truthy (support v)); eexists; reflexivity).
      destruct Hhead as [rest ->]. cbn [map_e].
      assert (Hnone : score_at
                        (Some (report classes precision recall f1 counts
                                      (truthy (support v))))
                        cls "precision"
                      = inl (KeyError cls)).
      { destruct (@report_get classes precision recall f1 counts
                              (truthy (support v)) "precision")
          as [values [Hget Hlen]];
          [destruct (truthy (support v)); now left |].
        unfold score_at. rewrite Hget.
        assert (Hk : dict_get cls (dict_of (zip classes values)) = None).
        { apply dict_get_None_keys. rewrite dict_of_zip_keys_In.
          rewrite Hfirst; [assumption |]. now rewrite Hlen. }
        now rewrite Hk. }
      now rewrite Hnone. }
  pose proof (draw_outcome mid) as Ho.
  pose proof (keeps_draw mid) as Hframe.
  destruct (draw mid) as [a drawn|e drawn].
  - destruct Ho as [classes' [grid [ts [Hcls [Hg _]]]]].
    rewrite Hcm in Hcls. injection Hcls as <-.
    rewrite Hgrid in Hg. discriminate.
  - rewrite Hcm, Hgrid in Ho. subst e.
    exists drawn. split; [reflexivity |].
    simpl in Hframe. unfold same_but_ax in Hframe.
    destruct Hframe as [_ [_ [_ [_ [_ [_ [_ [_ [_ H]]]]]]]]]. exact H.
Qed.

(** X19. The columns are fixed by the constructor, the scores by
    [score]: on a report whose [support] option has been switched off
    after a construction with the support column, [score] drops the
    "support" scores, [draw] still looks them up, and [score] raises
    [KeyError] for "support". *)
Theorem score_support_switched_off_raises :
  forall (v : ClassificationReport) (X : Data) (y y_pred : Target)
         (precision recall f1 : list float) (counts : list Z)
         (cls : string) (others : list string),
    _displayed_scores v = SCORES_KEYS ->
    truthy (support v) = false ->
    est_predict (estimator v) X = inr y_pred ->
    precision_recall_fscore_support y y_pred
    = inr (precision, recall, f1, counts) ->
    classes_ v = Some (cls :: others) ->
    precision <> [] -> recall <> [] -> f1 <> [] ->
    exists v', score X y v = Raise (KeyError "support") v'.
Proof.
  intros v X y y_pred precision recall f1 counts cls others
         Hdisp Hsup Hp Hs Hc Hnp Hnr Hnf.
  rewrite score_eq, Hp, Hs, Hc, Hsup.
  set (mid := set_scores_ _ _).
  assert (Hsc : scores_ mid
                = Some (report (cls :: others) precision recall f1 counts
                               false)) by reflexivity.
  assert (Hds : _displayed_scores mid = SCORES_KEYS) by exact Hdisp.
  assert (Hcm : classes_ mid = Some (cls :: others)) by exact Hc.
  assert (Hhead : forall values : list float,
             values <> [] ->
             exists value,
               dict_get cls (dict_of (zip (cls :: others) values))
               = Some value).
  { intros values Hv. apply dict_get_In_keys, dict_of_zip_keys_In.
    destruct values; [contradiction | now left]. }
  assert (Hgrid : grid_of (scores_ mid) (_displayed_scores mid) (cls :: others)
                  = inl (KeyError "support")).
  { rewrite Hsc, Hds. unfold grid_of. cbn [map_e].
    assert (Hrow : map_e (score_at (Some (report (cls :: others) precision
                                                 recall f1 counts false)) cls)
                         SCORES_KEYS
                   = inl (KeyError "support")).
    { apply (@map_e_fails _ _ _ ["precision"; "recall"; "f1"] [] "support").
      - intros metric Hm.
        destruct (@report_get (cls :: others) precision recall f1 counts
                              false metric Hm) as [values [Hget Hlen]].
        unfold score_at. rewrite Hget.
        destruct (Hhead values) as [value ->]; [| eauto].
        intros ->. cbn [In] in Hm.
        destruct Hm as [<-|[<-|[<-|[]]]]; cbn in Hlen;
          [destruct precision | destruct recall | destruct f1];
          try contradiction; discriminate.
      - reflexivity. }
    now rewrite Hrow. }
  pose proof (draw_outcome mid) as Ho.
  destruct (draw mid) as [a drawn|e drawn].
  - destruct Ho as [classes' [grid [ts [Hcls [Hg _]]]]].
    rewrite Hcm in Hcls. injection Hcls as <-.
    rewrite Hgrid in Hg. discriminate.
  - rewrite Hcm, Hgrid in Ho. subst e. eauto.
Qed.

(** X16. [score] returns, and returns what the estimator's own [score]
    gives, whenever the estimator predicts and scores, the report displays
    the columns its constructor set, and scikit-learn reports on at least
    as many classes as [classes_] names. *)
Theorem score_returns_estimator_score :
  forall (v : ClassificationReport) (X : Data) (y y_pred : Target)
         (classes : list string) (precision recall f1 : list float)
         (counts : list Z) (value : float),
    displays v ->
    est_predict (estimator v) X = inr y_pred ->
    precision_recall_fscore_support y y_pred
    = inr (precision, recall, f1, counts) ->
    classes_ v = Some classes ->
    (List.length classes <= List.length precision)%nat ->
    (List.length classes <= List.length recall)%nat ->
    (List.length classes <= List.length f1)%nat ->
    (List.length classes <= List.length counts)%nat ->
    est_score (estimator v) X y = inr value ->
    exists v', score X y v = Return value v' /\ score_ v' = Some value.
Proof.
  intros v X y y_pred classes precision recall f1 counts value
         Hdisp Hp Hs Hc Hlp Hlr Hlf Hlc Hv.
  destruct (@score_returns _ _ _ _ _ env v X y y_pred classes precision
                           recall f1 counts value)
    as [v' Hscore]; trivial.
  exists v'. split; [assumption |].
  destruct (@score_return_inv v v' X y value Hscore)
    as [yp [p0 [r0 [f0 [c0 [cl0 [a [_ [_ [_ Hinv]]]]]]]]]].
  cbv zeta in Hinv. destruct Hinv as [_ [_ Hv']].
  rewrite Hv'. reflexivity.
Qed.

End Failing.

(** *** The report on a small example *)

(** The report after [score] on the toy data, with the support column. *)
Definition scored_report
  : ClassificationReport Q (option string) (string * string * string) :=
  final_state (score (env := toy) toy_X toy_y (fitted_report (PyStr "count"))).

Lemma draw_renders_grid_witness :
  let o := draw scored_report in
  let s' := final_state o in
  let a := surface s' in
  exists (classes : list string) (grid : list (list Q))
         (texts : list (ax_call Q (string * string * string))),
    classes_ scored_report = Some classes /\
    grid_of (scores_ scored_report) (_displayed_scores scored_report) classes
    = inr grid /\
    grid_calls (support scored_report) (support_score_ scored_report) 0 grid
    = inr texts /\
    List.length grid = List.length classes /\
    (forall row, In row grid ->
                 List.length row
                 = List.length (_displayed_scores scored_report)) /\
    List.length texts
    = (List.length classes
       * List.length (_displayed_scores scored_report))%nat /\
    s' = set_ax a scored_report /\
    calls a
    = calls (surface scored_report)
      ++ [set_ylim 0 (List.length classes);
          set_xlim 0 (List.length (_displayed_scores scored_report))]
      ++ texts
      ++ [pcolormesh (List.length (_displayed_scores scored_report) + 1)
                     (List.length classes + 1) grid (cmap scored_report);
          colorbar].
Proof.
  intros o s' a.
  apply (@draw_renders_grid _ _ _ scored_report s' a).
  vm_compute. reflexivity.
Defined.

(** The texts of the support column of that report are the raw counts. *)
Example support_column_shows_counts :
  match grid_of (scores_ scored_report) (_displayed_scores scored_report)
                ["a"; "b"] with
  | inr grid =>
      match grid_calls (support scored_report) (support_score_ scored_report)
                       0 grid with
      | inr texts =>
          filter (fun c : ax_call Q (string * string * string) =>
                    match c with
                           | text 3 _ _ _ => true
                           | _ => false
                           end) texts
      | inl _ => []
      end
  | inl _ => []
  end
  = ([text 3 0 (raw_count 3) (Qmake 3 4); text 3 1 (raw_count 1) (Qmake 1 4)]
     : list (ax_call Q (string * string * string))).
Proof. vm_compute. reflexivity. Qed.

Lemma score_returns_estimator_score_witness :
  exists v', score (env := toy) toy_X toy_y (fitted_report (PyStr "count"))
             = Return (Qmake 3 4) v' /\
             score_ v' = Some (Qmake 3 4).
Proof.
  apply (@score_returns_estimator_score
           _ _ _ _ _ toy (fitted_report (PyStr "count")) toy_X toy_y
           ["a"; "a"; "a"; "a"] ["a"; "b"]
           [Qmake 3 4; Qmake 0 1] [Qmake 3 3; Qmake 0 1]
           [Qmake 6 7; Qmake 0 1] [3; 1] (Qmake 3 4)).
  - reflexivity.
  - reflexivity.
  - vm_compute. reflexivity.
  - reflexivity.
  - simpl. lia.
  - simpl. lia.
  - simpl. lia.
  - simpl. lia.
  - vm_compute. reflexivity.
Defined.

(** Targets in which the class "b" does not occur. *)
Definition one_class_y : list string := ["a"; "a"; "a"; "a"].

Lemma score_class_without_scores_raises_witness :
  exists v', score (env := toy) toy_X one_class_y (fitted_report PyNone)
             = Raise (KeyError "b") v' /\
             score_ v' = score_ (fitted_report PyNone).
Proof.
  apply (@score_class_without_scores_raises
           _ _ _ _ _ toy (fitted_report PyNone) toy_X one_class_y
           ["a"; "a"; "a"; "a"] [Qmake 4 4] [Qmake 4 4] [Qmake 8 8] [4]
           ["a"] [] "b").
  - reflexivity.
  - reflexivity.
  - vm_compute. reflexivity.
  - reflexivity.
  - intros [H|[]]. discriminate.
  - reflexivity.
  - reflexivity.
  - reflexivity.
  - reflexivity.
Defined.

(** A report constructed with the support column whose [support] option
    was cleared afterwards. *)
Definition switched_report
  : ClassificationReport Q (option string) (string * string * string) :=
  {| estimator := Some "a"; _ax := None; classes := None;
     is_fitted := Auto; support := PyNone;
     cmap := ("YlOrRd", CMAP_OVERCOLOR, CMAP_UNDERCOLOR);
     _displayed_scores := SCORES_KEYS;
     classes_ := Some ["a"; "b"]; support_score_ := None;
     scores_ := None; score_ := None |}.

Lemma score_support_switched_off_raises_witness :
  exists v', score (env := toy) toy_X toy_y switched_report
             = Raise (KeyError "support") v'.
Proof.
  apply (@score_support_switched_off_raises
           _ _ _ _ _ toy switched_report toy_X toy_y
           ["a"; "a"; "a"; "a"]
           [Qmake 3 4; Qmake 0 1] [Qmake 3 3; Qmake 0 1]
           [Qmake 6 7; Qmake 0 1] [3; 1] "a" ["b"]).
  - reflexivity.
  - reflexivity.
  - reflexivity.
  - vm_compute. reflexivity.
  - reflexivity.
  - discriminate.
  - discriminate.
  - discriminate.
Defined.

(** *** What [draw] raises *)

Lemma map_e_inl {A B} (f : A -> exn + B) (xs : list A) (e : exn) :
  map_e f xs = inl e -> exists x, In x xs /\ f x = inl e.
Proof.
  induction xs as [|x xs IH]; simpl; [discriminate |].
  destruct (f x) as [e'|b] eqn:Hx.
  - intros [= <-]. eauto.
  - destruct (map_e f xs) as [e'|bs]; [| discriminate].
    intros [= <-]. destruct (IH eq_refl) as [x' [Hin Hf]]. eauto.
Qed.

Section Errors.
Context {float Data Target Estimator Colormap : Type}.
Context {env : Collaborators float Data Target Estimator Colormap}.

Local Abbreviation ClassificationReport :=
  (ClassificationReport.ClassificationReport float Estimator Colormap).
Local Abbreviation Axes := (ClassificationReport.Axes float Colormap).
Local Abbreviation ax_call := (ClassificationReport.ax_call float Colormap).

Lemma row_calls_inl (support0 : pyval) (counts : option (list Z)) (x : nat)
      (row : list float) (e : exn) :
  forall y, @row_calls float Colormap support0 counts x y row = inl e ->
            e = AttributeError "support_score_" \/ e = IndexError.
Proof.
  induction row as [|value row IH]; simpl; intros y; [discriminate |].
  destruct (cell_label support0 counts x y value) as [e'|sv] eqn:Hc.
  - intros [= <-]. unfold cell_label in Hc.
    destruct (Nat.eqb y 3 && negb (py_eq support0 (PyStr PERCENT)));
      [| discriminate].
    destruct counts as [cs|]; [| injection Hc as <-; auto].
    destruct (nth_error cs x); [discriminate | injection Hc as <-; auto].
  - destruct (row_calls support0 counts x (S y) row) eqn:Hr; [| discriminate].
    intros [= <-]. eapply IH; eauto.
Qed.

Lemma grid_calls_inl (support0 : pyval) (counts : option (list Z))
      (grid : list (list float)) (e : exn) :
  forall x, @grid_calls float Colormap support0 counts x grid = inl e ->
            e = AttributeError "support_score_" \/ e = IndexError.
Proof.
  induction grid as [|row grid IH]; simpl; intros x; [discriminate |].
  destruct (row_calls support0 counts x 0 row) eqn:Hr.
  - intros [= <-]. eapply row_calls_inl; eauto.
  - destruct (grid_calls support0 counts (S x) grid) eqn:Hg; [| discriminate].
    intros [= <-]. eapply IH; eauto.
Qed.

(** X21. [draw] validates nothing itself: what it raises is the failure
    of one of its look-ups, an [AttributeError] for [classes_], [scores_]
    or [support_score_] not being set, a [KeyError] for a displayed score
    or a class that [scores_] does not hold, or an [IndexError] for a
    class without a support count; and the report is left as it was but
    for the drawing surface. *)
Theorem draw_raises_lookup_errors_only :
  forall (s s' : ClassificationReport) (e : exn),
    draw s = Raise e s' ->
    same_but_ax s s' /\
    (e = AttributeError "classes_" \/
     e = AttributeError "scores_" \/
     (exists metric, In metric (_displayed_scores s) /\ e = KeyError metric) \/
     (exists cls classes,
        classes_ s = Some classes /\ In cls classes /\ e = KeyError cls) \/
     e = AttributeError "support_score_" \/
     e = IndexError).
Proof.
  intros s s' e Hd. split.
  { pose proof (keeps_draw s) as Hk. now rewrite Hd in Hk. }
  pose proof (draw_outcome s) as Ho. rewrite Hd in Ho.
  destruct (classes_ s) as [classes|]; [| auto].
  destruct (grid_of (scores_ s) (_displayed_scores s) classes)
    as [e'|grid] eqn:Hgrid.
  - subst e'. unfold grid_of in Hgrid.
    apply map_e_inl in Hgrid. destruct Hgrid as [cls [Hcls Hrow]].
    apply map_e_inl in Hrow. destruct Hrow as [metric [Hm Hat]].
    unfold score_at in Hat.
    destruct (scores_ s) as [d|]; [| injection Hat as <-; auto].
    destruct (dict_get metric d) as [per_class|];
      [| injection Hat as <-; right; right; left; eauto].
    destruct (dict_get cls per_class); [discriminate |].
    injection Hat as <-. right; right; right; left. eauto.
  - apply grid_calls_inl in Ho. destruct Ho; auto 7.
Qed.

End Errors.

Lemma draw_raises_lookup_errors_only_witness :
  let s := fitted_report PyNone in
  let s' := s in
  let e := AttributeError "scores_" in
  same_but_ax s s' /\
  (e = AttributeError "classes_" \/
   e = AttributeError "scores_" \/
   (exists metric, In metric (_displayed_scores s) /\ e = KeyError metric) \/
   (exists cls classes,
      classes_ s = Some classes /\ In cls classes /\ e = KeyError cls) \/
   e = AttributeError "support_score_" \/
   e = IndexError).
Proof.
  intros s s' e.
  apply (@draw_raises_lookup_errors_only _ _ _ s s' e).
  vm_compute. reflexivity.
Defined.

(** *** Drawing and scoring again *)

Section Again.
Context {float Data Target Estimator Colormap : Type}.
Context {env : Collaborators float Data Target Estimator Colormap}.

Local Abbreviation ClassificationReport :=
  (ClassificationReport.ClassificationReport float Estimator Colormap).
Local Abbreviation Axes := (ClassificationReport.Axes float Colormap).
Local Abbreviation ax_call := (ClassificationReport.ax_call float Colormap).

(** What [draw] reads of a report. *)
Definition same_display (s t : ClassificationReport) : Prop :=
  support t = support s /\ cmap t = cmap s /\
  _displayed_scores t = _displayed_scores s /\ classes_ t = classes_ s /\
  support_score_ t = support_score_ s /\ scores_ t = scores_ s.

(** On two reports that display the same, [draw] adds the same calls. *)
Lemma draw_same_display (s t s' : ClassificationReport) (a : Axes) :
  same_display s t ->
  draw s = Return a s' ->
  exists added : list ax_call,
    calls a = calls (surface s) ++ added /\
    In colorbar added /\
    draw t = Return {| calls := calls (surface t) ++ added |}
                    (set_ax {| calls := calls (surface t) ++ added |} t).
Proof.
  intros Hst Hd. pose proof (draw_outcome s) as Ho. rewrite Hd in Ho.
  destruct Ho as [classes [grid [ts [Hcls [Hgrid [Hts [_ Hcalls]]]]]]].
  destruct Hst as [Hsup [Hcm [Hds [Hc [Hss Hsc]]]]].
  eexists. split; [exact Hcalls |]. split.
  - apply in_or_app. right. apply in_or_app. right. simpl. auto.
  - rewrite <- Hc in Hcls. rewrite <- Hsc, <- Hds in Hgrid.
    rewrite <- Hsup, <- Hss in Hts.
    rewrite (draw_labelled _ Hcls Hgrid Hts). unfold limits.
    rewrite Hds, Hcm. reflexivity.
Qed.

(** X22. [draw] does not clear the surface: drawing a report again adds
    the same limits, texts and heat map once more, and a second colour
    bar. *)
Theorem draw_again_adds_second_colorbar :
  forall (s s' : ClassificationReport) (a : Axes),
    draw s = Return a s' ->
    exists added : list ax_call,
      calls a = calls (surface s) ++ added /\
      In colorbar added /\
      draw s'
      = Return {| calls := calls a ++ added |}
               (set_ax {| calls := calls a ++ added |} s).
Proof.
  intros s s' a Hd.
  pose proof (draw_outcome s) as Ho. rewrite Hd in Ho.
  destruct Ho as [_ [_ [_ [_ [_ [_ [-> _]]]]]]].
  assert (Hk : same_display s (set_ax a s))
    by (unfold same_display; simpl; tauto).
  destruct (draw_same_display Hk Hd) as [added [Hcalls [Hbar Hagain]]].
  exists added. split; [assumption |]. split; [assumption |].
  rewrite Hagain. reflexivity.
Qed.

(** X23. [score] keeps nothing from an earlier call.  For an estimator
    that predicts and scores without randomness, [predict], [score] and
    scikit-learn's report being functions of their arguments as the
    interface has them: whenever [score X y] returns, a second
    [score X y] on the report returns the same value and stores the same
    [support_score_], [scores_] and [score_]; the report is as the first
    call left it, except that the chart has been drawn once more on its
    surface. *)
Theorem score_twice_same_scores :
  forall (v v1 : ClassificationReport) (X : Data) (y : Target) (r : float),
    score X y v = Return r v1 ->
    exists (v2 : ClassificationReport) (a1 : Axes) (added : list ax_call),
      score X y v1 = Return r v2 /\
      _ax v1 = Some a1 /\
      v2 = set_ax {| calls := calls a1 ++ added |} v1 /\
      In colorbar added.
Proof.
  intros v v1 X y r Hscore.
  pose proof Hscore as Hinv. apply score_return_inv in Hinv.
  destruct Hinv
    as [y_pred [precision [recall [f1 [counts [classes [a
          [Hp [Hs [Hc [Hd [He Hv1]]]]]]]]]]]].
  cbv zeta in Hd, Hv1.
  set (mid := set_scores_ _ (set_support_score_ counts v)) in Hd, Hv1.
  assert (Hest : estimator v1 = estimator v) by (subst v1; reflexivity).
  assert (Hsup : support v1 = support v) by (subst v1; reflexivity).
  assert (Hcls : classes_ v1 = classes_ v) by (subst v1; reflexivity).
  rewrite score_eq, Hest, Hp, Hs, Hcls, Hc, Hsup.
  set (mid1 := set_scores_ _ (set_support_score_ counts v1)).
  assert (Hsame : same_display mid mid1).
  { unfold same_display, mid, mid1. subst v1. simpl. tauto. }
  destruct (draw_same_display Hsame Hd) as [added [_ [Hbar Hagain]]].
  rewrite Hagain. cbn [estimator set_ax mid1 set_scores_ set_support_score_].
  rewrite Hest, He.
  assert (Hax : _ax v1 = Some a) by (subst v1; reflexivity).
  exists (set_score_ r
            (set_ax {| calls := calls (surface mid1) ++ added |} mid1)),
         a, added.
  split; [reflexivity |]. split; [assumption |]. split; [| assumption].
  unfold surface, mid1. cbn [_ax set_scores_ set_support_score_].
  rewrite Hax. subst v1. unfold mid. reflexivity.
Qed.

End Again.

Lemma draw_again_adds_second_colorbar_witness :
  let o := draw scored_report in
  let s' := final_state o in
  let a := surface s' in
  exists added : list (ax_call Q (string * string * string)),
    calls a = calls (surface scored_report) ++ added /\
    In colorbar added /\
    draw s'
    = Return {| calls := calls a ++ added |}
             (set_ax {| calls := calls a ++ added |} scored_report).
Proof.
  intros o s' a.
  apply (@draw_again_adds_second_colorbar _ _ _ scored_report s' a).
  vm_compute. reflexivity.
Defined.

Lemma score_twice_same_scores_witness :
  exists (v2 : ClassificationReport Q (option string)
                                    (string * string * string))
         (a1 : Axes Q (string * string * string))
         (added : list (ax_call Q (string * string * string))),
    score (env := toy) toy_X toy_y scored_report = Return (Qmake 3 4) v2 /\
    _ax scored_report = Some a1 /\
    v2 = set_ax {| calls := calls a1 ++ added |} scored_report /\
    In colorbar added.
Proof.
  apply (@score_twice_same_scores
           _ _ _ _ _ toy (fitted_report (PyStr "count")) scored_report
           toy_X toy_y (Qmake 3 4)).
  vm_compute. reflexivity.
Defined.

(** *** Finishing the report *)

Section Finishing.
Context {float Data Target Estimator Colormap : Type}.
Context {env : Collaborators float Data Target Estimator Colormap}.

Local Abbreviation ClassificationReport :=
  (ClassificationReport.ClassificationReport float Estimator Colormap).
Local Abbreviation Axes := (ClassificationReport.Axes float Colormap).
Local Abbreviation ax_call := (ClassificationReport.ax_call float Colormap).
Local Abbreviation Chart :=
  (ClassificationReportFinish.Chart float Estimator Colormap).

(** The labelling [finalize] gives a report that has its classes. *)
Definition finalize_calls (name : string) (displayed classes : list string)
  : list label_call :=
  [set_title (name ++ " Classification Report");
   set_xticks (centres (List.length displayed));
   set_yticks (centres (List.length classes));
   set_xticklabels displayed 45;
   set_yticklabels classes;
   tight_layout].

Lemma finalize_report_fitted (name : string) (v : ClassificationReport) (a : Axes)
      (classes : list string) (done : list label_call) :
  _ax v = Some a ->
  classes_ v = Some classes ->
  finalize name {| viz := v; labelling := done |}
  = Return tt {| viz := v;
                 labelling := done ++ finalize_calls name (_displayed_scores v)
                                                     classes |}.
Proof.
  intros Ha Hc. unfold finalize_calls.
  cbv beta iota zeta delta [finalize label_with on_viz add bind attr ax get
                            modify ret raise].
  repeat (progress (cbn [viz labelling]; rewrite ?Ha, ?Hc)).
  rewrite <- !app_assoc. reflexivity.
Qed.

(** X24. On the chart of a report that [score] has just returned from,
    [finalize] returns, leaves the report as it is, and labels the chart:
    the title names the estimator, the horizontal axis gets one tick per
    displayed score, labelled with the names of the scores and turned by
    45 degrees, the vertical axis one tick per class, labelled with the
    classes; tick [i] sits at [i + 0.5], the centre of column or row [i]
    of the heat map that [score] has drawn, which has as many columns as
    displayed scores and as many rows as classes. *)
Theorem finalize_labels_the_heat_map :
  forall (v v' : ClassificationReport) (X : Data) (y : Target) (r : float)
         (name : string) (done : list label_call),
    score X y v = Return r v' ->
    exists (classes : list string) (a : Axes) (grid : list (list float)),
      classes_ v' = Some classes /\
      _ax v' = Some a /\
      In (pcolormesh (List.length (_displayed_scores v') + 1)
                     (List.length classes + 1) grid (cmap v'))
         (calls a) /\
      List.length grid = List.length classes /\
      (forall row, In row grid ->
                   List.length row = List.length (_displayed_scores v')) /\
      finalize name {| viz := v'; labelling := done |}
      = Return tt
          {| viz := v';
             labelling :=
               done ++
               [set_title (name ++ " Classification Report");
                set_xticks (centres (List.length (_displayed_scores v')));
                set_yticks (centres (List.length classes));
                set_xticklabels (_displayed_scores v') 45;
                set_yticklabels classes;
                tight_layout] |}.
Proof.
  intros v v' X y r name done Hscore.
  apply score_return_inv in Hscore.
  destruct Hscore
    as [y_pred [precision [recall [f1 [counts [classes [a
          [_ [_ [Hc [Hd [_ Hv']]]]]]]]]]]].
  cbv zeta in Hd, Hv'.
  set (mid := set_scores_ _ (set_support_score_ counts v)) in Hd, Hv'.
  pose proof (draw_outcome mid) as Ho. rewrite Hd in Ho.
  destruct Ho as [classes' [grid [ts [Hcls [Hgrid [_ [_ Hcalls]]]]]]].
  assert (classes' = classes) by (unfold mid in Hcls; simpl in Hcls; congruence).
  subst classes'.
  pose proof Hgrid as Hshape. apply grid_of_shape in Hshape.
  destruct Hshape as [Hn Hm].
  exists classes, a, grid. subst v'.
  split; [exact Hc |]. split; [reflexivity |]. split.
  - rewrite Hcalls. apply in_or_app. right. apply in_or_app. right.
    apply in_or_app. right. now left.
  - split; [exact Hn |]. split; [exact Hm |].
    apply (@finalize_report_fitted name _ a classes done); [reflexivity | exact Hc].
Qed.

End Finishing.

Lemma finalize_labels_the_heat_map_witness :
  exists (classes : list string) (a : Axes Q (string * string * string))
         (grid : list (list Q)),
    classes_ scored_report = Some classes /\
    _ax scored_report = Some a /\
    In (pcolormesh (List.length (_displayed_scores scored_report) + 1)
                   (List.length classes + 1) grid (cmap scored_report))
       (calls a) /\
    List.length grid = List.length classes /\
    (forall row, In row grid ->
                 List.length row
                 = List.length (_displayed_scores scored_report)) /\
    finalize "Toy" {| viz := scored_report; labelling := [] |}
    = Return tt
        {| viz := scored_report;
           labelling :=
             [] ++
             [set_title ("Toy" ++ " Classification Report");
              set_xticks (centres (List.length
                                     (_displayed_scores scored_report)));
              set_yticks (centres (List.length classes));
              set_xticklabels (_displayed_scores scored_report) 45;
              set_yticklabels classes;
              tight_layout] |}.
Proof.
  apply (@finalize_labels_the_heat_map
           _ _ _ _ _ toy (fitted_report (PyStr "count")) scored_report
           toy_X toy_y (Qmake 3 4) "Toy" []).
  vm_compute. reflexivity.
Defined.

(** The ticks of that chart. *)
Example finalize_ticks_example :
  match finalize "Toy" {| viz := scored_report; labelling := [] |} with
  | Return _ ch => firstn 3 (labelling ch)
  | Raise _ _ => []
  end
  = [set_title "Toy Classification Report";
     set_xticks [Qmake 1 2; Qmake 3 2; Qmake 5 2; Qmake 7 2];
     set_yticks [Qmake 1 2; Qmake 3 2]].
Proof. vm_compute. reflexivity. Qed.

(** *** The report a quick call builds *)

Section Built.
Context {float Data Target Estimator Colormap : Type}.
Context {env : Collaborators float Data Target Estimator Colormap}.

Local Abbreviation ClassificationReport :=
  (ClassificationReport.ClassificationReport float Estimator Colormap).
Local Abbreviation Axes := (ClassificationReport.Axes float Colormap).
Local Abbreviation ax_call := (ClassificationReport.ax_call float Colormap).

(** What the constructor returns, when it returns. *)
Lemma report_init_returns (model : Estimator) (ax0 : option Axes)
      (classes0 : option (list string)) (cmap0 : string) (support0 : pyval)
      (is_fitted0 : fitted_option) (v : ClassificationReport) :
  __init__ model ax0 classes0 cmap0 support0 is_fitted0 = inr v ->
  estimator v = model /\ _ax v = ax0 /\ classes v = classes0 /\
  is_fitted v = is_fitted0 /\ support v = support0 /\
  py_in support0 SUPPORT_OPTIONS = true /\
  classes_ v = None /\ support_score_ v = None /\
  scores_ v = None /\ score_ v = None.
Proof.
  unfold __init__.
  destruct (check_classifier model); [discriminate |].
  destruct (color_sequence cmap0) as [e|cm]; [discriminate |].
  destruct (py_in support0 SUPPORT_OPTIONS); [| discriminate]. cbn [negb].
  destruct (if negb (truthy support0) then list_remove "support" SCORES_KEYS
            else Some SCORES_KEYS); [| discriminate].
  intros [= <-]. simpl. tauto.
Qed.

(** What [fit] with a target has done, when it returns: the estimator
    is [model'], the one it had or the one its own [fit] has given, and
    the classes are the constructor's or those of the target. *)
Lemma report_fit_returns (X : Data) (y : Target) (kwargs : dict pyval)
      (v r v' : ClassificationReport) :
  fit X (Some y) kwargs v = Return r v' ->
  r = v' /\
  exists model' : Estimator,
    match is_fitted v with
    | Unfitted => est_fit (estimator v) X y kwargs = inr model'
    | Fitted => model' = estimator v
    | Auto =>
        (check_fitted (estimator v) X = inr true /\ model' = estimator v) \/
        (check_fitted (estimator v) X = inr false /\
         est_fit (estimator v) X y kwargs = inr model')
    end /\
    v' = set_classes_ match classes v with
                      | Some c => c
                      | None => unique_labels y
                      end
                      (set_estimator model' v).
Proof.
  assert (Hsame : set_estimator (estimator v) v = v) by (now destruct v).
  cbv beta iota zeta delta [fit bind get modify ret raise call].
  destruct (is_fitted v).
  - intros [= <- <-]. split; [reflexivity |]. exists (estimator v).
    rewrite Hsame. split; reflexivity.
  - destruct (est_fit (estimator v) X y kwargs) as [e|model'] eqn:Hfit;
      [discriminate |].
    intros [= <- <-]. split; [reflexivity |]. exists model'.
    split; reflexivity.
  - destruct (check_fitted (estimator v) X) as [e|[|]] eqn:Hcheck;
      [discriminate | |]; cbn [negb].
    + intros [= <- <-]. split; [reflexivity |]. exists (estimator v).
      rewrite Hsame. split; [left; split |]; reflexivity.
    + destruct (est_fit (estimator v) X y kwargs) as [e|model'] eqn:Hfit;
        [discriminate |].
      intros [= <- <-]. split; [reflexivity |]. exists model'.
      split; [right; split |]; reflexivity.
Qed.

(** What [score] has stored and drawn, when it returns. *)
Lemma score_returns_chart (v v' : ClassificationReport) (X : Data)
      (y : Target) (r : float) :
  score X y v = Return r v' ->
  exists (y_pred : Target) (precision recall f1 : list float)
         (counts : list Z) (classes : list string) (a : Axes)
         (grid : list (list float)) (texts : list ax_call),
    est_predict (estimator v) X = inr y_pred /\
    precision_recall_fscore_support y y_pred
    = inr (precision, recall, f1, counts) /\
    classes_ v = Some classes /\
    est_score (estimator v) X y = inr r /\
    v' = set_score_ r
           (set_ax a
              (set_scores_ (report classes precision recall f1 counts
                                   (truthy (support v)))
                           (set_support_score_ counts v))) /\
    calls a
    = calls (surface v)
      ++ [set_ylim 0 (List.length classes);
          set_xlim 0 (List.length (_displayed_scores v))]
      ++ texts
      ++ [pcolormesh (List.length (_displayed_scores v) + 1)
                     (List.length classes + 1) grid (cmap v);
          colorbar].
Proof.
  intros Hscore. apply score_return_inv in Hscore.
  destruct Hscore
    as [y_pred [precision [recall [f1 [counts [classes [a
          [Hp [Hs [Hc [Hd [He Hv']]]]]]]]]]]].
  cbv zeta in Hd, Hv'.
  pose proof (draw_outcome
                (set_scores_ (report classes precision recall f1 counts
                                     (truthy (support v)))
                             (set_support_score_ counts v))) as Ho.
  rewrite Hd in Ho.
  destruct Ho as [classes' [grid [ts [Hcls [_ [_ [_ Hcalls]]]]]]].
  cbn [classes_ set_scores_ set_support_score_] in Hcls.
  assert (classes' = classes) by congruence. subst classes'.
  exists y_pred, precision, recall, f1, counts, classes, a, grid, ts.
  repeat (split; [assumption |]). exact Hcalls.
Qed.

End Built.

End ClassificationReportDrawing.

(* ===================================================================== *)
(** ** The quick methods *)
(* ===================================================================== *)

Module QuickMethods.
Import Py.

Section Quick.
Context {numpy : Np.Argsort}.
Context {float Data Target Estimator Colormap : Type}.
Context {env : ClassificationReport.Collaborators
                 float Data Target Estimator Colormap}.

Local Abbreviation Report :=
  (ClassificationReport.ClassificationReport float Estimator Colormap).

(** C8. Each quick method returns the fitted visualizer or its drawing
    surface.

    Whenever [classification_report] returns, the data were split, a
    fifth of them being held out, and what is returned is the visualizer
    constructed from the arguments, fitted on the training part and scored
    on the held-out part: it holds the options of the call; its
    estimator is the model, or what the model's own [fit] has made of it
    on the training part, given the keyword arguments of the call, as
    [is_fitted] decides; its classes are those of the call or of the
    training targets; its scores are scikit-learn's report on the
    held-out targets and the predictions for the held-out data; its
    [score_] is the estimator's score on the held-out part; and its
    surface holds, last, the heat map of that report with its colour bar.

    Whenever [postag] returns, the tagset is one of the two, and what is
    returned is the drawing surface that the visualizer constructed from
    the arguments holds once fitted to the corpus: the counters of that
    visualizer hold, for every category of every group, the number of
    tokens that fall in it, and the last call on the surface is the chart
    of these counters, after the calls the surface held already. *)
Theorem quick_methods_return :
  (forall (model : Estimator) (X : Data) (y : Target)
          (ax0 : option (ClassificationReport.Axes float Colormap))
          (classes0 : option (list string)) (random_state : option Z)
          (is_fitted0 : ClassificationReport.fitted_option)
          (cmap0 : option string)
          (support0 : option ClassificationReport.pyval)
          (others : dict ClassificationReport.pyval)
          (visualizer : Report),
      ClassificationReport.classification_report
        model X y ax0 classes0 random_state is_fitted0 cmap0 support0 others
      = inr visualizer ->
      let kwargs := ClassificationReport.keywords cmap0 support0 others in
      let support1 := match support0 with
                      | Some v => v
                      | None => ClassificationReport.PyNone
                      end in
      exists (created : Report) (X_train X_test : Data)
             (y_train y_test y_pred : Target)
             (precision recall f1 : list float) (counts : list Z)
             (accuracy : float)
             (chart : ClassificationReport.Axes float Colormap)
             (grid : list (list float))
             (texts before : list (ClassificationReport.ax_call
                                     float Colormap)),
        let classes1 := match classes0 with
                        | Some c => c
                        | None => ClassificationReport.unique_labels y_train
                        end in
        let displayed := ClassificationReport._displayed_scores created in
        ClassificationReport.__init__
          model ax0 classes0
          match cmap0 with
          | Some c => c
          | None => "YlOrRd"
          end
          support1 is_fitted0 = inr created /\
        ClassificationReport.train_test_split X y (Qmake 1 5) random_state
        = inr (X_train, X_test, y_train, y_test) /\
        (* the visualizer created, with its options *)
        ClassificationReport.classes visualizer = classes0 /\
        ClassificationReport.is_fitted visualizer = is_fitted0 /\
        ClassificationReport.support visualizer = support1 /\
        ClassificationReport.cmap visualizer
        = ClassificationReport.cmap created /\
        ClassificationReport._displayed_scores visualizer = displayed /\
        (* fitted on the training part *)
        match is_fitted0 with
        | ClassificationReport.Unfitted =>
            ClassificationReport.est_fit model X_train y_train kwargs
            = inr (ClassificationReport.estimator visualizer)
        | ClassificationReport.Fitted =>
            ClassificationReport.estimator visualizer = model
        | ClassificationReport.Auto =>
            (ClassificationReport.check_fitted model X_train = inr true /\
             ClassificationReport.estimator visualizer = model) \/
            (ClassificationReport.check_fitted model X_train = inr false /\
             ClassificationReport.est_fit model X_train y_train kwargs
             = inr (ClassificationReport.estimator visualizer))
        end /\
        ClassificationReport.classes_ visualizer = Some classes1 /\
        (* scored on the held-out part *)
        ClassificationReport.est_predict
          (ClassificationReport.estimator visualizer) X_test = inr y_pred /\
        ClassificationReport.precision_recall_fscore_support y_test y_pred
        = inr (precision, recall, f1, counts) /\
        ClassificationReport.support_score_ visualizer = Some counts /\
        ClassificationReport.scores_ visualizer
        = Some (ClassificationReportFacts.report
                  classes1 precision recall f1 counts
                  (ClassificationReport.truthy support1)) /\
        ClassificationReport.est_score
          (ClassificationReport.estimator visualizer) X_test y_test
        = inr accuracy /\
        ClassificationReport.score_ visualizer = Some accuracy /\
        (* and drawn *)
        ClassificationReport._ax visualizer = Some chart /\
        ClassificationReport.calls chart
        = before
          ++ [ClassificationReport.set_ylim 0 (List.length classes1);
              ClassificationReport.set_xlim 0 (List.length displayed)]
          ++ texts
          ++ [ClassificationReport.pcolormesh
                (List.length displayed + 1) (List.length classes1 + 1)
                grid (ClassificationReport.cmap created);
              ClassificationReport.colorbar] /\
        (forall a, ax0 = Some a -> before = ClassificationReport.calls a)) /\
  (forall (X : PosTag.corpus) (y : option (list string))
          (ax0 : option PosTag.Axes) (tagset0 : string)
          (colormap0 colors0 : option string) (frequency0 stack0 : bool)
          (surface : PosTag.Axes),
      PosTag.postag X y ax0 tagset0 colormap0 colors0 frequency0 stack0
      = inr surface ->
      exists (created fitted : PosTag.PosTagVisualizer)
             (c : dict (dict Z)) (tags : list string)
             (before : list PosTag.ax_call),
        let data := map (fun cn => map (PosTagDrawing.lookup0 cn) tags)
                        (dict_values c) in
        let labels := PosTagFacts.labels_for created y in
        (tagset0 = "penn_treebank" \/ tagset0 = "universal") /\
        PosTag.__init__ ax0 tagset0 colormap0 colors0 frequency0 stack0
        = inr created /\
        PosTag.fit X y created = Return fitted fitted /\
        PosTag._ax fitted = Some surface /\
        (* what the fitted visualizer has counted *)
        PosTag.pos_tag_counts_ fitted = Some c /\
        (forall l k, In l labels -> In k (PosTagFacts.tags_of created) ->
           PosTagFacts.count_at c l k
           = Some (Z.of_nat (PosTagFacts.hits
                               (PosTagFacts.keyfn_of created) stack0 y l k
                               (PosTagFacts.corpus_tokens X)))) /\
        (* and drawn *)
        PosTag._pos_tags fitted = Some tags /\
        Permutation tags (PosTagFacts.tags_of created) /\
        PosTag.calls surface
        = before
          ++ [if stack0
              then PosTag.bar_stack data labels tags colors0 colormap0
              else PosTag.bar (seq 0 (List.length tags)) (hd [] data)
                              (List.length tags) colormap0 colors0] /\
        (forall a, ax0 = Some a -> before = PosTag.calls a)).
Proof.
  split.
  - intros model X y ax0 classes0 random_state is_fitted0 cmap0 support0
           others visualizer.
    unfold ClassificationReport.classification_report.
    destruct (ClassificationReport.__init__ _ _ _ _ _ _)
      as [e|created] eqn:Hinit; [discriminate |].
    destruct (ClassificationReport.train_test_split X y (Qmake 1 5)
                                                    random_state)
      as [e|[[[X_train X_test] y_train] y_test]] eqn:Hsplit; [discriminate |].
    destruct (ClassificationReport.fit X_train (Some y_train) _ created)
      as [r fitted|e fitted] eqn:Hfit; [| discriminate].
    destruct (ClassificationReport.score X_test y_test fitted)
      as [accuracy scored|e scored] eqn:Hscore; [| discriminate].
    intros [= <-]. cbv zeta.
    pose proof (ClassificationReportDrawing.report_init_returns
                  _ _ _ _ _ _ Hinit) as [Hest [Hax [Hcl [Hfi [Hsup _]]]]].
    apply ClassificationReportDrawing.report_fit_returns in Hfit.
    destruct Hfit as [_ [model' [Hmodel Hfitted]]].
    apply ClassificationReportDrawing.score_returns_chart in Hscore.
    destruct Hscore
      as [y_pred [precision [recall [f1 [counts [classes [a [grid [texts
            [Hp [Hs [Hc [He [Hv Hcalls]]]]]]]]]]]]]].
    rewrite Hfitted in Hp, Hc, He, Hv, Hcalls.
    cbn [ClassificationReport.estimator ClassificationReport.classes_
         ClassificationReport.support ClassificationReport._displayed_scores
         ClassificationReport.cmap
         ClassificationReport.set_classes_ ClassificationReport.set_estimator]
      in Hp, Hc, He, Hv, Hcalls.
    injection Hc as <-. rewrite Hcl in Hv, Hcalls.
    rewrite Hsup in Hv. rewrite Hfi, Hest in Hmodel.
    exists created, X_train, X_test, y_train, y_test, y_pred, precision,
           recall, f1, counts, accuracy, a, grid, texts,
           (ClassificationReport.calls
              (ClassificationReportDrawing.surface created)).
    rewrite Hv.
    cbn [ClassificationReport.estimator ClassificationReport.classes_
         ClassificationReport.classes ClassificationReport.is_fitted
         ClassificationReport.support ClassificationReport._displayed_scores
         ClassificationReport.cmap ClassificationReport._ax
         ClassificationReport.support_score_ ClassificationReport.scores_
         ClassificationReport.score_
         ClassificationReport.set_score_ ClassificationReport.set_ax
         ClassificationReport.set_scores_
         ClassificationReport.set_support_score_
         ClassificationReport.set_classes_ ClassificationReport.set_estimator].
    repeat match goal with
           | |- _ /\ _ => split
           end; trivial.
    intros a0 Ha0. unfold ClassificationReportDrawing.surface.
    now rewrite Hax, Ha0.
  - intros X y ax0 tagset0 colormap0 colors0 frequency0 stack0 surface.
    unfold PosTag.postag.
    destruct (PosTag.__init__ ax0 tagset0 colormap0 colors0 frequency0 stack0)
      as [e|created] eqn:Hinit; [discriminate |].
    pose proof (PosTagFinishing.init_returns _ _ _ _ _ _ Hinit) as [Hts Hcr].
    assert (Hv : PosTagFacts.valid_tagset created) by (rewrite Hcr; exact Hts).
    destruct (PosTag.fit X y created) as [r fitted|e fitted] eqn:Hfit;
      [| discriminate].
    destruct (PosTagDrawing.fit_returns_self _ _ _ Hfit) as [-> _].
    destruct (PosTagFinishing.fit_charts _ _ Hv Hfit)
      as [c [tags [a [Hc [Ht [Hperm [Ha Hcalls]]]]]]].
    cbv zeta in Hcalls.
    unfold PosTag.ax, bind, get, ret. rewrite Ha. intros [= <-].
    exists created, fitted, c, tags,
           (PosTag.calls (PosTagDrawing.surface created)).
    cbv zeta.
    assert (Hst : PosTag.stack created = stack0) by (rewrite Hcr; reflexivity).
    assert (Hcm : PosTag.colormap created = colormap0)
      by (rewrite Hcr; reflexivity).
    assert (Hco : PosTag.colors created = colors0)
      by (rewrite Hcr; reflexivity).
    assert (Hax : PosTag._ax created = ax0) by (rewrite Hcr; reflexivity).
    repeat match goal with
           | |- _ /\ _ => split
           end; trivial.
    + intros l k Hl Hk. rewrite <- Hst.
      eapply PosTagCounting.fit_count_at; eauto.
    + rewrite Hcalls, Hst, Hcm, Hco. reflexivity.
    + intros a0 Ha0. unfold PosTagDrawing.surface. now rewrite Hax, Ha0.
Qed.

End Quick.

(** *** The quick methods at work *)

Definition ten_X : list Z := [1; 2; 3; 4; 5; 6; 7; 8; 9; 10].
Definition ten_y : list string :=
  ["a"; "b"; "a"; "a"; "b"; "a"; "a"; "a"; "b"; "a"].

#[local] Existing Instance ClassificationReportFacts.toy.
#[local] Existing Instance NpFacts.insertion.

Local Abbreviation toy_report :=
  (ClassificationReport.ClassificationReport
     Q (option string) (string * string * string)).

(** The two quick methods, the first on ten instances and an estimator
    that is not fitted yet, the second on the small corpus. *)
Lemma quick_methods_return_witness :
  let float := Q in
  let Data := list Z in
  let Target := list string in
  let Estimator := option string in
  let Colormap := (string * string * string)%type in
  let model : option string := None in
  let ax0 : option (ClassificationReport.Axes float Colormap) := None in
  let classes0 : option (list string) := None in
  let is_fitted0 := ClassificationReport.Auto in
  let cmap0 : option string := None in
  let support0 : option ClassificationReport.pyval := None in
  let others : dict ClassificationReport.pyval := [] in
  let visualizer : toy_report :=
    match ClassificationReport.classification_report
            model ten_X ten_y ax0 classes0 None is_fitted0 cmap0 support0
            others with
    | inr v => v
    | inl _ => ClassificationReportFacts.fitted_report
                 ClassificationReport.PyNone
    end in
  let X := PosTagDrawing.small_corpus in
  let y : option (list string) := None in
  let pax0 : option PosTag.Axes := None in
  let tagset0 := "universal" in
  let colormap0 : option string := None in
  let colors0 : option string := None in
  let stack0 := false in
  let surface :=
    match PosTag.postag (numpy := NpFacts.insertion)
                        X y pax0 tagset0 colormap0 colors0 true stack0 with
    | inr a => a
    | inl _ => PosTag.gca
    end in
  (let random_state : option Z := None in
   let X := ten_X in
   let y := ten_y in
  let kwargs := ClassificationReport.keywords cmap0 support0 others in
  let support1 := match support0 with
                  | Some v => v
                  | None => ClassificationReport.PyNone
                  end in
  exists (created : toy_report) (X_train X_test : Data)
         (y_train y_test y_pred : Target)
         (precision recall f1 : list float) (counts : list Z)
         (accuracy : float)
         (chart : ClassificationReport.Axes float Colormap)
         (grid : list (list float))
         (texts before : list (ClassificationReport.ax_call
                                 float Colormap)),
    let classes1 := match classes0 with
                    | Some c => c
                    | None => ClassificationReport.unique_labels y_train
                    end in
    let displayed := ClassificationReport._displayed_scores created in
    ClassificationReport.__init__
      model ax0 classes0
      match cmap0 with
      | Some c => c
      | None => "YlOrRd"
      end
      support1 is_fitted0 = inr created /\
    ClassificationReport.train_test_split X y (Qmake 1 5) random_state
    = inr (X_train, X_test, y_train, y_test) /\
    (* the visualizer created, with its options *)
    ClassificationReport.classes visualizer = classes0 /\
    ClassificationReport.is_fitted visualizer = is_fitted0 /\
    ClassificationReport.support visualizer = support1 /\
    ClassificationReport.cmap visualizer
    = ClassificationReport.cmap created /\
    ClassificationReport._displayed_scores visualizer = displayed /\
    (* fitted on the training part *)
    match is_fitted0 with
    | ClassificationReport.Unfitted =>
        ClassificationReport.est_fit model X_train y_train kwargs
        = inr (ClassificationReport.estimator visualizer)
    | ClassificationReport.Fitted =>
        ClassificationReport.estimator visualizer = model
    | ClassificationReport.Auto =>
        (ClassificationReport.check_fitted model X_train = inr true /\
         ClassificationReport.estimator visualizer = model) \/
        (ClassificationReport.check_fitted model X_train = inr false /\
         ClassificationReport.est_fit model X_train y_train kwargs
         = inr (ClassificationReport.estimator visualizer))
    end /\
    ClassificationReport.classes_ visualizer = Some classes1 /\
    (* scored on the held-out part *)
    ClassificationReport.est_predict
      (ClassificationReport.estimator visualizer) X_test = inr y_pred /\
    ClassificationReport.precision_recall_fscore_support y_test y_pred
    = inr (precision, recall, f1, counts) /\
    ClassificationReport.support_score_ visualizer = Some counts /\
    ClassificationReport.scores_ visualizer
    = Some (ClassificationReportFacts.report
              classes1 precision recall f1 counts
              (ClassificationReport.truthy support1)) /\
    ClassificationReport.est_score
      (ClassificationReport.estimator visualizer) X_test y_test
    = inr accuracy /\
    ClassificationReport.score_ visualizer = Some accuracy /\
    (* and drawn *)
    ClassificationReport._ax visualizer = Some chart /\
    ClassificationReport.calls chart
    = before
      ++ [ClassificationReport.set_ylim 0 (List.length classes1);
          ClassificationReport.set_xlim 0 (List.length displayed)]
      ++ texts
      ++ [ClassificationReport.pcolormesh
            (List.length displayed + 1) (List.length classes1 + 1)
            grid (ClassificationReport.cmap created);
          ClassificationReport.colorbar] /\
    (forall a, ax0 = Some a -> before = ClassificationReport.calls a)) /\
  (let ax0 := pax0 in
   let frequency0 := true in
  exists (created fitted : PosTag.PosTagVisualizer)
         (c : dict (dict Z)) (tags : list string)
         (before : list PosTag.ax_call),
    let data := map (fun cn => map (PosTagDrawing.lookup0 cn) tags)
                    (dict_values c) in
    let labels := PosTagFacts.labels_for created y in
    (tagset0 = "penn_treebank" \/ tagset0 = "universal") /\
    PosTag.__init__ ax0 tagset0 colormap0 colors0 frequency0 stack0
    = inr created /\
    PosTag.fit X y created = Return fitted fitted /\
    PosTag._ax fitted = Some surface /\
    (* what the fitted visualizer has counted *)
    PosTag.pos_tag_counts_ fitted = Some c /\
    (forall l k, In l labels -> In k (PosTagFacts.tags_of created) ->
       PosTagFacts.count_at c l k
       = Some (Z.of_nat (PosTagFacts.hits
                           (PosTagFacts.keyfn_of created) stack0 y l k
                           (PosTagFacts.corpus_tokens X)))) /\
    (* and drawn *)
    PosTag._pos_tags fitted = Some tags /\
    Permutation tags (PosTagFacts.tags_of created) /\
    PosTag.calls surface
    = before
      ++ [if stack0
          then PosTag.bar_stack data labels tags colors0 colormap0
          else PosTag.bar (seq 0 (List.length tags)) (hd [] data)
                          (List.length tags) colormap0 colors0] /\
    (forall a, ax0 = Some a -> before = PosTag.calls a)).
Proof.
  intros float Data Target Estimator Colormap model ax0 classes0 is_fitted0 cmap0 support0
         others visualizer X y pax0 tagset0 colormap0 colors0 stack0 surface.
  split.
  - intros random_state X' y'.
    apply (proj1 (@quick_methods_return
                    NpFacts.insertion _ _ _ _ _ ClassificationReportFacts.toy)
                 model X' y' ax0 classes0 random_state is_fitted0 cmap0
                 support0 others visualizer).
    vm_compute. reflexivity.
  - intros ax0' frequency0.
    apply (proj2 (@quick_methods_return
                    NpFacts.insertion _ _ _ _ _ ClassificationReportFacts.toy)
                 X y ax0' tagset0 colormap0 colors0 frequency0 stack0 surface).
    vm_compute. reflexivity.
Defined.

(** [classification_report] on the ten instances with an estimator that
    is not fitted yet: the visualizer returned was fitted on the first
    eight and scored on the last two. *)
Example classification_report_toy :
  match ClassificationReport.classification_report
          (env := ClassificationReportFacts.toy)
          None ten_X ten_y None None None ClassificationReport.Auto
          None None [] with
  | inr visualizer =>
      Some (ClassificationReport.estimator visualizer,
            ClassificationReport.classes_ visualizer,
            ClassificationReport.support_score_ visualizer,
            ClassificationReport.score_ visualizer)
  | inl _ => None
  end = Some (Some "a", Some ["a"; "b"], Some [1; 1], Some (Qmake 1 2)).
Proof. vm_compute. reflexivity. Qed.

(** The keyword arguments reach the estimator's own [fit]: with
    [support="count"] and an estimator that is not fitted yet, the call
    ends in the [TypeError] of that [fit]; with an estimator that is
    fitted already, which is not fitted again, it returns. *)
Example classification_report_keywords :
  ClassificationReport.classification_report
    (env := ClassificationReportFacts.toy)
    None ten_X ten_y None None None ClassificationReport.Auto
    None (Some (ClassificationReport.PyStr "count")) []
  = inl TypeError /\
  match ClassificationReport.classification_report
          (env := ClassificationReportFacts.toy)
          (Some "a") ten_X ten_y None None None ClassificationReport.Auto
          None (Some (ClassificationReport.PyStr "count")) [] with
  | inr visualizer =>
      Some (ClassificationReport.support visualizer,
            ClassificationReport._displayed_scores visualizer,
            ClassificationReport.support_score_ visualizer)
  | inl _ => None
  end = Some (ClassificationReport.PyStr "count",
              ["precision"; "recall"; "f1"; "support"], Some [1; 1]).
Proof. split; vm_compute; reflexivity. Qed.

(** A split that fails ends the call: here the targets are fewer than
    the instances. *)
Example classification_report_split_fails :
  ClassificationReport.classification_report
    (env := ClassificationReportFacts.toy)
    None ten_X ["a"; "b"] None None None ClassificationReport.Auto
    None None []
  = inl ValueError.
Proof. vm_compute. reflexivity. Qed.

(** [postag] on a small corpus, by frequency: the surface it returns
    holds one bar chart, the verbs (2) before the noun (1). *)
Example postag_small_corpus :
  match PosTag.postag (numpy := NpFacts.insertion)
                      PosTagDrawing.small_corpus None None "universal"
                      None None true false with
  | inr surface =>
      Some (List.length (PosTag.calls surface),
            map (firstn 2) (PosTagDrawing.last_bars surface))
  | inl _ => None
  end = Some (1%nat, [[2; 1]]).
Proof. vm_compute. reflexivity. Qed.

(** [postag] with a tagset the constructor refuses. *)
Example postag_invalid_tagset :
  PosTag.postag (numpy := NpFacts.insertion)
                PosTagDrawing.small_corpus None None "invalid"
                None None false false
  = inl (YellowbrickValueError
           "'invalid' is an invalid tagset. Please choose one of penn_treebank, universal.").
Proof. vm_compute. reflexivity. Qed.

End QuickMethods.
